(** * Card rendering pipeline of [hybrid_figma_api.js]

    A shallow embedding of the class [SharpOnlyFigmaAutomation]: the text
    layout ([createTextSvg] with its local helpers [escapeXml] and
    [wrapText]), the template table [TEMPLATE_CONFIG], the card renderer
    [processCard] and the batch loop [processBatch]. With them the walk
    of the document of [getFigmaFileStructure], and from [hybrid_server.js]
    the authentication and the handlers of [/api/process] and [/api/test].

    Conventions of the embedding.
    - A JavaScript string is a [string]; every [ascii] stands for one UTF-16
      code unit below 256, so [String.length] is the [.length] of the source.
    - A JavaScript number is an IEEE 754 binary64 value, taken from the
      Standard Library's reference model [spec_float] with [prec = 53] and
      [emax = 1024].
    - [await]ed calls to the outside (HTTP, image library, file system,
      clock, timers) are oracles over an abstract world; a rejected promise
      and a [throw] are the same [Throw].
    - The lines of [console.log] are not in the trace; a template literal
      of such a line is evaluated all the same where the conversion of its
      value to a string can throw (the header of a card). The
      [console.error] reports of the [catch] blocks are kept in the trace.
    - A property of a request body is any value of JSON, or [undefined];
      an environment variable, an HTTP header and an entry of the answer of
      the design tool is a string or [undefined]. *)

From Stdlib Require Import ZArith List String Ascii Bool Lia SpecFloat.
From Stdlib Require Import DecimalString.
Import ListNotations.

Open Scope string_scope.
Open Scope list_scope.
Open Scope Z_scope.

(** JavaScript's [+] on strings. *)
Infix "+++" := String.append (at level 60, right associativity).

(* ================================================================== *)
(** ** JavaScript values that reach the pipeline *)

(** A value that is absent ([undefined]) or a string: an environment
    variable, an HTTP header, the [nodeId] of a configuration, a URL in an
    answer of the outside. *)
Inductive value : Type :=
| undefined
| str (s : string).

Module Error.
(** An Error object: its [message] and, when it is the error of an HTTP
    request that was answered, the [data] of that answer as [console.error]
    prints it ([error.response] is not set otherwise). *)
Record t : Type := {
  message : string;
  response : option string
}.
End Error.

(** [new Error(message)], and a TypeError of the runtime. *)
Definition new_Error (message : string) : Error.t :=
  {| Error.message := message; Error.response := None |}.

(** The outcome of evaluating an expression or awaiting a promise. *)
Inductive outcome (A : Type) : Type :=
| Return (a : A)
| Throw (error : Error.t).
Arguments Return {A} a.
Arguments Throw {A} error.

(* ================================================================== *)
(** ** Strings *)

Module Str.

Definition space : ascii := " "%char.
Definition nl : string := String (ascii_of_nat 10) "".
(** The double quote character, as a string. *)
Definition dq : string := String (ascii_of_nat 34) "".

(** [s] is truthy: not the empty string. *)
Definition nonempty (s : string) : bool := negb (String.eqb s "").

(** WhiteSpace and LineTerminator code units below 256: TAB, LF, VT, FF,
    CR, SP and NBSP. This is the class of [\s] and of [trim()]. *)
Definition is_ws (c : ascii) : bool :=
  let n := N_of_ascii c in
  ((9 <=? n) && (n <=? 13) || (n =? 32) || (n =? 160))%N.

(** [s.split(' ')]: never empty, [''.split(' ')] is [['']]. *)
Fixpoint split (s : string) : list string :=
  match s with
  | "" => [""]
  | String c r =>
      if Ascii.eqb c space then "" :: split r
      else match split r with
           | w :: ws => String c w :: ws
           | [] => [String c ""]
           end
  end.

Fixpoint trimStart (s : string) : string :=
  match s with
  | "" => ""
  | String c r => if is_ws c then trimStart r else s
  end.

Fixpoint trimEnd (s : string) : string :=
  match s with
  | "" => ""
  | String c r =>
      match trimEnd r with
      | "" => if is_ws c then "" else String c ""
      | r' => String c r'
      end
  end.

(** [s.trim()] *)
Definition trim (s : string) : string := trimEnd (trimStart s).

(** [s.replace(/c/g, by)] for a single character [c]. *)
Fixpoint replaceAll (c : ascii) (by_ : string) (s : string) : string :=
  match s with
  | "" => ""
  | String d r =>
      if Ascii.eqb d c then by_ +++ replaceAll c by_ r
      else String d (replaceAll c by_ r)
  end.

(** [s.replace(/\s+/g, by)]: every maximal run of white space becomes one
    [by]. [inrun] tells that the previous character was white space. *)
Fixpoint replaceWsRuns_from (inrun : bool) (by_ : string) (s : string) : string :=
  match s with
  | "" => ""
  | String d r =>
      if is_ws d then
        (if inrun then "" else by_) +++ replaceWsRuns_from true by_ r
      else String d (replaceWsRuns_from false by_ r)
  end.

Definition replaceWsRuns : string -> string -> string :=
  replaceWsRuns_from false.

(** [arr.join('')] *)
Definition join (l : list string) : string :=
  fold_right String.append "" l.

(** [arr.join(sep)] *)
Fixpoint joinWith (sep : string) (l : list string) : string :=
  match l with
  | [] => ""
  | [x] => x
  | x :: r => x +++ sep +++ joinWith sep r
  end.

(** Decimal rendering of an integer, as a template literal prints it. *)
Definition ofZ (z : Z) : string := NilZero.string_of_int (Z.to_int z).

(** The words of a text: its maximal runs of characters that are not
    white space. [cur] is the word being read. *)
Fixpoint words_from (cur : string) (s : string) : list string :=
  match s with
  | "" => if nonempty cur then [cur] else []
  | String c r =>
      if is_ws c then
        (if nonempty cur then [cur] else []) ++ words_from "" r
      else words_from (cur +++ String c "") r
  end.

Definition words : string -> list string := words_from "".

(** The text does not contain the separator of [split(' ')]. *)
Fixpoint no_space (s : string) : bool :=
  match s with
  | "" => true
  | String c r => negb (Ascii.eqb c space) && no_space r
  end.

End Str.

(* ================================================================== *)
(** ** Numbers *)

Definition number : Type := spec_float.

Module Num.

Definition prec : Z := 53.
Definition emax : Z := 1024.

Definition mul : number -> number -> number := SFmul prec emax.
Definition div : number -> number -> number := SFdiv prec emax.
Definition add : number -> number -> number := SFadd prec emax.

(** The number with the value of the integer [z] (exact below [2^53]). *)
Definition ofZ (z : Z) : number := binary_normalize prec emax z 0 false.

(** The literals of the source, as the nearest binary64 values. *)
Definition lit_0_06 : number := S754_finite false 8646911284551352 (-57).
Definition lit_0_04 : number := S754_finite false 5764607523034235 (-57).
Definition lit_0_3 : number := S754_finite false 5404319552844595 (-54).
Definition lit_0_6 : number := S754_finite false 5404319552844595 (-53).
Definition lit_0_8 : number := S754_finite false 7205759403792794 (-53).
Definition lit_1_3 : number := S754_finite false 5854679515581645 (-52).
Definition lit_2 : number := S754_finite false 4503599627370496 (-51).

(** [Math.floor(x)]: the largest integer not above [x]. *)
Definition Math_floor (x : number) : number :=
  match x with
  | S754_finite s m e =>
      if 0 <=? e then x
      else binary_normalize prec emax (cond_Zopp s (Zpos m) / 2 ^ (- e)) 0 s
  | _ => x
  end.

(** [Math.round(x)]: the integer closest to [x], ties towards +infinity,
    that is [floor (x + 1/2)] computed exactly. *)
Definition Math_round (x : number) : number :=
  match x with
  | S754_finite s m e =>
      if 0 <=? e then x
      else binary_normalize prec emax
             ((2 * cond_Zopp s (Zpos m) + 2 ^ (- e)) / 2 ^ (1 - e)) 0 s
  | _ => x
  end.

(** [n > x] for a string length [n]: the comparison of the two values,
    which is exact; every comparison with NaN is false. On the numbers of
    binary64 this is [SFltb x (ofZ n)], see [length_gt_SFltb]. *)
Definition length_gt (n : nat) (x : number) : bool :=
  match x with
  | S754_nan => false
  | S754_infinity s => s
  | S754_zero _ => 0 <? Z.of_nat n
  | S754_finite true _ _ => true
  | S754_finite false m e =>
      if 0 <=? e then Zpos m * 2 ^ e <? Z.of_nat n
      else Zpos m <? Z.of_nat n * 2 ^ (- e)
  end.

End Num.

(* ================================================================== *)
(** ** Values parsed from the JSON of a request *)

(** What a property of a parsed body holds: a string or nothing, as
    [plain], or another value of JSON. An object is the list of its own
    properties. *)
Inductive data : Type :=
| plain (v : value)
| null
| boolean (b : bool)
| numeric (x : number)
| array (elements : list data)
| object (properties : list (string * data)).

(** A string, or [undefined], where any value may stand. *)
Coercion plain : value >-> data.

(** ToBoolean: [undefined], [null], [false], the empty string, the zeros
    and NaN are falsy; arrays and objects are truthy. *)
Definition truthy (v : data) : bool :=
  match v with
  | plain undefined => false
  | plain (str s) => negb (String.eqb s "")
  | null => false
  | boolean b => b
  | numeric (S754_zero _) => false
  | numeric S754_nan => false
  | numeric _ => true
  | array _ => true
  | object _ => true
  end.

(** [a || b] *)
Definition js_or (a b : data) : data :=
  if truthy a then a else b.

(** The object has a property of its own with this name. *)
Definition hasOwn (name : string) (properties : list (string * data)) : bool :=
  existsb (fun property => String.eqb (fst property) name) properties.

Section Conversion.

(** [Number::toString] of the language runtime. *)
Variable Number_toString : number -> string.

(** ToString, as a template literal and a property key apply it. An array
    is joined with commas, [Array.prototype.join]: nothing for an element
    that is [null] or [undefined], and the first element that does not
    convert throws. An object prints through [Object.prototype.toString],
    unless a property of its own named [toString] hides that method: a value
    of JSON is not callable, [valueOf] gives no primitive, and the
    conversion is a TypeError. *)
Fixpoint ToString (v : data) : outcome string :=
  match v with
  | plain undefined => Return "undefined"
  | plain (str s) => Return s
  | null => Return "null"
  | boolean b => Return (if b then "true" else "false")
  | numeric x => Return (Number_toString x)
  | array elements =>
      (fix join (l : list data) : outcome string :=
         match l with
         | [] => Return ""
         | x :: r =>
             match (match x with
                    | plain undefined => Return ""
                    | null => Return ""
                    | _ => ToString x
                    end) with
             | Throw e => Throw e
             | Return next =>
                 match r with
                 | [] => Return next
                 | _ :: _ =>
                     match join r with
                     | Throw e => Throw e
                     | Return rest => Return (next +++ "," +++ rest)
                     end
                 end
             end
         end) elements
  | object properties =>
      if hasOwn "toString" properties
      then Throw (new_Error "Cannot convert object to primitive value")
      else Return "[object Object]"
  end.

End Conversion.

(** Reading a property of [undefined]. *)
Definition TypeError_undefined (property : string) : string :=
  "Cannot read properties of undefined (reading '" +++ property +++ "')".

(** Calling the method [method] of the string prototype on [receiver],
    written [expression] in the source, when [receiver] is no string:
    [undefined] and [null] have no properties, and no other value of JSON
    has a function under that name. *)
Definition TypeError_no_method (expression method : string) (receiver : data)
  : string :=
  match receiver with
  | plain undefined => TypeError_undefined method
  | null => "Cannot read properties of null (reading '" +++ method +++ "')"
  | _ => expression +++ "." +++ method +++ " is not a function"
  end.

(* ================================================================== *)
(** ** The text layout: [createTextSvg] *)

(** [escapeXml], the five replacements in the order of the source. *)
Definition escapeXml (text : string) : string :=
  Str.replaceAll "'"%char "&apos;"
    (Str.replaceAll (ascii_of_nat 34) "&quot;"
       (Str.replaceAll ">"%char "&gt;"
          (Str.replaceAll "<"%char "&lt;"
             (Str.replaceAll "&"%char "&amp;" text)))).

Definition headerFontSize (width : number) : number :=
  Num.Math_round (Num.mul width Num.lit_0_06).

Definition promoFontSize (width : number) : number :=
  Num.Math_round (Num.mul width Num.lit_0_04).

(** The body of the [forEach] callback of [wrapText], on the pair of the
    local variables [lines] and [currentLine]. *)
Definition wrapWord (maxChars : number) (st : list string * string)
    (word : string) : list string * string :=
  let (lines, currentLine) := st in
  if Num.length_gt (String.length (currentLine +++ word)) maxChars then
    (if Str.nonempty currentLine then lines ++ [Str.trim currentLine] else lines,
     word +++ " ")
  else
    (lines, currentLine +++ word +++ " ").

(** [wrapText] from the loop on: the [forEach] and the last push. *)
Definition wrapWords (maxChars : number) (words : list string) : list string :=
  let (lines, currentLine) := fold_left (wrapWord maxChars) words ([], "") in
  if Str.nonempty currentLine then lines ++ [Str.trim currentLine] else lines.

Definition maxCharsOf (maxWidth fontSize : number) : number :=
  let charWidth := Num.mul fontSize Num.lit_0_6 in
  Num.Math_floor (Num.div maxWidth charWidth).

Definition wrapText (text : string) (maxWidth fontSize : number) : list string :=
  let words := Str.split text in
  wrapWords (maxCharsOf maxWidth fontSize) words.

(** The last push of [wrapText], on the state of the loop. *)
Definition finish (st : list string * string) : list string :=
  if Str.nonempty (snd st) then fst st ++ [Str.trim (snd st)] else fst st.

(** Between two words [currentLine] is empty or ends with the space that
    follows a word. *)
Definition line_ok (cur : string) : Prop :=
  cur = "" \/ exists x, cur = x +++ " ".

(** A [Buffer]: a sequence of bytes. *)
Definition Buffer : Type := string.

(** [Buffer.from(s)]: the UTF-8 encoding of the code units of [s]. *)
Fixpoint Buffer_from (s : string) : Buffer :=
  match s with
  | "" => ""
  | String c r =>
      let n := N_of_ascii c in
      if (n <? 128)%N then String c (Buffer_from r)
      else String (ascii_of_N (192 + n / 64))
             (String (ascii_of_N (128 + n mod 64)) (Buffer_from r))
  end.

Section TextLayout.

(** [Number::toString], as a template literal applies it to a number. It
    belongs to the language runtime. *)
Variable Number_toString : number -> string.

Definition headerX (width : number) : number := Num.div width Num.lit_2.
Definition headerY (height : number) : number := Num.mul height Num.lit_0_3.
Definition promoX (width : number) : number := Num.div width Num.lit_2.
Definition promoY (height : number) : number := Num.mul height Num.lit_0_6.
Definition lineHeight (width : number) : number :=
  Num.mul (promoFontSize width) Num.lit_1_3.

(** The promo lines of the layout: [text.split] of what is no string is
    a TypeError. *)
Definition promoLines (promoText : data) (width : number) : outcome (list string) :=
  match promoText with
  | plain (str text) =>
      Return (wrapText text (Num.mul width Num.lit_0_8) (promoFontSize width))
  | _ => Throw (new_Error (TypeError_no_method "text" "split" promoText))
  end.

(** [escapeXml] inside the template literal. *)
Definition escapeXml_value (text : data) : outcome string :=
  match text with
  | plain (str s) => Return (escapeXml s)
  | _ => Throw (new_Error (TypeError_no_method "text" "replace" text))
  end.

(** One element of [promoLines.map(...)]. *)
Definition promoTextElement (width height : number) (line : string) (index : nat) : string :=
  Str.nl +++
  "          <text x=" +++ Str.dq +++ Number_toString (promoX width) +++ Str.dq
    +++ " y=" +++ Str.dq
    +++ Number_toString
          (Num.add (promoY height)
             (Num.mul (Num.ofZ (Z.of_nat index)) (lineHeight width)))
    +++ Str.dq +++ " class=" +++ Str.dq +++ "promo" +++ Str.dq +++ ">" +++ Str.nl +++
  "            " +++ escapeXml line +++ Str.nl +++
  "          </text>" +++ Str.nl +++
  "        ".

(** [arr.map((line, index) => f line index)] *)
Fixpoint mapi_from {A B : Type} (f : A -> nat -> B) (index : nat) (l : list A) : list B :=
  match l with
  | [] => []
  | x :: r => f x index :: mapi_from f (S index) r
  end.

Definition svgText (header : string) (lines : list string) (width height : number) : string :=
  Str.joinWith Str.nl
    [ "";
      "      <svg width=" +++ Str.dq +++ Number_toString width +++ Str.dq
        +++ " height=" +++ Str.dq +++ Number_toString height +++ Str.dq
        +++ " xmlns=" +++ Str.dq +++ "http://www.w3.org/2000/svg" +++ Str.dq +++ ">";
      "        <defs>";
      "          <style>";
      "            @import url('https://fonts.googleapis.com/css2?family=Inter:wght@400;700&amp;display=swap');";
      "            .header { ";
      "              fill: #1a1a1a; ";
      "              font-size: " +++ Number_toString (headerFontSize width) +++ "px; ";
      "              font-weight: 700; ";
      "              font-family: 'Inter', Arial, sans-serif;";
      "              text-anchor: middle;";
      "            }";
      "            .promo { ";
      "              fill: #666666; ";
      "              font-size: " +++ Number_toString (promoFontSize width) +++ "px; ";
      "              font-weight: 400;";
      "              font-family: 'Inter', Arial, sans-serif;";
      "              text-anchor: middle;";
      "            }";
      "            .shadow {";
      "              fill: rgba(0,0,0,0.3);";
      "              filter: blur(2px);";
      "            }";
      "          </style>";
      "        </defs>";
      "        ";
      "        <!-- Header with shadow -->";
      "        <text x=" +++ Str.dq
        +++ Number_toString (Num.add (headerX width) Num.lit_2) +++ Str.dq
        +++ " y=" +++ Str.dq
        +++ Number_toString (Num.add (headerY height) Num.lit_2) +++ Str.dq
        +++ " class=" +++ Str.dq +++ "header shadow" +++ Str.dq +++ ">";
      "          " +++ header;
      "        </text>";
      "        <text x=" +++ Str.dq +++ Number_toString (headerX width) +++ Str.dq
        +++ " y=" +++ Str.dq +++ Number_toString (headerY height) +++ Str.dq
        +++ " class=" +++ Str.dq +++ "header" +++ Str.dq +++ ">";
      "          " +++ header;
      "        </text>";
      "        ";
      "        <!-- Promo text with multiple lines -->";
      "        " +++ Str.join (mapi_from (promoTextElement width height) 0 lines);
      "      </svg>";
      "    " ].

(** [createTextSvg(headerText, promoText, width, height)]. The promo is
    wrapped before the template literal reads the header. *)
Definition createTextSvg (headerText promoText : data) (width height : number)
  : outcome Buffer :=
  match promoLines promoText width with
  | Throw m => Throw m
  | Return lines =>
      match escapeXml_value headerText with
      | Throw m => Throw m
      | Return header => Return (Buffer_from (svgText header lines width height))
      end
  end.

End TextLayout.

(* ================================================================== *)
(** ** The template table *)

Record TemplateConfig : Type := { nodeId : string }.

(** What a property read on an object literal yields: an own entry, a
    member inherited from [Object.prototype] (a function, or for
    [__proto__] the prototype object itself), or [undefined]. *)
Inductive property : Type :=
| Own (config : TemplateConfig)
| Inherited (name : string)
| Absent.

(** The property names every object literal inherits. *)
Definition Object_prototype_keys : list string :=
  [ "constructor"; "__defineGetter__"; "__defineSetter__"; "hasOwnProperty";
    "__lookupGetter__"; "__lookupSetter__"; "isPrototypeOf";
    "propertyIsEnumerable"; "toString"; "valueOf"; "__proto__";
    "toLocaleString" ].

Definition table : Type := list (string * TemplateConfig).

Fixpoint own (t : table) (key : string) : option TemplateConfig :=
  match t with
  | [] => None
  | (k, c) :: r => if String.eqb k key then Some c else own r key
  end.

(** [t[key]]: own properties first, then the prototype. *)
Definition get (t : table) (key : string) : property :=
  match own t key with
  | Some c => Own c
  | None =>
      if existsb (String.eqb key) Object_prototype_keys then Inherited key
      else Absent
  end.

(** Objects and functions are truthy, [undefined] is not. *)
Definition property_truthy (p : property) : bool :=
  match p with
  | Absent => false
  | _ => true
  end.

Definition TEMPLATE_CONFIG : table :=
  [ ("default", {| nodeId := "1:14" |});
    ("sale", {| nodeId := "1:14" |}) ].

(** [t[templateType] || t.default] *)
Definition resolve (t : table) (templateType : string) : property :=
  let p := get t templateType in
  if property_truthy p then p else get t "default".

(** [config.nodeId] *)
Definition nodeId_of (config : property) : outcome value :=
  match config with
  | Own c => Return (str (nodeId c))
  | Inherited _ => Return undefined
  | Absent => Throw (new_Error (TypeError_undefined "nodeId"))
  end.

(* ================================================================== *)
(** ** Effects *)

(** The [catch] block that reports. *)
Inductive step : Type :=
| ExportStep
| OverlayStep
| UploadStep
| CardStep (headerText : data)
| RequestStep.

Inductive event : Type :=
| EvExport (nodeId : value) (scale : number)
| EvDownload (url : string)
| EvMetadata
| EvComposite (image svg : Buffer)
| EvWriteFile (name : string)
| EvUpload (filename : string)
| EvError (at_ : step) (message : string)
| EvResponse (data : string)
| EvDelay (ms : Z).

(** The outside of the process. An oracle takes the world and answers
    with the world after the call. *)
Record Services (World : Type) : Type := {
  (** [axios.get] on the images endpoint, then [response.data.images[nodeId]] *)
  figma_images : value -> number -> World -> outcome value * World;
  (** [axios.get(imageUrl, { responseType: 'arraybuffer' })] *)
  download : string -> World -> outcome Buffer * World;
  (** [sharp(buffer).metadata()]: width and height *)
  sharp_metadata : Buffer -> World -> outcome (Z * Z) * World;
  (** [sharp(buffer).composite([...]).png({...}).toBuffer()] *)
  sharp_composite : Buffer -> Buffer -> World -> outcome Buffer * World;
  fs_writeFile : string -> Buffer -> World -> outcome unit * World;
  (** [axios.post] to the upload endpoint of the cloud, then
      [response.data.secure_url] *)
  cloudinary_post : string -> Buffer -> string -> World -> outcome value * World;
  Date_now : World -> Z * World;
  (** the world after a timer of the given milliseconds has fired *)
  setTimeout : Z -> World -> World;
  Number_toString : number -> string;
  Date_toISOString : Z -> string;
  (** [process.env.CLOUDINARY_URL] and [process.env.NODE_ENV] *)
  CLOUDINARY_URL : value;
  NODE_ENV : value;
  (** the three groups of [/cloudinary:\/\/(\d+):([^@]+)@(.+)/] *)
  cloudinary_match : string -> option (string * string * string)
}.
Arguments figma_images {World}.
Arguments download {World}.
Arguments sharp_metadata {World}.
Arguments sharp_composite {World}.
Arguments fs_writeFile {World}.
Arguments cloudinary_post {World}.
Arguments Date_now {World}.
Arguments setTimeout {World}.
Arguments Number_toString {World}.
Arguments Date_toISOString {World}.
Arguments CLOUDINARY_URL {World}.
Arguments NODE_ENV {World}.
Arguments cloudinary_match {World}.

Record State (World : Type) : Type := {
  world : World;
  trace : list event
}.
Arguments world {World}.
Arguments trace {World}.
Arguments Build_State {World}.

(** An [async] computation: from a state to an outcome and a state. *)
Definition M (World A : Type) : Type := State World -> outcome A * State World.

Definition ret {World A : Type} (a : A) : M World A :=
  fun s => (Return a, s).

(** [throw new Error(message)] *)
Definition throw {World A : Type} (message : string) : M World A :=
  fun s => (Throw (new_Error message), s).

(** [throw error] *)
Definition rethrow {World A : Type} (error : Error.t) : M World A :=
  fun s => (Throw error, s).

Definition bind {World A B : Type} (m : M World A) (k : A -> M World B) : M World B :=
  fun s =>
    match m s with
    | (Return a, s') => k a s'
    | (Throw e, s') => (Throw e, s')
    end.

(** [try { m } catch (error) { handler error }] *)
Definition try_catch {World A : Type} (m : M World A) (handler : Error.t -> M World A)
  : M World A :=
  fun s =>
    match m s with
    | (Return a, s') => (Return a, s')
    | (Throw e, s') => handler e s'
    end.

Definition emit {World : Type} (e : event) : M World unit :=
  fun s => (Return tt, {| world := world s; trace := trace s ++ [e] |}).

(** An oracle call that answers or throws. *)
Definition call {World A : Type} (f : World -> outcome A * World) : M World A :=
  fun s =>
    let (r, w) := f (world s) in
    (r, {| world := w; trace := trace s |}).

(** An oracle call that cannot throw. *)
Definition ask {World A : Type} (f : World -> A * World) : M World A :=
  fun s =>
    let (a, w) := f (world s) in
    (Return a, {| world := w; trace := trace s |}).

Definition lift {World A : Type} (o : outcome A) : M World A :=
  fun s => (o, s).

Definition when {World : Type} (b : bool) (m : M World unit) : M World unit :=
  if b then m else ret tt.

Notation "x <- m ;; k" := (bind m (fun x => k))
  (at level 61, m at next level, right associativity).
Notation "m ;;; k" := (bind m (fun _ => k))
  (at level 61, right associativity).

(* ================================================================== *)
(** ** The card renderer and the batch loop *)

Module Card.
(** An input record, with the synonyms of its fields: what the six
    properties that are read of it hold. *)
Record t : Type := {
  header : data;
  Header : data;
  promo : data;
  PromoText : data;
  promo_text : data;
  template : data
}.
End Card.

(** An element of the array of records. [null] has no properties. Of any
    other value the six properties are read: they are all [undefined] for a
    number, a boolean, a string and an array. *)
Inductive item : Type :=
| null_item
| record (card : Card.t).

(** [card.header], the first property read of an element. *)
Definition properties_of (x : item) : outcome Card.t :=
  match x with
  | null_item => Throw (new_Error "Cannot read properties of null (reading 'header')")
  | record card => Return card
  end.

(** The object [processCard] returns. A key the object literal does not
    have is [None]; [imageUrl] holds whatever the image host answered as
    [secure_url]. *)
Record CardResult : Type := {
  success : bool;
  header : data;
  promo : data;
  template : data;
  imageUrl : option value;
  error : option string;
  timestamp : string
}.

Section Pipeline.

Context {World : Type} (svc : Services World).

(** [catch (error) { console.error(..., error.message); throw error; }] *)
Definition report_and_rethrow {A : Type} (at_ : step) (error : Error.t) : M World A :=
  emit (EvError at_ (Error.message error)) ;;; rethrow error.

Definition exportFigmaComponent (nodeId : value) (scale : number) : M World Buffer :=
  try_catch
    (emit (EvExport nodeId scale) ;;;
     entry <- call (figma_images svc nodeId scale) ;;
     match entry with
     | str imageUrl =>
         if Str.nonempty imageUrl then
           emit (EvDownload imageUrl) ;;;
           data <- call (download svc imageUrl) ;;
           ret data
         else throw "No image URL returned from Figma"
     | undefined => throw "No image URL returned from Figma"
     end)
    (report_and_rethrow ExportStep).

Definition addTextOverlay (imageBuffer : Buffer) (headerText promoText : data)
    (templateType : data) : M World Buffer :=
  try_catch
    (emit EvMetadata ;;;
     metadata <- call (sharp_metadata svc imageBuffer) ;;
     svgBuffer <- lift (createTextSvg (Number_toString svc) headerText promoText
                          (Num.ofZ (fst metadata)) (Num.ofZ (snd metadata))) ;;
     emit (EvComposite imageBuffer svgBuffer) ;;;
     processedImage <- call (sharp_composite svc imageBuffer svgBuffer) ;;
     ret processedImage)
    (report_and_rethrow OverlayStep).

Definition uploadToCloudinary (imageBuffer : Buffer) (filename : string) : M World value :=
  try_catch
    (match CLOUDINARY_URL svc with
     | undefined => throw (TypeError_undefined "match")
     | str url =>
         match cloudinary_match svc url with
         | None => throw "Invalid CLOUDINARY_URL format"
         | Some (_, _, cloudName) =>
             emit (EvUpload (filename +++ ".png")) ;;;
             secure_url <- call (cloudinary_post svc cloudName imageBuffer
                                   (filename +++ ".png")) ;;
             ret secure_url
         end
     end)
    (fun error =>
       emit (EvError UploadStep (Error.message error)) ;;;
       match Error.response error with
       | Some data => emit (EvResponse data)
       | None => ret tt
       end ;;;
       rethrow error).

(** [process.env.NODE_ENV === 'development'] *)
Definition development : bool :=
  match NODE_ENV svc with
  | str s => String.eqb s "development"
  | undefined => false
  end.

(** [headerText.replace(/\s+/g, '_').substring(0, 20)] *)
Definition slug (headerText : data) : outcome string :=
  match headerText with
  | plain (str s) => Return (String.substring 0 20 (Str.replaceWsRuns "_" s))
  | _ => Throw (new_Error (TypeError_no_method "headerText" "replace" headerText))
  end.

(** The default value of the third parameter. *)
Definition templateType_or_default (templateType : data) : data :=
  match templateType with
  | plain undefined => str "default"
  | _ => templateType
  end.

(** [TEMPLATE_CONFIG[templateType] || TEMPLATE_CONFIG.default], and the
    [nodeId] of that configuration. The property key is the template
    converted to a string. *)
Definition nodeOf (templateType : data) : outcome value :=
  match ToString (Number_toString svc) templateType with
  | Throw error => Throw error
  | Return key =>
      let config := resolve TEMPLATE_CONFIG key in
      nodeId_of config
  end.

(** [processCard]. The first statement of the [try] and the first of the
    [catch] print the header inside a template literal. *)
Definition processCard (headerText promoText : data) (templateType_arg : data)
  : M World CardResult :=
  let templateType := templateType_or_default templateType_arg in
  try_catch
    (lift (ToString (Number_toString svc) headerText) ;;;
     node <- lift (nodeOf templateType) ;;
     baseImageBuffer <- exportFigmaComponent node Num.lit_2 ;;
     when development
       (emit (EvWriteFile "debug_base.png") ;;;
        call (fs_writeFile svc "debug_base.png" baseImageBuffer)) ;;;
     processedImage <- addTextOverlay baseImageBuffer headerText promoText templateType ;;
     when development
       (emit (EvWriteFile "debug_processed.png") ;;;
        call (fs_writeFile svc "debug_processed.png" processedImage)) ;;;
     now <- ask (Date_now svc) ;;
     part <- lift (slug headerText) ;;
     let filename := "card_" +++ Str.ofZ now +++ "_" +++ part in
     url <- uploadToCloudinary processedImage filename ;;
     date <- ask (Date_now svc) ;;
     ret {| success := true;
            header := headerText;
            promo := promoText;
            template := templateType;
            imageUrl := Some url;
            error := None;
            timestamp := Date_toISOString svc date |})
    (fun error =>
       lift (ToString (Number_toString svc) headerText) ;;;
       emit (EvError (CardStep headerText) (Error.message error)) ;;;
       date <- ask (Date_now svc) ;;
       ret {| success := false;
              header := headerText;
              promo := promoText;
              template := templateType;
              imageUrl := None;
              error := Some (Error.message error);
              timestamp := Date_toISOString svc date |}).

(** [await new Promise(resolve => setTimeout(resolve, ms))] *)
Definition delay (ms : Z) : M World unit :=
  fun s => (Return tt, {| world := setTimeout svc ms (world s);
                          trace := trace s ++ [EvDelay ms] |}).

(** The arguments [processBatch] hands to [processCard]. *)
Definition headerOf (card : Card.t) : data :=
  js_or (Card.header card) (Card.Header card).

Definition promoOf (card : Card.t) : data :=
  js_or (js_or (Card.promo card) (Card.PromoText card)) (Card.promo_text card).

Definition templateOf (card : Card.t) : data :=
  js_or (Card.template card) (str "default").

(** The [for] loop of [processBatch] at index [i]: [rest] is [cards] from
    [i] on, [len] is [cards.length]. *)
Fixpoint batchLoop (len i : Z) (rest : list item) (results : list CardResult)
  : M World (list CardResult) :=
  match rest with
  | [] => ret results
  | element :: rest' =>
      card <- lift (properties_of element) ;;
      result <- processCard (headerOf card) (promoOf card) (templateOf card) ;;
      let results := results ++ [result] in
      when (i <? len - 1) (delay 1000) ;;;
      batchLoop len (i + 1) rest' results
  end.

Definition processBatch (cards : list item) : M World (list CardResult) :=
  batchLoop (Z.of_nat (List.length cards)) 0 cards [].

End Pipeline.

(* ================================================================== *)
(** ** A scripted outside, for running the pipeline *)

Module Demo.

(** The world is a clock in milliseconds. *)
Definition World : Type := Z.

(** Prints the integer part of a finite number. *)
Definition print (x : number) : string :=
  match x with
  | S754_finite s m e =>
      Str.ofZ (if 0 <=? e then cond_Zopp s (Zpos m) * 2 ^ e
               else cond_Zopp s (Zpos m) / 2 ^ (- e))
  | S754_zero _ => "0"
  | S754_infinity s => if s then "-Infinity" else "Infinity"
  | S754_nan => "NaN"
  end.

(** The design tool answers until the clock reaches [deadline]; the image
    host accepts uploads when [accepts] is set, and answers 401 otherwise. *)
Definition services (deadline : Z) (accepts : bool) : Services World := {|
  figma_images := fun nodeId _ w =>
    (if w <? deadline then
       match nodeId with
       | str id => Return (str ("https://figma.example/" +++ id))
       | undefined => Return undefined
       end
     else Throw (new_Error "timeout of 30000ms exceeded"), w + 5);
  download := fun url w => (Return ("PNG:" +++ url), w + 5);
  sharp_metadata := fun _ w => (Return (1000, 500), w);
  sharp_composite := fun image svg w => (Return (image +++ svg), w + 1);
  fs_writeFile := fun _ _ w => (Return tt, w);
  cloudinary_post := fun cloudName _ filename w =>
    (if accepts
     then Return (str ("https://res.example/" +++ cloudName +++ "/" +++ filename))
     else Throw {| Error.message := "Request failed with status code 401";
                   Error.response := Some "{ error: { message: 'Unknown API key' } }" |},
     w + 5);
  Date_now := fun w => (w, w);
  setTimeout := fun ms w => w + ms;
  Number_toString := print;
  Date_toISOString := Str.ofZ;
  CLOUDINARY_URL := str "cloudinary://1:s@demo";
  NODE_ENV := undefined;
  cloudinary_match := fun _ => Some ("1", "s", "demo")
|}.

Definition start : State World := {| world := 0; trace := [] |}.

(** A later state, after other work. *)
Definition later : State World := {| world := 4000; trace := [EvDelay 1000] |}.

Definition card (h p : string) : Card.t := {|
  Card.header := str h;
  Card.Header := undefined;
  Card.promo := str p;
  Card.PromoText := undefined;
  Card.promo_text := undefined;
  Card.template := undefined
|}.

(** A record that uses the synonyms, with empty [header] and [promo]. *)
Definition synonyms : Card.t := {|
  Card.header := str "";
  Card.Header := str "Summer Sale";
  Card.promo := str "";
  Card.PromoText := str "";
  Card.promo_text := str "50% off";
  Card.template := str "sale"
|}.

Definition two_cards : list item :=
  [ record (card "Summer Sale" "50% off all items!");
    record (card "New Arrivals" "Latest collection") ].

(** The object [{"toString": 1}]: its own [toString] is no function. *)
Definition no_string : data := object [ ("toString", numeric (Num.ofZ 1)) ].

(** A record with that object as its header, as the body
    [[{"header": {"toString": 1}, "promo": "50% off"}]] gives it. *)
Definition unprintable : Card.t := {|
  Card.header := no_string;
  Card.Header := undefined;
  Card.promo := str "50% off";
  Card.PromoText := undefined;
  Card.promo_text := undefined;
  Card.template := undefined
|}.

(** Three records, the second with the header that does not convert. *)
Definition three_cards : list item :=
  [ record (card "Summer Sale" "50% off all items!");
    record unprintable;
    record (card "New Arrivals" "Latest collection") ].

End Demo.

(* ================================================================== *)
(** ** Notions the statements use *)

Definition is_delay (e : event) : bool :=
  match e with
  | EvDelay _ => true
  | _ => false
  end.

Definition is_error (e : event) : bool :=
  match e with
  | EvError _ _ => true
  | _ => false
  end.

(** [sep] between every two neighbours of [l], and nowhere else. *)
Fixpoint between {A : Type} (sep : A) (l : list A) : list A :=
  match l with
  | [] => []
  | [x] => [x]
  | x :: r => x :: sep :: between sep r
  end.

Definition is_response (e : event) : bool :=
  match e with
  | EvResponse _ => true
  | _ => false
  end.

(** The events of a run that did not wait, and that reported no failure if
    it returned. *)
Definition quiet_run {A : Type} (o : outcome A) (evs : list event) : Prop :=
  Forall (fun e => is_delay e = false) evs /\
  match o with
  | Return _ => Forall (fun e => is_error e = false /\ is_response e = false) evs
  | Throw _ => True
  end.

(** A computation that only appends to the trace, and quietly. *)
Definition quiet {World A : Type} (m : M World A) : Prop :=
  forall s, exists evs,
    trace (snd (m s)) = trace s ++ evs /\ quiet_run (fst (m s)) evs.

(** A computation that only appends to the trace, and one whose first
    event is [e]. *)
Definition appends {World A : Type} (m : M World A) : Prop :=
  forall s, exists evs, trace (snd (m s)) = trace s ++ evs.

Definition starts_with {World A : Type} (e : event) (m : M World A) : Prop :=
  forall s, exists evs, trace (snd (m s)) = trace s ++ e :: evs.

(** What a computation returns, when it returns. *)
Definition returns {World A : Type} (m : M World A) (P : A -> Prop) : Prop :=
  forall s a s', m s = (Return a, s') -> P a.

(** The result of a card echoes the arguments. *)
Definition echoes (h p t : data) (r : CardResult) : Prop :=
  header r = h /\ promo r = p /\ template r = t.

(** A result of the success branch, and one of the failure branch. *)
Definition succeeded (r : CardResult) : Prop :=
  success r = true /\ (exists url, imageUrl r = Some url) /\ error r = None.

Definition failed (r : CardResult) : Prop :=
  success r = false /\ imageUrl r = None /\ (exists message, error r = Some message).

(** [evs] are the events of a run of [processCard] on the record [card]. *)
Definition card_events {World : Type} (svc : Services World) (card : Card.t)
    (evs : list event) : Prop :=
  exists s0,
    trace (snd (processCard svc (headerOf card) (promoOf card) (templateOf card) s0))
    = trace s0 ++ evs.

(** The value converts to a string: a template literal prints it. *)
Definition converts {World : Type} (svc : Services World) (v : data) : Prop :=
  exists text, ToString (Number_toString svc) v = Return text.

(** An element of a batch that is a record with a header that converts to
    a string. *)
Definition printable {World : Type} (svc : Services World) (x : item) : Prop :=
  exists card, x = record card /\ converts svc (headerOf card).

(** A printable record with a template that converts to a string, the key
    of its configuration. *)
Definition requestable {World : Type} (svc : Services World) (x : item) : Prop :=
  exists card,
    x = record card /\ converts svc (headerOf card) /\ converts svc (templateOf card).

(** The state after a timer of [ms] milliseconds has fired. *)
Definition after_timer {World : Type} (svc : Services World) (ms : Z)
    (s : State World) : State World :=
  {| world := setTimeout svc ms (world s); trace := trace s ++ [EvDelay ms] |}.

(** The records are rendered one after the other, from the state [s] to
    the state [s'], and after each of them the timer of [ms] milliseconds
    fires: the next record starts in the world in which the timer has
    fired. *)
Inductive rendered_and_waited {World : Type} (svc : Services World) (ms : Z)
  : list item -> State World -> list CardResult -> State World -> Prop :=
| waited_none (s : State World) : rendered_and_waited svc ms [] s [] s
| waited_more (card : Card.t) (rest : list item) (s s1 s' : State World)
    (r : CardResult) (rs : list CardResult) :
    processCard svc (headerOf card) (promoOf card) (templateOf card) s
    = (Return r, s1) ->
    rendered_and_waited svc ms rest (after_timer svc ms s1) rs s' ->
    rendered_and_waited svc ms (record card :: rest) s (r :: rs) s'.

(** [N / 2^n] rounded to the nearest integer, ties to the even one: the
    rounding of binary64 when [n] bits of a mantissa are dropped. *)
Definition rne (N n : Z) : Z :=
  let q := N / 2 ^ n in
  let rem := N mod 2 ^ n in
  if rem <? 2 ^ (n - 1) then q
  else if 2 ^ (n - 1) <? rem then q + 1
  else if Z.even q then q else q + 1.

(* ================================================================== *)
(** ** The rest of [hybrid_figma_api.js] *)

(** What [escapeXml] makes of one character. *)
Definition escapeChar (c : ascii) : string :=
  if Ascii.eqb c "&"%char then "&amp;"
  else if Ascii.eqb c "<"%char then "&lt;"
  else if Ascii.eqb c ">"%char then "&gt;"
  else if Ascii.eqb c (ascii_of_nat 34) then "&quot;"
  else if Ascii.eqb c "'"%char then "&apos;"
  else String c "".

(** One of the five characters [escapeXml] replaces. *)
Definition is_markup (c : ascii) : bool :=
  Ascii.eqb c "&"%char || Ascii.eqb c "<"%char || Ascii.eqb c ">"%char
  || Ascii.eqb c (ascii_of_nat 34) || Ascii.eqb c "'"%char.

(** [s.split('').every(p)] *)
Fixpoint every (p : ascii -> bool) (s : string) : bool :=
  match s with
  | "" => true
  | String c r => p c && every p r
  end.

(** The two counts at the end of [processBatch], which the server reports
    as [summary] with the [total]. *)
Record Summary : Type := {
  total : nat;
  successful : nat;
  failed_count : nat
}.

Definition summarize (results : list CardResult) : Summary := {|
  total := List.length results;
  successful := List.length (filter (fun r => success r) results);
  failed_count := List.length (filter (fun r => negb (success r)) results)
|}.

(** A node of the document of the design tool. A node without [children]
    and one with an empty array of them are walked alike. *)
Inductive Node : Type :=
| mkNode (id name type_ : string) (children : list Node).

Definition node_id (n : Node) : string := let (i, _, _, _) := n in i.
Definition node_name (n : Node) : string := let (_, m, _, _) := n in m.
Definition node_type (n : Node) : string := let (_, _, t, _) := n in t.
Definition node_children (n : Node) : list Node := let (_, _, _, c) := n in c.

(** An entry of the array [getFigmaFileStructure] returns. *)
Record Component : Type := {
  comp_id : string;
  comp_name : string;
  comp_type : string;
  comp_path : string
}.

(** [node.type === 'COMPONENT' || node.type === 'COMPONENT_SET'] *)
Definition is_component (n : Node) : bool :=
  String.eqb (node_type n) "COMPONENT" || String.eqb (node_type n) "COMPONENT_SET".

(** [findComponents(node, path)], with the array [components] it pushes to
    as an argument and a result. *)
Fixpoint findComponents (node : Node) (path : string) (components : list Component)
  : list Component :=
  match node with
  | mkNode id name type_ children =>
      let components :=
        if is_component node
        then components ++ [ {| comp_id := id; comp_name := name;
                                comp_type := type_; comp_path := path |} ]
        else components in
      (fix forEach (l : list Node) (components : list Component) : list Component :=
         match l with
         | [] => components
         | child :: r =>
             forEach r (findComponents child (path +++ "/" +++ name) components)
         end) children components
  end.

(** [response.data.document.children.forEach(page => findComponents(page,
    page.name))], from the empty array. *)
Definition collectComponents (pages : list Node) : list Component :=
  fold_left (fun components page => findComponents page (node_name page) components)
    pages [].

(** [n] is [top] or below it in the document; [ancestors] are the nodes
    from [top] down to the parent of [n]. *)
Inductive below : Node -> list Node -> Node -> Prop :=
| below_self (n : Node) : below n [] n
| below_child (n child parent : Node) (ancestors : list Node) :
    In child (node_children parent) -> below n ancestors child ->
    below n (parent :: ancestors) parent.

(** The path [findComponents] has built when it has come down from a call
    with [path] through [ancestors]. *)
Definition path_through (path : string) (ancestors : list Node) : string :=
  path +++ Str.join (map (fun a => "/" +++ node_name a) ancestors).

(** The entry of a node. *)
Definition entry_of (n : Node) (path : string) : Component :=
  {| comp_id := node_id n; comp_name := node_name n;
     comp_type := node_type n; comp_path := path |}.

(* ================================================================== *)
(** ** The front door: [hybrid_server.js] *)

(** [a === b] on values. *)
Definition value_eqb (a b : value) : bool :=
  match a, b with
  | undefined, undefined => true
  | str x, str y => String.eqb x y
  | _, _ => false
  end.

(** [authHeader && authHeader.split(' ')[1]] *)
Definition tokenOf (authHeader : value) : value :=
  match authHeader with
  | undefined => undefined
  | str h =>
      if Str.nonempty h then
        match nth_error (Str.split h) 1 with
        | Some t => str t
        | None => undefined
        end
      else str ""
  end.

(** [authenticateToken]: [true] when [next()] is called, [false] when the
    answer is 401. *)
Definition authenticateToken (AUTH_TOKEN authHeader : value) : bool :=
  if negb (truthy AUTH_TOKEN) then true
  else value_eqb (tokenOf authHeader) AUTH_TOKEN.

(** The field an item of a batch lacks. *)
Inductive field : Type := HeaderField | PromoField.

(** The validation loop of [/api/process] from index [i] on: the index and
    the field of the first 400, if there is one. Reading [item.header] of
    [null] throws. *)
Fixpoint validateFrom (i : Z) (items : list item) : outcome (option (Z * field)) :=
  match items with
  | [] => Return None
  | element :: rest =>
      match properties_of element with
      | Throw error => Throw error
      | Return item =>
          if negb (truthy (Card.header item)) && negb (truthy (Card.Header item))
          then Return (Some (i, HeaderField))
          else if negb (truthy (Card.promo item)) && negb (truthy (Card.PromoText item))
                  && negb (truthy (Card.promo_text item))
          then Return (Some (i, PromoField))
          else validateFrom (i + 1) rest
      end
  end.

Definition validate (items : list item) : outcome (option (Z * field)) :=
  validateFrom 0 items.

Definition missing_message (at_ : Z * field) : string :=
  "Item at index " +++ Str.ofZ (fst at_) +++ " is missing '"
  +++ match snd at_ with HeaderField => "header" | PromoField => "promo" end
  +++ "' field".

(** [req.body] after [express.json()]: an array of items, or something
    else. *)
Inductive body : Type :=
| NotAnArray
| Items (items : list item).

(** What a handler answers: the status and the fields of the JSON. *)
Inductive Reply : Type :=
| BadRequest (error : string)
| NotConfigured (error : string)
| Processed (itemsProcessed : nat) (duration : Z) (timestamp : string)
    (results : list CardResult) (summary : Summary)
| TestCompleted (result : CardResult)
| ServerError (error : string).

Definition status (r : Reply) : Z :=
  match r with
  | BadRequest _ => 400
  | NotConfigured _ => 500
  | Processed _ _ _ _ _ => 200
  | TestCompleted _ => 200
  | ServerError _ => 500
  end.

Section Server.

Context {World : Type} (svc : Services World).

(** [process.env.FIGMA_TOKEN] and [process.env.CLOUDINARY_URL] when the
    request is handled. *)
Variables (env_FIGMA_TOKEN env_CLOUDINARY_URL : value).

(** [JSON.stringify(results, null, 2)] and the path of
    [image_results.json]. *)
Variable JSON_stringify : list CardResult -> string.
Variable results_path : string.

(** The handler of [POST /api/process], after [authenticateToken]. *)
Definition processHandler (request : body) : M World Reply :=
  startTime <- ask (Date_now svc) ;;
  try_catch
    (match request with
     | NotAnArray => ret (BadRequest "Request body must be an array of objects")
     | Items items =>
         checked <- lift (validate items) ;;
         match checked with
         | Some missing => ret (BadRequest (missing_message missing))
         | None =>
             if negb (truthy env_FIGMA_TOKEN) then
               ret (NotConfigured "FIGMA_TOKEN not configured. Get it from Figma settings.")
             else if negb (truthy env_CLOUDINARY_URL) then
               ret (NotConfigured "CLOUDINARY_URL not configured")
             else
               results <- processBatch svc items ;;
               emit (EvWriteFile results_path) ;;;
               call (fs_writeFile svc results_path (JSON_stringify results)) ;;;
               now <- ask (Date_now svc) ;;
               let duration := now - startTime in
               date <- ask (Date_now svc) ;;
               ret (Processed (List.length items) duration
                      (Date_toISOString svc date) results (summarize results))
         end
     end)
    (fun error =>
       emit (EvError RequestStep (Error.message error)) ;;;
       now <- ask (Date_now svc) ;;
       date <- ask (Date_now svc) ;;
       ret (ServerError (Error.message error))).

(** [const { header = 'Test Header', promo = 'Test Promo Text' } = req.body]:
    the default stands for a property that is [undefined]. *)
Definition or_default (v : data) (default : string) : data :=
  match v with
  | plain undefined => str default
  | _ => v
  end.

(** The handler of [POST /api/test], on the [header] and the [promo] of
    the body. *)
Definition testHandler (header_ promo_ : data) : M World Reply :=
  try_catch
    (result <- processCard svc (or_default header_ "Test Header")
                 (or_default promo_ "Test Promo Text") undefined ;;
     ret (TestCompleted result))
    (fun error => ret (ServerError (Error.message error))).

End Server.

(* ================================================================== *)
(** ** More notions the statements use *)

Definition is_upload (e : event) : bool :=
  match e with
  | EvUpload _ => true
  | _ => false
  end.

Definition is_export (e : event) : bool :=
  match e with
  | EvExport _ _ => true
  | _ => false
  end.

Definition is_write (e : event) : bool :=
  match e with
  | EvWriteFile _ => true
  | _ => false
  end.

(** The message of a report, if the event is one. *)
Definition reported (e : event) : option string :=
  match e with
  | EvError _ message => Some message
  | _ => None
  end.

(** A computation that only appends events that satisfy [P]. *)
Definition emits_only {World A : Type} (P : event -> bool) (m : M World A) : Prop :=
  forall s, exists evs,
    trace (snd (m s)) = trace s ++ evs /\ Forall (fun e => P e = true) evs.

(** A computation that always throws. *)
Definition never_returns {World A : Type} (m : M World A) : Prop :=
  forall s, exists error, fst (m s) = Throw error.

(** A computation whose reports of an error all carry the message of the
    error it throws, and that reports nothing when it returns. *)
Definition reports_what_it_throws {World A : Type} (m : M World A) : Prop :=
  forall s, exists evs,
    trace (snd (m s)) = trace s ++ evs /\
    match fst (m s) with
    | Return _ => Forall (fun e => is_error e = false /\ is_response e = false) evs
    | Throw error =>
        Forall (fun e => reported e = None \/ reported e = Some (Error.message error))
          evs
    end.

(** The first event is [e] and the others satisfy [P]. *)
Definition starts_then {World A : Type} (e : event) (P : event -> bool)
    (m : M World A) : Prop :=
  forall s, exists evs,
    trace (snd (m s)) = trace s ++ e :: evs /\ Forall (fun x => P x = true) evs.

(** The scripted outside of [Demo] with no [CLOUDINARY_URL] in the
    environment. *)
Definition unconfigured (deadline : Z) : Services Demo.World := {|
  figma_images := figma_images (Demo.services deadline true);
  download := download (Demo.services deadline true);
  sharp_metadata := sharp_metadata (Demo.services deadline true);
  sharp_composite := sharp_composite (Demo.services deadline true);
  fs_writeFile := fs_writeFile (Demo.services deadline true);
  cloudinary_post := cloudinary_post (Demo.services deadline true);
  Date_now := Date_now (Demo.services deadline true);
  setTimeout := setTimeout (Demo.services deadline true);
  Number_toString := Number_toString (Demo.services deadline true);
  Date_toISOString := Date_toISOString (Demo.services deadline true);
  CLOUDINARY_URL := undefined;
  NODE_ENV := NODE_ENV (Demo.services deadline true);
  cloudinary_match := cloudinary_match (Demo.services deadline true)
|}.

(** A record that gives the renderer a header and a promo. *)
Definition usable (item : Card.t) : Prop :=
  truthy (headerOf item) = true /\ truthy (promoOf item) = true.

(** An element of the array that is such a record. *)
Definition usable_item (x : item) : Prop :=
  exists card, x = record card /\ usable card.

(** The items with the space [wrapText] appends to each. *)
Fixpoint spaced (ws : list string) : string :=
  match ws with
  | [] => ""
  | w :: r => w +++ " " +++ spaced r
  end.

(** A line is short enough, or it is one item of the text. *)
Definition line_fits (mc : number) (all : list string) (l : string) : Prop :=
  Num.length_gt (String.length l) mc = false \/
  exists w, In w all /\ l = Str.trim w.

Definition current_fits (mc : number) (all : list string) (cur : string) : Prop :=
  cur = "" \/
  exists x, cur = x +++ " " /\
            (Num.length_gt (String.length x) mc = false \/ In x all).

(* ================================================================== *)
(** ** Checks of the embedding on concrete inputs *)

(** The sample of the source: a canvas 1000 wide holds 33 characters of
    the promo font on a line. *)
Example wrapText_sample :
  wrapText "50% off all items! Limited time offer on selected products."
    (Num.mul (Num.ofZ 1000) Num.lit_0_8) (promoFontSize (Num.ofZ 1000))
  = ["50% off all items! Limited time"; "offer on selected products."].
Proof. vm_compute. reflexivity. Qed.

Example maxChars_sample :
  maxCharsOf (Num.mul (Num.ofZ 1000) Num.lit_0_8) (promoFontSize (Num.ofZ 1000))
  = Num.ofZ 33.
Proof. vm_compute. reflexivity. Qed.

(** A canvas too narrow for a font: [0 / 0] is NaN and [8 / 0] is
    [Infinity]; no line is ever too long then. *)
Example maxChars_narrow :
  maxCharsOf (Num.mul (Num.ofZ 0) Num.lit_0_8) (promoFontSize (Num.ofZ 0)) = S754_nan /\
  maxCharsOf (Num.mul (Num.ofZ 10) Num.lit_0_8) (promoFontSize (Num.ofZ 10))
  = S754_infinity false.
Proof. split; vm_compute; reflexivity. Qed.

(** [length_gt] is the comparison of binary64 on every length up to 300,
    for limits of each kind. *)
Example length_gt_is_SFltb :
  forallb
    (fun x =>
       forallb
         (fun n => Bool.eqb (Num.length_gt n x)
                     (SFltb x (Num.ofZ (Z.of_nat n))))
         (seq 0 301))
    [ Num.ofZ 33; Num.ofZ 0; Num.ofZ 1; Num.ofZ 300; Num.ofZ (-4);
      Num.mul (Num.ofZ 67) Num.lit_0_6; Num.lit_0_04;
      S754_zero true; S754_nan; S754_infinity false; S754_infinity true ]
  = true.
Proof. vm_compute. reflexivity. Qed.

Example escapeXml_sample :
  escapeXml "Tom & Jerry's <b>" = "Tom &amp; Jerry&apos;s &lt;b&gt;".
Proof. reflexivity. Qed.

Example split_sample : Str.split " a  b " = [""; "a"; ""; "b"; ""].
Proof. reflexivity. Qed.

(* ================================================================== *)
(** ** Strings: lemmas *)

Module StrFacts.
Import Str.

Lemma append_nil_r (s : string) : s +++ "" = s.
Proof. induction s as [|c s IH]; simpl; congruence. Qed.

Lemma append_assoc (a b c : string) : (a +++ b) +++ c = a +++ b +++ c.
Proof. induction a as [|x a IH]; simpl; congruence. Qed.

Lemma length_append (a b : string) :
  String.length (a +++ b) = (String.length a + String.length b)%nat.
Proof. induction a as [|x a IH]; simpl; congruence. Qed.

Lemma nonempty_append_char (s : string) (c : ascii) :
  nonempty (s +++ String c "") = true.
Proof. destruct s; reflexivity. Qed.

Lemma is_ws_space : is_ws space = true.
Proof. reflexivity. Qed.

(** [split] never yields the empty array. *)
Lemma split_cons (s : string) : exists w ws, split s = w :: ws.
Proof.
  induction s as [|c r IH]; simpl.
  - eauto.
  - destruct (Ascii.eqb c space); [eauto|].
    destruct IH as (w & ws & ->). eauto.
Qed.

Lemma split_no_space (s : string) : no_space s = true -> split s = [s].
Proof.
  induction s as [|c r IH]; simpl; [reflexivity|].
  destruct (Ascii.eqb c space); simpl; [discriminate|].
  intros H. rewrite (IH H). reflexivity.
Qed.

(** *** [trim] *)

Lemma trimEnd_ws_end (s : string) (c : ascii) :
  is_ws c = true -> trimEnd (s +++ String c "") = trimEnd s.
Proof.
  intros Hc. induction s as [|d r IH]; simpl.
  - rewrite Hc. reflexivity.
  - rewrite IH. reflexivity.
Qed.

Lemma trim_ws_end (s : string) (c : ascii) :
  is_ws c = true -> trim (s +++ String c "") = trim s.
Proof.
  intros Hc. unfold trim. induction s as [|d r IH].
  - simpl. rewrite Hc. reflexivity.
  - simpl. destruct (is_ws d); [exact IH|].
    exact (trimEnd_ws_end (String d r) c Hc).
Qed.

(** *** [words] *)

Lemma words_from_ws (cur a b : string) (c : ascii) :
  is_ws c = true ->
  words_from cur (a +++ String c b) = words_from cur a ++ words b.
Proof.
  intros Hc. revert cur. induction a as [|d a IH]; intros cur; simpl.
  - rewrite Hc. reflexivity.
  - destruct (is_ws d).
    + rewrite IH, app_assoc. reflexivity.
    + apply IH.
Qed.

Lemma words_ws (a b : string) (c : ascii) :
  is_ws c = true -> words (a +++ String c b) = words a ++ words b.
Proof. apply words_from_ws. Qed.

Lemma words_ws_end (a : string) (c : ascii) :
  is_ws c = true -> words (a +++ String c "") = words a.
Proof. intros Hc. rewrite (words_ws a "" c Hc). apply app_nil_r. Qed.

Lemma words_trimStart (s : string) : words (trimStart s) = words s.
Proof.
  induction s as [|c r IH]; [reflexivity|].
  simpl. destruct (is_ws c) eqn:Hc; [|reflexivity].
  rewrite IH. unfold words. simpl. rewrite Hc. reflexivity.
Qed.

Lemma words_from_trimEnd (s cur : string) :
  words_from cur (trimEnd s) = words_from cur s.
Proof.
  revert cur. induction s as [|c r IH]; intros cur; [reflexivity|].
  simpl. destruct (trimEnd r) as [|d r'] eqn:Hr.
  - destruct (is_ws c) eqn:Hc; simpl.
    + rewrite <- (IH ""). simpl. rewrite app_nil_r. reflexivity.
    + rewrite Hc. rewrite <- IH. reflexivity.
  - change (words_from cur (String c (String d r')))
      with (if is_ws c
            then (if nonempty cur then [cur] else []) ++ words_from "" (String d r')
            else words_from (cur +++ String c "") (String d r')).
    destruct (is_ws c); rewrite IH; reflexivity.
Qed.

Lemma words_trim (s : string) : words (trim s) = words s.
Proof.
  unfold trim, words. rewrite words_from_trimEnd. apply words_trimStart.
Qed.

(** The words of the items of [split] are the words of the text. *)
Lemma words_from_split (s cur : string) :
  match split s with
  | w :: ws => words_from cur w ++ flat_map words ws
  | [] => []
  end = words_from cur s.
Proof.
  revert cur. induction s as [|c r IH]; intros cur; simpl.
  - apply app_nil_r.
  - destruct (Ascii.eqb_spec c space) as [->|Hne].
    + change (is_ws space) with true. simpl.
      specialize (IH ""). destruct (split r) as [|w ws]; simpl in *.
      * rewrite <- IH. reflexivity.
      * rewrite <- IH. reflexivity.
    + destruct (split_cons r) as (w & ws & Hs). rewrite Hs in *. simpl.
      destruct (is_ws c).
      * rewrite <- (IH ""). rewrite app_assoc. reflexivity.
      * apply IH.
Qed.

Lemma words_split (s : string) : flat_map words (split s) = words s.
Proof.
  pose proof (words_from_split s "") as H.
  destruct (split s) as [|w ws] eqn:Hs; [|exact H].
  destruct (split_cons s) as (w & ws & Hw). congruence.
Qed.

(** The same at the separator that [wrapText] appends. *)
Lemma words_space (a b : string) : words (a +++ String " " b) = words a ++ words b.
Proof. apply words_ws. reflexivity. Qed.

Lemma words_space_end (a : string) : words (a +++ " ") = words a.
Proof. apply words_ws_end. reflexivity. Qed.

Lemma trim_space_end (s : string) : trim (s +++ " ") = trim s.
Proof. apply trim_ws_end. reflexivity. Qed.

End StrFacts.

(* ================================================================== *)
(** ** Word wrap *)

Module WrapFacts.
Import Str StrFacts.

(** A longer string exceeds whatever a shorter one exceeds. *)
Lemma length_gt_mono (n n' : nat) (x : number) :
  (n <= n')%nat -> Num.length_gt n x = true -> Num.length_gt n' x = true.
Proof.
  intros Hn. destruct x as [s|s| |[] m e]; simpl; try tauto.
  - rewrite !Z.ltb_lt. lia.
  - destruct (0 <=? e); rewrite !Z.ltb_lt.
    + lia.
    + intros H. apply Z.lt_le_trans with (1 := H).
      apply Z.mul_le_mono_nonneg_r; [apply Z.pow_nonneg|]; lia.
Qed.

(** The lines pushed so far are a prefix of the lines at the end. *)
Lemma fold_wrapWord_prefix (mc : number) (ws : list string) (P L : list string)
    (cur : string) :
  fold_left (wrapWord mc) ws (P ++ L, cur) =
  (P ++ fst (fold_left (wrapWord mc) ws (L, cur)),
   snd (fold_left (wrapWord mc) ws (L, cur))).
Proof.
  revert L cur. induction ws as [|w ws IH]; intros L cur; simpl; [reflexivity|].
  destruct (Num.length_gt _ mc); [|apply IH].
  destruct (nonempty cur); [|apply IH].
  rewrite <- app_assoc. apply IH.
Qed.

Lemma wrapWords_finish (mc : number) (ws : list string) :
  wrapWords mc ws = finish (fold_left (wrapWord mc) ws ([], "")).
Proof.
  unfold wrapWords, finish.
  destruct (fold_left (wrapWord mc) ws ([], "")); reflexivity.
Qed.

Lemma line_ok_words (cur w : string) :
  line_ok cur -> words (cur +++ w +++ " ") = words cur ++ words w.
Proof.
  intros [->|(x & ->)].
  - simpl. apply words_space_end.
  - rewrite append_assoc. simpl.
    rewrite words_space, !words_space_end. reflexivity.
Qed.

Lemma finish_fold_words (mc : number) (ws : list string) (L : list string)
    (cur : string) :
  line_ok cur ->
  flat_map words (finish (fold_left (wrapWord mc) ws (L, cur))) =
  flat_map words L ++ words cur ++ flat_map words ws.
Proof.
  revert L cur. induction ws as [|w ws IH]; intros L cur Hok.
  - simpl. unfold finish. simpl. rewrite app_nil_r.
    destruct (nonempty cur) eqn:Hne.
    + rewrite flat_map_app. simpl. rewrite app_nil_r, words_trim. reflexivity.
    + destruct cur; [|discriminate]. simpl. rewrite app_nil_r. reflexivity.
  - simpl. destruct (Num.length_gt _ mc).
    + rewrite IH by (right; eexists; reflexivity).
      rewrite words_space_end.
      destruct (nonempty cur) eqn:Hne.
      * rewrite flat_map_app. simpl.
        rewrite app_nil_r, words_trim, <- app_assoc. reflexivity.
      * destruct cur; [|discriminate]. reflexivity.
    + rewrite IH.
      * rewrite (line_ok_words cur w Hok), <- !app_assoc. reflexivity.
      * right. exists (cur +++ w). rewrite append_assoc. reflexivity.
Qed.

(** An item longer than [maxChars] starts a line and ends it. *)
Lemma wrapWords_overlong (mc : number) (pre post : list string) (w : string) :
  Num.length_gt (String.length w) mc = true ->
  wrapWords mc (pre ++ w :: post) =
  wrapWords mc pre ++ trim w :: wrapWords mc post.
Proof.
  intros Hw. rewrite !wrapWords_finish.
  rewrite fold_left_app. simpl.
  destruct (fold_left (wrapWord mc) pre ([], "")) as [L cur] eqn:Hpre.
  unfold wrapWord at 2.
  assert (Hlong : Num.length_gt (String.length (cur +++ w)) mc = true).
  { apply length_gt_mono with (2 := Hw). rewrite length_append. lia. }
  rewrite Hlong.
  change (if nonempty cur then L ++ [trim cur] else L) with (finish (L, cur)).
  set (P := finish (L, cur)).
  destruct post as [|x post].
  - simpl. unfold finish at 1. simpl.
    rewrite nonempty_append_char, trim_space_end.
    reflexivity.
  - simpl.
    assert (Hx : Num.length_gt (String.length ((w +++ " ") +++ x)) mc = true).
    { apply length_gt_mono with (2 := Hw). rewrite !length_append. lia. }
    rewrite Hx, nonempty_append_char, trim_space_end.
    replace (if Num.length_gt (String.length x) mc
             then ([], x +++ " ") else (@nil string, x +++ " "))
      with (@nil string, x +++ " ")
      by (destruct (Num.length_gt (String.length x) mc); reflexivity).
    replace (P ++ [trim w]) with ((P ++ [trim w]) ++ []) by apply app_nil_r.
    rewrite fold_wrapWord_prefix. unfold finish. simpl.
    destruct (nonempty (snd (fold_left (wrapWord mc) post ([], x +++ " "))));
      rewrite <- ?app_assoc; reflexivity.
Qed.

End WrapFacts.

(* ================================================================== *)
(** ** Numbers: the rounding of binary64 *)

Module NumFacts.

Lemma digits2_pos_size (p : positive) : digits2_pos p = Pos.size p.
Proof. induction p as [p IH|p IH|]; simpl; congruence. Qed.

(** The number of digits is the position of the leading bit. *)
Lemma digits2_pos_bounds (p : positive) :
  2 ^ (Zpos (digits2_pos p) - 1) <= Zpos p < 2 ^ Zpos (digits2_pos p).
Proof.
  induction p as [p IH|p IH|].
  - cbn [digits2_pos]. rewrite Pos2Z.inj_succ.
    replace (Z.succ (Zpos (digits2_pos p)) - 1) with (Zpos (digits2_pos p)) by lia.
    rewrite Z.pow_succ_r by lia.
    replace (Zpos (digits2_pos p)) with (Z.succ (Zpos (digits2_pos p) - 1)) at 1 by lia.
    rewrite Z.pow_succ_r by lia. lia.
  - cbn [digits2_pos]. rewrite Pos2Z.inj_succ.
    replace (Z.succ (Zpos (digits2_pos p)) - 1) with (Zpos (digits2_pos p)) by lia.
    rewrite Z.pow_succ_r by lia.
    replace (Zpos (digits2_pos p)) with (Z.succ (Zpos (digits2_pos p) - 1)) at 1 by lia.
    rewrite Z.pow_succ_r by lia. lia.
  - simpl. lia.
Qed.

Lemma digits2_pos_unique (p : positive) (d : Z) :
  2 ^ (d - 1) <= Zpos p < 2 ^ d -> Zpos (digits2_pos p) = d.
Proof.
  intros [Hlo Hhi]. pose proof (digits2_pos_bounds p) as [Hlo' Hhi'].
  assert (Hd : 0 < d).
  { destruct (Z.ltb_spec 0 d) as [|Hd]; [assumption|].
    assert (2 ^ d <= 2 ^ 0) by (apply Z.pow_le_mono_r; lia).
    simpl in *. lia. }
  destruct (Z.lt_trichotomy (Zpos (digits2_pos p)) d) as [Hlt|[Heq|Hgt]];
    [|exact Heq|].
  - assert (2 ^ Zpos (digits2_pos p) <= 2 ^ (d - 1))
      by (apply Z.pow_le_mono_r; lia). lia.
  - assert (2 ^ d <= 2 ^ (Zpos (digits2_pos p) - 1))
      by (apply Z.pow_le_mono_r; lia). lia.
Qed.

Lemma iter_pos_nat {A : Type} (f : A -> A) (p : positive) (x : A) :
  iter_pos f p x = Nat.iter (Pos.to_nat p) f x.
Proof.
  revert x. induction p as [p IH|p IH|]; intros x; cbn [iter_pos].
  - rewrite !IH, Pos2Nat.inj_xI, <- Nat.iter_add, <- Nat.iter_succ_r.
    f_equal. lia.
  - rewrite !IH, Pos2Nat.inj_xO, <- Nat.iter_add. f_equal. lia.
  - reflexivity.
Qed.

(** One step of the shift: the mantissa is halved, the bit that falls off
    is the round bit, the former round bit joins the sticky bit. *)
Lemma shr_1_spec (m : Z) (r s : bool) :
  0 <= m ->
  shr_1 {| shr_m := m; shr_r := r; shr_s := s |} =
  {| shr_m := m / 2; shr_r := Z.odd m; shr_s := r || s |}.
Proof.
  intros Hm. destruct m as [|[p|p|]|p]; try lia; cbn [shr_1].
  - reflexivity.
  - rewrite Pos2Z.inj_xI.
    replace ((2 * Zpos p + 1) / 2) with (Zpos p)
      by (apply Z.div_unique with 1; lia).
    reflexivity.
  - rewrite Pos2Z.inj_xO.
    replace ((2 * Zpos p) / 2) with (Zpos p)
      by (apply Z.div_unique with 0; lia).
    reflexivity.
  - reflexivity.
Qed.

(** After [S k] steps from an exact mantissa. *)
Lemma shr_iter_spec (m : Z) (k : nat) :
  0 <= m ->
  Nat.iter (S k) shr_1 {| shr_m := m; shr_r := false; shr_s := false |} =
  {| shr_m := m / 2 ^ Z.of_nat (S k);
     shr_r := Z.odd (m / 2 ^ Z.of_nat k);
     shr_s := negb (m mod 2 ^ Z.of_nat k =? 0) |}.
Proof.
  intros Hm. induction k as [|k IH].
  - cbn [Nat.iter]. rewrite shr_1_spec by assumption.
    change (2 ^ Z.of_nat 1) with 2. change (2 ^ Z.of_nat 0) with 1.
    rewrite Z.div_1_r, Z.mod_1_r. reflexivity.
  - change (Nat.iter (S (S k)) shr_1 ?x) with (shr_1 (Nat.iter (S k) shr_1 x)).
    rewrite IH, shr_1_spec by (apply Z.div_pos; lia).
    assert (Hp : 0 < 2 ^ Z.of_nat k) by (apply Z.pow_pos_nonneg; lia).
    rewrite !Nat2Z.inj_succ, !Z.pow_succ_r by lia.
    f_equal.
    + rewrite Z.div_div by lia. f_equal. lia.
    + (* the sticky bit *)
      pose proof (Z.div_mod m (2 ^ Z.of_nat k) ltac:(lia)) as Hdm.
      pose proof (Z.mod_pos_bound m (2 ^ Z.of_nat k) Hp) as Hb.
      set (hi := m / 2 ^ Z.of_nat k) in *.
      set (lo := m mod 2 ^ Z.of_nat k) in *.
      pose proof (Z.div_mod hi 2 ltac:(lia)) as Hdm2.
      pose proof (Z.mod_pos_bound hi 2 ltac:(lia)) as Hb2.
      assert (Hmod : m mod (2 * 2 ^ Z.of_nat k) = (hi mod 2) * 2 ^ Z.of_nat k + lo).
      { symmetry. apply Z.mod_unique with (hi / 2); [nia|nia]. }
      rewrite Hmod.
      rewrite (Zodd_mod hi).
      destruct (Z.eqb_spec (hi mod 2) 1) as [H1|H1];
        destruct (Z.eqb_spec lo 0) as [H0|H0]; simpl.
      * symmetry. apply negb_true_iff, Z.eqb_neq. nia.
      * symmetry. apply negb_true_iff, Z.eqb_neq. nia.
      * symmetry. apply negb_false_iff, Z.eqb_eq. nia.
      * symmetry. apply negb_true_iff, Z.eqb_neq. nia.
Qed.

(** The round bit and the sticky bit against the remainder. *)
Lemma mod_pow2_succ (m k : Z) :
  0 <= k ->
  m mod 2 ^ (k + 1) = (m / 2 ^ k) mod 2 * 2 ^ k + m mod 2 ^ k.
Proof.
  intros Hk. assert (Hp : 0 < 2 ^ k) by (apply Z.pow_pos_nonneg; lia).
  rewrite Z.pow_add_r, Z.pow_1_r by lia.
  pose proof (Z.div_mod m (2 ^ k) ltac:(lia)) as Hdm.
  pose proof (Z.mod_pos_bound m (2 ^ k) Hp) as Hb.
  pose proof (Z.div_mod (m / 2 ^ k) 2 ltac:(lia)) as Hdm2.
  pose proof (Z.mod_pos_bound (m / 2 ^ k) 2 ltac:(lia)) as Hb2.
  symmetry. apply Z.mod_unique with (m / 2 ^ k / 2); nia.
Qed.

Lemma round_nearest_even_rne (N : Z) (k : nat) :
  0 <= N ->
  round_nearest_even (N / 2 ^ Z.of_nat (S k))
    (loc_of_shr_record
       {| shr_m := N / 2 ^ Z.of_nat (S k);
          shr_r := Z.odd (N / 2 ^ Z.of_nat k);
          shr_s := negb (N mod 2 ^ Z.of_nat k =? 0) |})
  = rne N (Z.of_nat (S k)).
Proof.
  intros HN. unfold rne.
  replace (Z.of_nat (S k) - 1) with (Z.of_nat k) by lia.
  replace (Z.of_nat (S k)) with (Z.of_nat k + 1) by lia.
  rewrite (mod_pow2_succ N (Z.of_nat k)) by lia.
  assert (Hp : 0 < 2 ^ Z.of_nat k) by (apply Z.pow_pos_nonneg; lia).
  pose proof (Z.mod_pos_bound N (2 ^ Z.of_nat k) Hp) as Hb.
  pose proof (Z.mod_pos_bound (N / 2 ^ Z.of_nat k) 2 ltac:(lia)) as Hb2.
  rewrite (Zodd_mod (N / 2 ^ Z.of_nat k)).
  set (hi := (N / 2 ^ Z.of_nat k) mod 2) in *.
  set (lo := N mod 2 ^ Z.of_nat k) in *.
  set (q := N / 2 ^ (Z.of_nat k + 1)).
  destruct (Z.eqb_spec hi 1) as [H1|H1];
    destruct (Z.eqb_spec lo 0) as [H0|H0]; cbn [negb loc_of_shr_record round_nearest_even].
  - replace (hi * 2 ^ Z.of_nat k + lo) with (2 ^ Z.of_nat k) by nia.
    rewrite !Z.ltb_irrefl. reflexivity.
  - replace (hi * 2 ^ Z.of_nat k + lo <? 2 ^ Z.of_nat k) with false
      by (symmetry; apply Z.ltb_ge; nia).
    replace (2 ^ Z.of_nat k <? hi * 2 ^ Z.of_nat k + lo) with true
      by (symmetry; apply Z.ltb_lt; nia).
    reflexivity.
  - replace (hi * 2 ^ Z.of_nat k + lo <? 2 ^ Z.of_nat k) with true
      by (symmetry; apply Z.ltb_lt; nia).
    reflexivity.
  - replace (hi * 2 ^ Z.of_nat k + lo <? 2 ^ Z.of_nat k) with true
      by (symmetry; apply Z.ltb_lt; nia).
    reflexivity.
Qed.

(** A mantissa of 53 digits in the range of the exponents is kept. *)
Lemma binary_round_aux_exact (N : positive) (e : Z) :
  2 ^ 52 <= Zpos N < 2 ^ 53 ->
  -1074 <= e <= 971 ->
  binary_round_aux 53 1024 false (Zpos N) e loc_Exact = S754_finite false N e.
Proof.
  intros HN He. unfold binary_round_aux, shr_fexp.
  cbn [Zdigits2 shr_record_of_loc].
  rewrite (digits2_pos_unique N 53 HN).
  unfold fexp, emin.
  replace (Z.max (53 + e - 53) (3 - 1024 - 53) - e) with 0 by lia.
  cbn [shr shr_m loc_of_shr_record round_nearest_even Zdigits2 shr_record_of_loc].
  rewrite (digits2_pos_unique N 53 HN).
  replace (Z.max (53 + e - 53) (3 - 1024 - 53) - e) with 0 by lia.
  cbn [shr shr_m].
  replace (e <=? 1024 - 53) with true by (symmetry; apply Z.leb_le; lia).
  reflexivity.
Qed.

(** A mantissa of [D > 53] digits loses [D - 53] of them and is rounded. *)
Lemma binary_round_aux_shift (N : positive) (e D : Z) :
  2 ^ (D - 1) <= Zpos N < 2 ^ D ->
  53 < D ->
  rne (Zpos N) (D - 53) < 2 ^ 53 ->
  -1074 <= e + (D - 53) <= 971 ->
  binary_round_aux 53 1024 false (Zpos N) e loc_Exact =
  S754_finite false (Z.to_pos (rne (Zpos N) (D - 53))) (e + (D - 53)).
Proof.
  intros HN HD Hq He. unfold binary_round_aux, shr_fexp.
  cbn [Zdigits2 shr_record_of_loc].
  rewrite (digits2_pos_unique N D HN).
  unfold fexp, emin.
  replace (Z.max (D + e - 53) (3 - 1024 - 53) - e) with (D - 53) by lia.
  destruct (D - 53) as [|pn|pn] eqn:Hn; try lia.
  cbn [shr]. rewrite iter_pos_nat.
  destruct (Pos2Nat.is_succ pn) as [k Hk]. rewrite Hk.
  rewrite shr_iter_spec by lia.
  assert (HnS : Zpos pn = Z.of_nat (S k)) by lia.
  cbn [shr_m]. rewrite round_nearest_even_rne by lia.
  rewrite <- HnS.
  assert (Hlow : 2 ^ 52 <= rne (Zpos N) (Zpos pn)).
  { assert (Hdiv : 2 ^ 52 <= Zpos N / 2 ^ Zpos pn).
    { apply Z.div_le_lower_bound; [apply Z.pow_pos_nonneg; lia|].
      rewrite <- Z.pow_add_r by lia.
      replace (Zpos pn + 52) with (D - 1) by lia. apply HN. }
    unfold rne.
    destruct (_ <? _); [exact Hdiv|].
    destruct (_ <? _); [lia|]. destruct (Z.even _); lia. }
  destruct (rne (Zpos N) (Zpos pn)) as [|q|q] eqn:Hrne; try lia.
  cbn [Zdigits2 shr_record_of_loc].
  rewrite (digits2_pos_unique q 53) by lia.
  replace (Z.max (53 + (e + Zpos pn) - 53) (3 - 1024 - 53) - (e + Zpos pn))
    with 0 by lia.
  cbn [shr shr_m].
  replace (e + Zpos pn <=? 1024 - 53) with true by (symmetry; apply Z.leb_le; lia).
  reflexivity.
Qed.

Lemma Zpos_iter_xO (p k : positive) :
  Zpos (Pos.iter xO p k) = Zpos p * 2 ^ Zpos k.
Proof.
  induction k as [|k IH] using Pos.peano_ind.
  - simpl. lia.
  - rewrite Pos.iter_succ, Pos2Z.inj_xO, IH, Pos2Z.inj_succ, Z.pow_succ_r by lia.
    lia.
Qed.

(** An integer of [d] digits as a number. *)
Lemma ofZ_digits (W d : Z) :
  1 <= d <= 53 ->
  2 ^ (d - 1) <= W < 2 ^ d ->
  Num.ofZ W = S754_finite false (Z.to_pos (W * 2 ^ (53 - d))) (d - 53).
Proof.
  intros Hd HW.
  assert (Hpos : 0 < W).
  { assert (0 < 2 ^ (d - 1)) by (apply Z.pow_pos_nonneg; lia). lia. }
  destruct W as [|p|p]; try lia.
  unfold Num.ofZ, binary_normalize, binary_round, Num.prec, Num.emax.
  rewrite (digits2_pos_unique p d HW).
  unfold fexp at 1, emin.
  replace (Z.max (d + 0 - 53) (3 - 1024 - 53)) with (d - 53) by lia.
  unfold shl_align. replace (d - 53 - 0) with (d - 53) by lia.
  destruct (d - 53) as [|k|k] eqn:Hk; try lia.
  - replace (53 - d) with 0 by lia. rewrite Z.mul_1_r. simpl Z.to_pos.
    apply binary_round_aux_exact; [|lia].
    replace d with 53 in HW by lia. exact HW.
  - assert (Hmz : Zpos (Pos.iter xO p k) = Zpos p * 2 ^ (53 - d)).
    { rewrite Zpos_iter_xO. f_equal. f_equal. lia. }
    rewrite <- Hmz. simpl Z.to_pos.
    apply binary_round_aux_exact; [|lia].
    rewrite Hmz.
    assert (Hp2 : 0 < 2 ^ (53 - d)) by (apply Z.pow_pos_nonneg; lia).
    replace (2 ^ 52) with (2 ^ (d - 1) * 2 ^ (53 - d))
      by (rewrite <- Z.pow_add_r by lia; f_equal; lia).
    replace (2 ^ 53) with (2 ^ d * 2 ^ (53 - d))
      by (rewrite <- Z.pow_add_r by lia; f_equal; lia).
    split; [apply Z.mul_le_mono_nonneg_r; lia|apply Z.mul_lt_mono_pos_r; lia].
Qed.

End NumFacts.

Module CompareFacts.
Import NumFacts.

Lemma digits_of_length (n : Z) :
  0 < n < 2 ^ 53 ->
  exists d, 1 <= d <= 53 /\ 2 ^ (d - 1) <= n < 2 ^ d.
Proof.
  intros Hn. exists (Z.log2 n + 1).
  pose proof (Z.log2_spec n ltac:(lia)) as Hs.
  pose proof (Z.log2_nonneg n) as Hnn.
  assert (Z.log2 n < 53) by (apply Z.log2_lt_pow2; lia).
  replace (Z.log2 n + 1 - 1) with (Z.log2 n) by lia.
  replace (Z.log2 n + 1) with (Z.succ (Z.log2 n)) by lia. lia.
Qed.

Lemma pow2_le (a b : Z) : 0 <= a <= b -> 2 ^ a <= 2 ^ b.
Proof. intros H. apply Z.pow_le_mono_r; lia. Qed.

Lemma pow2_pos (a : Z) : 0 <= a -> 0 < 2 ^ a.
Proof. intros H. apply Z.pow_pos_nonneg; lia. Qed.

(** On the numbers of binary64 [length_gt] is the comparison [x < n] of the
    standard model, for every length a string can have. *)
Lemma length_gt_SFltb (x : number) (n : nat) :
  valid_binary Num.prec Num.emax x = true ->
  Z.of_nat n < 2 ^ 53 ->
  Num.length_gt n x = SFltb x (Num.ofZ (Z.of_nat n)).
Proof.
  intros Hv Hn. destruct (Z.eq_dec (Z.of_nat n) 0) as [H0|H0].
  - rewrite H0. change (Num.ofZ 0) with (S754_zero false).
    destruct x as [s|s| |[] m e]; cbn [Num.length_gt SFltb SFcompare];
      rewrite ?H0; try reflexivity.
    + destruct s; reflexivity.
    + destruct (0 <=? e); [|reflexivity].
      apply Z.ltb_ge. pose proof (Z.pow_nonneg 2 e ltac:(lia)). nia.
  - destruct (digits_of_length (Z.of_nat n) ltac:(lia)) as (d & Hd & Hb).
    rewrite (ofZ_digits _ d Hd Hb).
    destruct x as [s|s| |[] m e]; cbn [Num.length_gt SFltb SFcompare];
      try reflexivity.
    + destruct s; apply Z.ltb_lt; lia.
    + destruct s; reflexivity.
    + (* a positive finite [x]: the exponents, then the mantissas *)
      cbn [valid_binary] in Hv. unfold bounded, canonical_mantissa in Hv.
      apply andb_true_iff in Hv. destruct Hv as [Hc He].
      apply Z.eqb_eq in Hc. apply Z.leb_le in He.
      unfold fexp, emin, Num.prec, Num.emax in Hc, He.
      pose proof (digits2_pos_bounds m) as Hm.
      set (dm := Zpos (digits2_pos m)) in *.
      assert (Hdm : 1 <= dm) by (unfold dm; lia).
      assert (Hm2 : Zpos (Z.to_pos (Z.of_nat n * 2 ^ (53 - d))) =
                    Z.of_nat n * 2 ^ (53 - d)).
      { apply Z2Pos.id. pose proof (pow2_pos (53 - d) ltac:(lia)). nia. }
      assert (Hdm53 : dm <= 53) by lia.
      assert (Hm53 : Zpos m < 2 ^ 53).
      { apply Z.lt_le_trans with (2 ^ dm); [apply Hm|apply pow2_le; lia]. }
      destruct (Z.compare_spec e (d - 53)) as [Heq|Hlt|Hgt].
      * (* equal exponents *)
        match goal with
        | |- context [Pos.compare_cont Eq ?a ?b] =>
            change (Pos.compare_cont Eq a b) with (Pos.compare a b)
        end.
        rewrite Pos2Z.inj_compare, Hm2.
        replace (53 - d) with (- e) by lia.
        destruct (Z.leb_spec 0 e) as [Hpos|Hneg].
        -- replace e with 0 by lia. cbn [Z.opp].
           rewrite Z.pow_0_r, !Z.mul_1_r.
           destruct (Z.compare_spec (Zpos m) (Z.of_nat n)) as [?|?|?];
             [apply Z.ltb_ge|apply Z.ltb_lt|apply Z.ltb_ge]; lia.
        -- destruct (Z.compare_spec (Zpos m) (Z.of_nat n * 2 ^ (- e))) as [?|?|?];
             [apply Z.ltb_ge|apply Z.ltb_lt|apply Z.ltb_ge]; lia.
      * (* [x] has the smaller exponent: it is below [2^(d-1)] *)
        replace (0 <=? e) with false by (symmetry; apply Z.leb_gt; lia).
        apply Z.ltb_lt.
        apply Z.lt_le_trans with (1 := Hm53).
        apply Z.le_trans with (2 ^ (d - 1) * 2 ^ (- e)).
        -- rewrite <- Z.pow_add_r by lia. apply pow2_le. lia.
        -- apply Z.mul_le_mono_nonneg_r; [|lia].
           pose proof (pow2_pos (- e) ltac:(lia)). lia.
      * (* [x] has the larger exponent: it is a normal number, at least [2^d] *)
        assert (Hnorm : dm = 53) by lia.
        assert (Hm52 : 2 ^ 52 <= Zpos m).
        { replace 52 with (dm - 1) by lia. apply Hm. }
        destruct (Z.leb_spec 0 e) as [Hpos|Hneg]; apply Z.ltb_ge.
        -- apply Z.le_trans with (2 ^ d); [lia|].
           apply Z.le_trans with (2 ^ 52 * 2 ^ e).
           ++ rewrite <- Z.pow_add_r by lia. apply pow2_le. lia.
           ++ apply Z.mul_le_mono_nonneg_r; [|lia].
              pose proof (pow2_pos e ltac:(lia)). lia.
        -- apply Z.le_trans with (2 ^ d * 2 ^ (- e)).
           ++ apply Z.mul_le_mono_nonneg_r; [|lia].
              pose proof (pow2_pos (- e) ltac:(lia)). lia.
           ++ apply Z.le_trans with (2 ^ 52); [|exact Hm52].
              rewrite <- Z.pow_add_r by lia. apply pow2_le. lia.
Qed.

End CompareFacts.

Module FontFacts.
Import NumFacts.

(** The product of two numbers whose mantissas multiply to [D] digits,
    then [Math.round]: all in integers. *)
Lemma Math_round_mul (mx my : positive) (ex ey D : Z) :
  2 ^ (D - 1) <= Zpos mx * Zpos my < 2 ^ D ->
  53 < D ->
  rne (Zpos mx * Zpos my) (D - 53) < 2 ^ 53 ->
  -1074 <= ex + ey + (D - 53) < 0 ->
  Num.Math_round (Num.mul (S754_finite false mx ex) (S754_finite false my ey)) =
  Num.ofZ ((2 * rne (Zpos mx * Zpos my) (D - 53) + 2 ^ (- (ex + ey + (D - 53))))
           / 2 ^ (1 - (ex + ey + (D - 53)))).
Proof.
  intros HN HD Hq He.
  unfold Num.mul, SFmul, Num.prec, Num.emax. cbn [xorb].
  rewrite <- Pos2Z.inj_mul in *.
  rewrite (binary_round_aux_shift (mx * my) (ex + ey) D HN HD Hq) by lia.
  assert (Hlow : 0 < rne (Zpos (mx * my)) (D - 53)).
  { assert (Hp : 0 < 2 ^ (D - 53)) by (apply Z.pow_pos_nonneg; lia).
    assert (Hdiv : 0 < Zpos (mx * my) / 2 ^ (D - 53)).
    { apply Z.div_str_pos. split; [exact Hp|].
      apply Z.le_trans with (2 ^ (D - 1)); [|apply HN].
      apply Z.pow_le_mono_r; lia. }
    unfold rne. destruct (_ <? _); [exact Hdiv|].
    destruct (_ <? _); [lia|]. destruct (Z.even _); lia. }
  unfold Num.Math_round, Num.ofZ.
  replace (0 <=? ex + ey + (D - 53)) with false by (symmetry; apply Z.leb_gt; lia).
  cbn [cond_Zopp]. rewrite Z2Pos.id by exact Hlow. reflexivity.
Qed.

(** Powers of two with a known exponent, as numerals. *)
Ltac pow2_consts :=
  repeat match goal with
         | |- context [2 ^ ?k] =>
             let v := eval vm_compute in (2 ^ k) in change (2 ^ k) with v
         | H : context [2 ^ ?k] |- _ =>
             let v := eval vm_compute in (2 ^ k) in change (2 ^ k) with v in H
         end.

(** The arithmetic that is left when the digits are known: the cases of
    [rne], then division and remainder by numerals. *)
Ltac rne_cases :=
  unfold rne; pow2_consts;
  repeat match goal with
         | |- context [if ?b then _ else _] => destruct b eqn:?
         end;
  rewrite ?Z.ltb_lt, ?Z.ltb_ge in *;
  Z.div_mod_to_equations; lia.

(** [Math.round (W * c)] for [W] of [d] digits and the literal [c] of
    mantissa [m] and exponent [-57], against the division [target]. *)
Ltac round_width W d m :=
  rewrite (ofZ_digits W d) by lia;
  assert (Hpos : 0 < W * 2 ^ (53 - d)) by (pow2_consts; lia);
  destruct (Z.ltb_spec (W * 2 ^ (53 - d) * Zpos m) (2 ^ 105));
  [ rewrite (Math_round_mul _ m _ _ 105); rewrite ?Z2Pos.id by exact Hpos
  | rewrite (Math_round_mul _ m _ _ 106); rewrite ?Z2Pos.id by exact Hpos ];
  [ f_equal; rne_cases | pow2_consts; lia | lia | rne_cases | lia
  | f_equal; rne_cases | pow2_consts; lia | lia | rne_cases | lia ].

Lemma headerFontSize_digits (d W : Z) :
  1 <= d <= 32 ->
  2 ^ (d - 1) <= W < 2 ^ d ->
  headerFontSize (Num.ofZ W) = Num.ofZ ((6 * W + 50) / 100).
Proof.
  intros Hd HW. unfold headerFontSize, Num.lit_0_06.
  destruct d as [|p|p]; try lia.
  do 6 (try (destruct p as [p|p|]; try lia)).
  all: match type of HW with
       | _ <= _ < 2 ^ ?d => round_width W d 8646911284551352%positive
       end.
Qed.

Lemma promoFontSize_digits (d W : Z) :
  1 <= d <= 32 ->
  2 ^ (d - 1) <= W < 2 ^ d ->
  promoFontSize (Num.ofZ W) = Num.ofZ ((4 * W + 50) / 100).
Proof.
  intros Hd HW. unfold promoFontSize, Num.lit_0_04.
  destruct d as [|p|p]; try lia.
  do 6 (try (destruct p as [p|p|]; try lia)).
  all: match type of HW with
       | _ <= _ < 2 ^ ?d => round_width W d 5764607523034235%positive
       end.
Qed.

Lemma digits_of_width (W : Z) :
  0 < W < 2 ^ 32 ->
  1 <= Z.log2 W + 1 <= 32 /\ 2 ^ (Z.log2 W + 1 - 1) <= W < 2 ^ (Z.log2 W + 1).
Proof.
  intros HW. pose proof (Z.log2_spec W ltac:(lia)) as Hs.
  pose proof (Z.log2_nonneg W) as Hn.
  assert (Z.log2 W < 32) by (apply Z.log2_lt_pow2; lia).
  replace (Z.log2 W + 1 - 1) with (Z.log2 W) by lia.
  replace (Z.log2 W + 1) with (Z.succ (Z.log2 W)) by lia. lia.
Qed.

End FontFacts.

(** C5. For every canvas width [W], an integer number of pixels below
    [2^32], the header font size is [0.06 * W] rounded to the nearest
    integer and the promo font size is [0.04 * W] rounded to the nearest
    integer, a half rounded up: the binary64 product and [Math.round] give
    the rounding of the exact product. *)
Theorem font_sizes_round (W : Z) :
  0 <= W < 2 ^ 32 ->
  headerFontSize (Num.ofZ W) = Num.ofZ ((6 * W + 50) / 100) /\
  promoFontSize (Num.ofZ W) = Num.ofZ ((4 * W + 50) / 100).
Proof.
  intros HW. destruct (Z.eq_dec W 0) as [->|Hnz]; [split; reflexivity|].
  destruct (FontFacts.digits_of_width W ltac:(lia)) as [Hd Hb].
  split.
  - exact (FontFacts.headerFontSize_digits _ W Hd Hb).
  - exact (FontFacts.promoFontSize_digits _ W Hd Hb).
Qed.

(** A canvas 1000 wide: 60 and 40 pixels. *)
Lemma font_sizes_round_witness :
  headerFontSize (Num.ofZ 1000) = Num.ofZ 60 /\
  promoFontSize (Num.ofZ 1000) = Num.ofZ 40.
Proof.
  apply (font_sizes_round 1000). lia.
Defined.

(* ================================================================== *)
(** ** Runs of the pipeline *)

Section Runs.

Context {World : Type}.

Lemma quiet_ret {A : Type} (a : A) : quiet (@ret World A a).
Proof. intros s. exists []. simpl. rewrite app_nil_r. repeat constructor. Qed.

Lemma quiet_throw {A : Type} (e : string) : quiet (@throw World A e).
Proof. intros s. exists []. simpl. rewrite app_nil_r. repeat constructor. Qed.

Lemma quiet_throw_again {A : Type} (e : Error.t) : quiet (@rethrow World A e).
Proof. intros s. exists []. simpl. rewrite app_nil_r. repeat constructor. Qed.

Lemma quiet_lift {A : Type} (o : outcome A) : quiet (@lift World A o).
Proof.
  intros s. exists []. simpl. rewrite app_nil_r.
  destruct o; repeat constructor.
Qed.

Lemma quiet_call {A : Type} (f : World -> outcome A * World) : quiet (call f).
Proof.
  intros s. exists []. unfold call. destruct (f (world s)) as [o w]. simpl.
  rewrite app_nil_r. destruct o; repeat constructor.
Qed.

Lemma quiet_ask {A : Type} (f : World -> A * World) : quiet (ask f).
Proof.
  intros s. exists []. unfold ask. destruct (f (world s)) as [a w]. simpl.
  rewrite app_nil_r. repeat constructor.
Qed.

Lemma quiet_emit (e : event) :
  is_delay e = false -> is_error e = false -> is_response e = false ->
  quiet (@emit World e).
Proof.
  intros Hd He Hr s. exists [e]. simpl. repeat constructor; assumption.
Qed.

Lemma quiet_bind {A B : Type} (m : M World A) (k : A -> M World B) :
  quiet m -> (forall a, quiet (k a)) -> quiet (bind m k).
Proof.
  intros Hm Hk s. unfold bind.
  destruct (Hm s) as (evs1 & Ht1 & Hd1 & He1).
  destruct (m s) as [[a|e] s1]; simpl in *.
  - destruct (Hk a s1) as (evs2 & Ht2 & Hd2 & He2).
    exists (evs1 ++ evs2). rewrite Ht2, Ht1, app_assoc.
    split; [reflexivity|]. split; [apply Forall_app; auto|].
    destruct (fst (k a s1)); [apply Forall_app; auto|exact I].
  - exists evs1. repeat split; assumption.
Qed.

Lemma quiet_when (b : bool) (m : M World unit) : quiet m -> quiet (when b m).
Proof. destruct b; [trivial|intros _; apply quiet_ret]. Qed.

(** A report of an error followed by a [throw]: no wait. *)
Lemma quiet_report {A : Type} (e : event) (k : M World A) :
  is_delay e = false -> quiet k -> never_returns k -> quiet (emit e ;;; k).
Proof.
  intros Hd Hk Hn s. unfold bind, emit.
  set (s1 := {| world := world s; trace := trace s ++ [e] |}).
  destruct (Hk s1) as (evs & Ht & Hdel & _). destruct (Hn s1) as (x & Hx).
  exists (e :: evs). rewrite Ht. cbn [trace s1]. rewrite <- app_assoc.
  split; [reflexivity|]. split; [constructor; assumption|].
  rewrite Hx. exact I.
Qed.

Lemma never_report {A : Type} (e : event) (k : M World A) :
  never_returns k -> never_returns (emit e ;;; k).
Proof. intros Hn s. unfold bind, emit. apply Hn. Qed.

Lemma never_throw_again {A : Type} (e : Error.t) : never_returns (@rethrow World A e).
Proof. intros s. exists e. reflexivity. Qed.

(** A [catch] that throws again keeps the computation quiet: it returns
    only when the [try] returned. *)
Lemma quiet_catch {A : Type} (m : M World A) (h : Error.t -> M World A) :
  quiet m -> (forall e, quiet (h e)) -> (forall e, never_returns (h e)) ->
  quiet (try_catch m h).
Proof.
  intros Hm Hh Hn s. unfold try_catch.
  destruct (Hm s) as (evs1 & Ht1 & Hd1 & He1).
  destruct (m s) as [[a|e] s1]; simpl in *.
  - exists evs1. repeat split; assumption.
  - destruct (Hh e s1) as (evs2 & Ht2 & Hd2 & _). destruct (Hn e s1) as (x & Hx).
    exists (evs1 ++ evs2). rewrite Ht2, Ht1, app_assoc.
    split; [reflexivity|]. split; [apply Forall_app; auto|].
    rewrite Hx. exact I.
Qed.

Lemma quiet_report_and_rethrow {A : Type} (at_ : step) (e : Error.t) :
  quiet (@report_and_rethrow World A at_ e) /\
  never_returns (@report_and_rethrow World A at_ e).
Proof.
  unfold report_and_rethrow. split.
  - apply quiet_report; [reflexivity|apply quiet_throw_again|apply never_throw_again].
  - apply never_report, never_throw_again.
Qed.

Lemma quiet_appends {A : Type} (m : M World A) : quiet m -> appends m.
Proof. intros Hm s. destruct (Hm s) as (evs & Ht & _). eauto. Qed.

Lemma starts_bind {A B : Type} (e : event) (m : M World A) (k : A -> M World B) :
  starts_with e m -> (forall a, appends (k a)) -> starts_with e (bind m k).
Proof.
  intros Hm Hk s. unfold bind. destruct (Hm s) as (evs1 & Ht1).
  destruct (m s) as [[a|x] s1]; simpl in *.
  - destruct (Hk a s1) as (evs2 & Ht2). exists (evs1 ++ evs2).
    rewrite Ht2, Ht1, <- app_assoc. reflexivity.
  - eauto.
Qed.

Lemma starts_try_catch {A : Type} (e : event) (m : M World A)
    (h : Error.t -> M World A) :
  starts_with e m -> (forall x, appends (h x)) -> starts_with e (try_catch m h).
Proof.
  intros Hm Hh s. unfold try_catch. destruct (Hm s) as (evs1 & Ht1).
  destruct (m s) as [[a|x] s1]; simpl in *.
  - eauto.
  - destruct (Hh x s1) as (evs2 & Ht2). exists (evs1 ++ evs2).
    rewrite Ht2, Ht1, <- app_assoc. reflexivity.
Qed.

Lemma starts_lift {A B : Type} (e : event) (a : A) (k : A -> M World B) :
  starts_with e (k a) -> starts_with e (bind (lift (Return a)) k).
Proof. intros H s. exact (H s). Qed.

Lemma starts_emit {A : Type} (e : event) (k : M World A) :
  appends k -> starts_with e (emit e ;;; k).
Proof.
  intros Hk s. unfold bind, emit.
  destruct (Hk {| world := world s; trace := trace s ++ [e] |}) as (evs & Ht).
  exists evs. rewrite Ht. simpl. rewrite <- app_assoc. reflexivity.
Qed.

Lemma returns_ret {A : Type} (a : A) (P : A -> Prop) :
  P a -> returns (@ret World A a) P.
Proof. intros H s b s' E. injection E as <- _. exact H. Qed.

Lemma returns_bind {A B : Type} (m : M World A) (k : A -> M World B)
    (P : B -> Prop) :
  (forall a, returns (k a) P) -> returns (bind m k) P.
Proof.
  intros Hk s b s' E. unfold bind in E.
  destruct (m s) as [[a|e] s1]; [|discriminate].
  exact (Hk a s1 b s' E).
Qed.

Variable svc : Services World.

(** A string and [undefined] convert to a string. *)
Lemma converts_plain (v : value) : converts svc v.
Proof. destruct v as [|x]; eexists; reflexivity. Qed.

Ltac quiet_steps_with known :=
  repeat first
    [ known
    | apply quiet_bind; [|intros]
    | apply quiet_catch;
      [|intros; apply quiet_report_and_rethrow
       |intros; apply quiet_report_and_rethrow]
    | apply quiet_when
    | apply quiet_emit; reflexivity
    | apply quiet_call
    | apply quiet_ask
    | apply quiet_lift
    | apply quiet_ret
    | apply quiet_throw ].

Ltac quiet_steps := quiet_steps_with fail.

Lemma quiet_exportFigmaComponent (nodeId : value) (scale : number) :
  quiet (exportFigmaComponent svc nodeId scale).
Proof.
  unfold exportFigmaComponent. quiet_steps.
  match goal with
  | |- quiet (match ?entry with _ => _ end) => destruct entry as [|url]
  end; [apply quiet_throw|].
  destruct (Str.nonempty url); quiet_steps.
Qed.

Lemma quiet_addTextOverlay (image : Buffer) (h p t : data) :
  quiet (addTextOverlay svc image h p t).
Proof. unfold addTextOverlay. quiet_steps. Qed.

(** The [catch] of [uploadToCloudinary]: two reports at most, and the
    error is thrown again. *)
Lemma upload_catch (e : Error.t) (s : State World) :
  exists evs,
    (emit (EvError UploadStep (Error.message e)) ;;;
     match Error.response e with
     | Some data => emit (EvResponse data)
     | None => ret tt
     end ;;;
     @rethrow World value e) s
    = (Throw e, {| world := world s; trace := trace s ++ evs |}) /\
    (evs = [EvError UploadStep (Error.message e)] \/
     exists data, Error.response e = Some data /\
                  evs = [EvError UploadStep (Error.message e); EvResponse data]).
Proof.
  unfold bind, emit, rethrow, ret. cbn [world trace].
  destruct (Error.response e) as [data|]; cbn [world trace].
  - eexists. rewrite <- app_assoc. split; [reflexivity|]. right. eauto.
  - eexists. split; [reflexivity|]. left. reflexivity.
Qed.

Lemma quiet_uploadToCloudinary (image : Buffer) (filename : string) :
  quiet (uploadToCloudinary svc image filename).
Proof.
  unfold uploadToCloudinary. apply quiet_catch.
  - destruct (CLOUDINARY_URL svc) as [|url]; [apply quiet_throw|].
    destruct (cloudinary_match svc url) as [[[? ?] cloudName]|]; quiet_steps.
  - intros e s. destruct (upload_catch e s) as (evs & -> & Hevs).
    exists evs. split; [reflexivity|]. split; [|exact I].
    destruct Hevs as [-> | (data & _ & ->)]; repeat constructor.
  - intros e s. destruct (upload_catch e s) as (evs & -> & _).
    exists e. reflexivity.
Qed.

(** The first thing [exportFigmaComponent] does is to ask for the node. *)
Lemma starts_exportFigmaComponent (nodeId : value) (scale : number) :
  starts_with (EvExport nodeId scale) (exportFigmaComponent svc nodeId scale).
Proof.
  unfold exportFigmaComponent.
  apply starts_try_catch;
    [|intros x; apply quiet_appends, quiet_report_and_rethrow].
  apply starts_emit. apply quiet_appends. quiet_steps.
  match goal with
  | |- quiet (match ?entry with _ => _ end) => destruct entry as [|url]
  end; [apply quiet_throw|].
  destruct (Str.nonempty url); quiet_steps.
Qed.

(** A header that does not convert to a string: the [try] of
    [processCard] throws at its first statement, the [catch] throws at its
    first statement, and nothing else is done. *)
Lemma processCard_throws (h p t : data) (e : Error.t) (s : State World) :
  ToString (Number_toString svc) h = Throw e ->
  processCard svc h p t s = (Throw e, s).
Proof.
  intros Hh. unfold processCard. cbv zeta.
  unfold try_catch, bind at 1, lift at 1. rewrite Hh.
  reflexivity.
Qed.

(** The [catch] of [processCard] for a header that converts. *)
Lemma card_catch (h p t : data) (e : Error.t) (s : State World) :
  converts svc h ->
  exists r s',
    (lift (ToString (Number_toString svc) h) ;;;
     emit (EvError (CardStep h) (Error.message e)) ;;;
     date <- ask (Date_now svc) ;;
     ret {| success := false; header := h; promo := p; template := t;
            imageUrl := None; error := Some (Error.message e);
            timestamp := Date_toISOString svc date |}) s
    = (Return r, s') /\
    trace s' = trace s ++ [EvError (CardStep h) (Error.message e)] /\
    echoes h p t r /\ failed r /\ error r = Some (Error.message e).
Proof.
  intros (text & Hh). unfold bind, lift, emit, ask, ret. rewrite Hh.
  cbn [world trace]. destruct (Date_now svc (world s)) as [date w].
  eexists _, _. split; [reflexivity|]. cbn [trace].
  split; [reflexivity|]. split; [repeat split|].
  split; [unfold failed; simpl; eauto|reflexivity].
Qed.

(** The first thing [processCard] does is to ask for the node of the
    configuration that the template resolves to. *)
Lemma starts_processCard (h p t : data) (node : value) :
  converts svc h ->
  nodeOf svc (templateType_or_default t) = Return node ->
  starts_with (EvExport node Num.lit_2) (processCard svc h p t).
Proof.
  intros Hh Hnode. unfold processCard. cbv zeta. rewrite Hnode.
  apply starts_try_catch.
  - destruct Hh as (text & ->). apply starts_lift. apply starts_lift.
    apply starts_bind; [apply starts_exportFigmaComponent|].
    intros base. apply quiet_appends.
    quiet_steps_with
      ltac:(first [ apply quiet_addTextOverlay
                  | apply quiet_uploadToCloudinary ]).
  - intros x s.
    destruct (card_catch h p (templateType_or_default t) x s Hh)
      as (r & s' & -> & Ht & _). eauto.
Qed.

(** Every run of [processCard] on a header that converts to a string
    returns a result; the result echoes the arguments, it is of one of the
    two shapes, and a success has reported no failure. The run appends
    events to the trace, and never a delay. *)
Lemma processCard_run (h p t : data) (s : State World) :
  converts svc h ->
  exists r s' evs,
    processCard svc h p t s = (Return r, s') /\
    trace s' = trace s ++ evs /\
    Forall (fun e => is_delay e = false) evs /\
    echoes h p (templateType_or_default t) r /\
    ((succeeded r /\
      Forall (fun e => is_error e = false /\ is_response e = false) evs)
     \/ failed r).
Proof.
  intros Hh. unfold processCard. cbv zeta.
  match goal with
  | |- context [try_catch ?b ?hd] => set (body := b); set (handler := hd)
  end.
  assert (Hq : quiet body).
  { subst body.
    quiet_steps_with
      ltac:(first [ apply quiet_exportFigmaComponent
                  | apply quiet_addTextOverlay
                  | apply quiet_uploadToCloudinary ]). }
  assert (Hr : returns body
                 (fun r => echoes h p (templateType_or_default t) r /\ succeeded r)).
  { subst body. repeat (apply returns_bind; intros).
    apply returns_ret. unfold echoes, succeeded. simpl. eauto 10. }
  unfold try_catch.
  destruct (Hq s) as (evs & Ht & Hd & He).
  destruct (body s) as [[r|e] s1] eqn:Hb; simpl in *.
  - exists r, s1, evs. destruct (Hr s r s1 Hb) as [Hech Hsuc]. auto 10.
  - subst handler.
    destruct (card_catch h p (templateType_or_default t) e s1 Hh)
      as (r & s' & -> & Ht' & Hech & Hf & _).
    exists r, s', (evs ++ [EvError (CardStep h) (Error.message e)]).
    split; [reflexivity|]. rewrite Ht', Ht, app_assoc.
    split; [reflexivity|].
    split; [apply Forall_app; split; [assumption|repeat constructor]|].
    split; [exact Hech|]. right. exact Hf.
Qed.

(** No run of [processCard] waits, whatever the header is. *)
Lemma processCard_never_waits (h p t : data) (s : State World) :
  exists evs,
    trace (snd (processCard svc h p t s)) = trace s ++ evs /\
    Forall (fun e => is_delay e = false) evs.
Proof.
  destruct (ToString (Number_toString svc) h) as [text|e] eqn:Hh.
  - destruct (processCard_run h p t s) as (r & s' & evs & -> & Ht & Hd & _);
      [eexists; exact Hh|].
    exists evs. auto.
  - rewrite (processCard_throws h p t e s Hh). exists []. simpl.
    rewrite app_nil_r. auto.
Qed.

End Runs.

(* ================================================================== *)
(** ** The batch loop *)

Section Batch.

Context {World : Type} (svc : Services World).

(** The number of delays among chunks of events that hold none, with one
    delay between every two chunks. *)
Lemma delays_between (chunks : list (list event)) (ms : Z) :
  Forall (Forall (fun e => is_delay e = false)) chunks ->
  List.length (filter is_delay (List.concat (between [EvDelay ms] chunks))) =
  (List.length chunks - 1)%nat.
Proof.
  assert (Hnone : forall c, Forall (fun e => is_delay e = false) c ->
                            filter is_delay c = []).
  { induction 1 as [|e c He _ IH]; simpl; [reflexivity|]. rewrite He. exact IH. }
  induction 1 as [|c chunks Hc Hcs IH]; [reflexivity|].
  destruct chunks as [|c' chunks].
  - simpl. rewrite app_nil_r, (Hnone c Hc). reflexivity.
  - change (between [EvDelay ms] (c :: c' :: chunks))
      with (c :: [EvDelay ms] :: between [EvDelay ms] (c' :: chunks)).
    cbn [List.concat]. rewrite !filter_app, !length_app, (Hnone c Hc), IH.
    simpl. lia.
Qed.

(** One pass of the loop from index [i] on, over records with a header
    that converts: the results are appended in the order of the records,
    each echoes its record, and the events are the chunks of the cards with
    one delay of a second between two cards. *)
Lemma batchLoop_run (rest : list item) :
  forall (len i : Z) (results : list CardResult) (s : State World),
    Forall (printable svc) rest ->
    len = i + Z.of_nat (List.length rest) ->
    exists rs s' chunks,
      batchLoop svc len i rest results s = (Return (results ++ rs), s') /\
      Forall2 (fun x r =>
                 exists card,
                   x = record card /\
                   echoes (headerOf card) (promoOf card)
                     (templateType_or_default (templateOf card)) r)
              rest rs /\
      Forall2 (fun x evs => exists card, x = record card /\ card_events svc card evs)
              rest chunks /\
      Forall (Forall (fun e => is_delay e = false)) chunks /\
      trace s' = trace s ++ List.concat (between [EvDelay 1000] chunks).
Proof.
  induction rest as [|x rest IH]; intros len i results s Hall Hlen.
  - exists [], s, []. simpl. rewrite !app_nil_r. repeat split; constructor.
  - apply Forall_cons_iff in Hall. destruct Hall as [(card & -> & Hh) Hrest].
    cbn [batchLoop properties_of]. unfold bind at 1, lift at 1. unfold bind at 1.
    destruct (processCard_run svc (headerOf card) (promoOf card) (templateOf card) s Hh)
      as (r & s1 & evs & Hrun & Ht & Hd & Hech & _).
    assert (Hev : card_events svc card evs).
    { exists s. rewrite Hrun. exact Ht. }
    rewrite Hrun. unfold bind at 1.
    destruct rest as [|x' rest].
    + replace (i <? len - 1) with false
        by (symmetry; apply Z.ltb_ge; simpl in Hlen; lia).
      simpl. exists [r], s1, [evs]. simpl. rewrite app_nil_r.
      repeat split; eauto.
    + replace (i <? len - 1) with true
        by (symmetry; apply Z.ltb_lt; simpl List.length in Hlen; lia).
      cbn [when delay].
      set (s2 := {| world := setTimeout svc 1000 (world s1);
                    trace := trace s1 ++ [EvDelay 1000] |}).
      destruct (IH len (i + 1) (results ++ [r]) s2 Hrest) as
        (rs & s' & chunks & Hloop & Hres & Hevs & Hq & Ht').
      { simpl List.length in *. lia. }
      exists (r :: rs), s', (evs :: chunks).
      rewrite Hloop, <- app_assoc. simpl.
      split; [reflexivity|]. split; [constructor; eauto|].
      split; [constructor; eauto|]. split; [constructor; assumption|].
      rewrite Ht'. simpl. rewrite Ht.
      destruct chunks as [|c chunks]; [inversion Hevs|].
      simpl. rewrite <- !app_assoc. reflexivity.
Qed.

Lemma Forall2_nth_error {A B : Type} (R : A -> B -> Prop) (l : list A)
    (l' : list B) :
  Forall2 R l l' ->
  forall i a, nth_error l i = Some a ->
              exists b, nth_error l' i = Some b /\ R a b.
Proof.
  induction 1 as [|x y l l' Hxy _ IH]; intros [|i] a E; simpl in *;
    try discriminate.
  - injection E as <-. eauto.
  - eauto.
Qed.

(** [processBatch] returns for records with a header that converts; slot
    [i] of the result echoes record [i]. *)
Lemma processBatch_run (cards : list item) (s : State World) :
  Forall (printable svc) cards ->
  exists results s' chunks,
    processBatch svc cards s = (Return results, s') /\
    Forall2 (fun x r =>
               exists card,
                 x = record card /\
                 echoes (headerOf card) (promoOf card)
                   (templateType_or_default (templateOf card)) r)
            cards results /\
    Forall2 (fun x evs => exists card, x = record card /\ card_events svc card evs)
            cards chunks /\
    Forall (Forall (fun e => is_delay e = false)) chunks /\
    trace s' = trace s ++ List.concat (between [EvDelay 1000] chunks).
Proof.
  intros Hall. unfold processBatch.
  destruct (batchLoop_run cards (Z.of_nat (List.length cards)) 0 [] s Hall)
    as (rs & s' & chunks & H); [lia|].
  exists rs, s', chunks. exact H.
Qed.

(** The loop over records that are followed by another element: each is
    rendered and then the timer fires, before the loop goes on with what
    follows. *)
Lemma batchLoop_waits (pre : list item) :
  forall (tail : list item) (len i : Z) (results : list CardResult)
         (s : State World),
    Forall (printable svc) pre ->
    tail <> [] ->
    len = i + Z.of_nat (List.length pre) + Z.of_nat (List.length tail) ->
    exists rs s1,
      rendered_and_waited svc 1000 pre s rs s1 /\
      batchLoop svc len i (pre ++ tail) results s
      = batchLoop svc len (i + Z.of_nat (List.length pre)) tail (results ++ rs) s1.
Proof.
  induction pre as [|x pre IH]; intros tail len i results s Hall Htail Hlen.
  - exists [], s. split; [constructor|].
    simpl. rewrite Z.add_0_r, app_nil_r. reflexivity.
  - apply Forall_cons_iff in Hall. destruct Hall as [(card & -> & Hh) Hpre].
    destruct (processCard_run svc (headerOf card) (promoOf card) (templateOf card) s Hh)
      as (r & s1 & evs & Hrun & _).
    assert (Hlt : (i <? len - 1) = true).
    { apply Z.ltb_lt. destruct tail; [congruence|].
      simpl List.length in *. lia. }
    destruct (IH tail len (i + 1) (results ++ [r]) (after_timer svc 1000 s1)
                Hpre Htail) as (rs & s2 & Hchain & Hloop).
    { simpl List.length in *. lia. }
    exists (r :: rs), s2. split; [econstructor; eassumption|].
    cbn [app batchLoop properties_of]. unfold bind at 1, lift at 1.
    unfold bind at 1. rewrite Hrun. unfold bind at 1. rewrite Hlt.
    cbn [when delay]. fold (after_timer svc 1000 s1). rewrite Hloop.
    rewrite <- app_assoc. simpl List.length.
    replace (i + 1 + Z.of_nat (List.length pre))
      with (i + Z.of_nat (S (List.length pre))) by lia.
    reflexivity.
Qed.

(** The events of such a chain: one delay after every record, and none
    inside a card. *)
Lemma rendered_and_waited_trace (ms : Z) (cards : list item) (s s' : State World)
    (rs : list CardResult) :
  rendered_and_waited svc ms cards s rs s' ->
  List.length rs = List.length cards /\
  exists evs,
    trace s' = trace s ++ evs /\
    List.length (filter is_delay evs) = List.length cards.
Proof.
  induction 1 as [s|card rest s s1 s' r rs Hrun _ (Hlen & evs & Ht & Hn)].
  - split; [reflexivity|]. exists []. rewrite app_nil_r. auto.
  - split; [simpl; congruence|].
    destruct (processCard_never_waits svc (headerOf card) (promoOf card)
                (templateOf card) s) as (evs1 & Ht1 & Hd1).
    rewrite Hrun in Ht1. cbn [snd] in Ht1.
    exists (evs1 ++ EvDelay ms :: evs). rewrite Ht. cbn [after_timer trace].
    rewrite Ht1, <- !app_assoc. split; [reflexivity|].
    rewrite filter_app, length_app. cbn [filter is_delay List.length].
    rewrite Hn.
    assert (Hnone : filter is_delay evs1 = []).
    { clear Ht1. induction Hd1 as [|e c He _ IHd]; simpl; [reflexivity|].
      rewrite He. exact IHd. }
    rewrite Hnone. reflexivity.
Qed.

(** A batch that ends with a record: the records before the last are
    rendered, each followed by the wait, then the last one, and the results
    are returned. *)
Lemma processBatch_completes (pre : list item) (last : Card.t) (s : State World) :
  Forall (printable svc) pre ->
  converts svc (headerOf last) ->
  exists rs s1 r s',
    rendered_and_waited svc 1000 pre s rs s1 /\
    processCard svc (headerOf last) (promoOf last) (templateOf last) s1
    = (Return r, s') /\
    processBatch svc (pre ++ [record last]) s = (Return (rs ++ [r]), s').
Proof.
  intros Hpre Hlast. unfold processBatch.
  destruct (batchLoop_waits pre [record last]
              (Z.of_nat (List.length (pre ++ [record last]))) 0 [] s Hpre)
    as (rs & s1 & Hchain & Hloop); [discriminate|rewrite length_app; simpl; lia|].
  destruct (processCard_run svc (headerOf last) (promoOf last) (templateOf last) s1
              Hlast) as (r & s' & evs & Hrun & _).
  exists rs, s1, r, s'. split; [exact Hchain|]. split; [exact Hrun|].
  rewrite Hloop. cbn [batchLoop properties_of app]. unfold bind at 1, lift at 1.
  unfold bind at 1. rewrite Hrun. unfold bind at 1.
  replace (0 + Z.of_nat (List.length pre)
           <? Z.of_nat (List.length (pre ++ [record last])) - 1) with false
    by (symmetry; apply Z.ltb_ge; rewrite length_app; simpl; lia).
  reflexivity.
Qed.

(** A batch with a record whose header does not convert to a string: the
    records before it are rendered, each followed by the wait, and the
    batch throws the error of the conversion in the state they leave. The
    results of those records are lost, and what follows is never read. *)
Lemma processBatch_aborts (pre post : list item) (bad : Card.t) (e : Error.t)
    (s : State World) :
  Forall (printable svc) pre ->
  ToString (Number_toString svc) (headerOf bad) = Throw e ->
  exists rs s1,
    rendered_and_waited svc 1000 pre s rs s1 /\
    processBatch svc (pre ++ record bad :: post) s = (Throw e, s1).
Proof.
  intros Hpre Hbad. unfold processBatch.
  destruct (batchLoop_waits pre (record bad :: post)
              (Z.of_nat (List.length (pre ++ record bad :: post))) 0 [] s Hpre)
    as (rs & s1 & Hchain & Hloop); [discriminate|rewrite length_app; simpl; lia|].
  exists rs, s1. split; [exact Hchain|].
  rewrite Hloop. cbn [batchLoop properties_of]. unfold bind at 1, lift at 1.
  unfold bind at 1.
  rewrite (processCard_throws svc _ _ _ e s1 Hbad). reflexivity.
Qed.

(** A batch with [null] among its elements throws the TypeError of the
    property read, outside every [try]. *)
Lemma processBatch_null (pre post : list item) (s : State World) :
  Forall (printable svc) pre ->
  exists rs s1,
    rendered_and_waited svc 1000 pre s rs s1 /\
    processBatch svc (pre ++ null_item :: post) s
    = (Throw (new_Error "Cannot read properties of null (reading 'header')"), s1).
Proof.
  intros Hpre. unfold processBatch.
  destruct (batchLoop_waits pre (null_item :: post)
              (Z.of_nat (List.length (pre ++ null_item :: post))) 0 [] s Hpre)
    as (rs & s1 & Hchain & Hloop); [discriminate|rewrite length_app; simpl; lia|].
  exists rs, s1. split; [exact Hchain|]. rewrite Hloop. reflexivity.
Qed.

End Batch.

(* ================================================================== *)
(** ** The properties of the pipeline *)

(** C2, as the code behaves. [processCard] does throw: for a header that
    is an object with a property of its own named [toString], as the body
    [{"header": {"toString": 1}}] gives it, the template literal that prints
    the header at the first statement of the [try] throws a TypeError; the
    [catch] prints the header in the same way before it builds the failure
    result, and throws the same TypeError. No result is returned, for any
    promo, template, state and behaviour of the outside, and nothing has
    been requested or reported. *)
Theorem processCard_throws_in_catch {World : Type} (svc : Services World)
    (properties : list (string * data)) (promoText templateType : data)
    (s : State World) :
  hasOwn "toString" properties = true ->
  ToString (Number_toString svc) (object properties)
  = Throw (new_Error "Cannot convert object to primitive value") /\
  processCard svc (object properties) promoText templateType s
  = (Throw (new_Error "Cannot convert object to primitive value"), s).
Proof.
  intros Hown.
  assert (Hh : ToString (Number_toString svc) (object properties)
               = Throw (new_Error "Cannot convert object to primitive value")).
  { cbn [ToString]. rewrite Hown. reflexivity. }
  split; [exact Hh|]. apply processCard_throws, Hh.
Qed.

(** The header [{"toString": 1}], with services that answer. *)
Lemma processCard_throws_in_catch_witness :
  processCard (Demo.services 1000 true) Demo.no_string (str "50% off") undefined
    Demo.start
  = (Throw (new_Error "Cannot convert object to primitive value"), Demo.start).
Proof.
  apply (processCard_throws_in_catch (Demo.services 1000 true)
           [ ("toString", numeric (Num.ofZ 1)) ] (str "50% off") undefined
           Demo.start).
  reflexivity.
Defined.

(** C1, as the code behaves. A batch with a record whose header does not
    convert to a string returns no sequence of results. The records before
    that record are rendered, each followed by the wait; then [processCard]
    throws, nothing in [processBatch] catches it, and the batch throws: the
    results of the records before are lost with it, and the records after
    are never read. *)
Theorem processBatch_loses_the_results {World : Type} (svc : Services World)
    (pre post : list item) (bad : Card.t) (e : Error.t) (s : State World) :
  Forall (printable svc) pre ->
  ToString (Number_toString svc) (headerOf bad) = Throw e ->
  exists rs s1,
    rendered_and_waited svc 1000 pre s rs s1 /\
    List.length rs = List.length pre /\
    processBatch svc (pre ++ record bad :: post) s = (Throw e, s1) /\
    forall results s', processBatch svc (pre ++ record bad :: post) s
                       <> (Return results, s').
Proof.
  intros Hpre Hbad.
  destruct (processBatch_aborts svc pre post bad e s Hpre Hbad)
    as (rs & s1 & Hchain & Hrun).
  exists rs, s1. split; [exact Hchain|].
  split; [exact (proj1 (rendered_and_waited_trace svc _ _ _ _ _ Hchain))|].
  split; [exact Hrun|]. intros results s'. rewrite Hrun. discriminate.
Qed.

(** Three records, the second with the header [{"toString": 1}]: the
    first is rendered, and there is no result. *)
Lemma processBatch_loses_the_results_witness :
  exists s1,
    processBatch (Demo.services 1000 true) Demo.three_cards Demo.start
    = (Throw (new_Error "Cannot convert object to primitive value"), s1).
Proof.
  destruct (processBatch_loses_the_results (Demo.services 1000 true)
              [ record (Demo.card "Summer Sale" "50% off all items!") ]
              [ record (Demo.card "New Arrivals" "Latest collection") ]
              Demo.unprintable
              (new_Error "Cannot convert object to primitive value") Demo.start)
    as (rs & s1 & _ & _ & Hrun & _).
  - constructor; [|constructor]. eexists. split; [reflexivity|].
    apply converts_plain.
  - reflexivity.
  - exists s1. exact Hrun.
Defined.

(** C3, as the code behaves. For the empty promo string the word wrap
    does not fail, and it produces one line, the empty string, whatever the
    width and the font size are: not zero lines. The layout of a canvas of
    any width has this one empty promo line. *)
Theorem wrapText_empty_promo (maxWidth fontSize width : number) :
  wrapText "" maxWidth fontSize = [""] /\
  promoLines (str "") width = Return [""].
Proof.
  assert (H : forall mw fs, wrapText "" mw fs = [""]).
  { intros mw fs. unfold wrapText, wrapWords. simpl.
    destruct (Num.length_gt 0 (maxCharsOf mw fs)); reflexivity. }
  split; [apply H|]. unfold promoLines. rewrite H. reflexivity.
Qed.

(** C4. For every promo string the word wrap drops no word: the words of
    the lines, in the order of the lines, are the words of the text. A word
    is a maximal run of characters that are not white space. *)
Theorem wrapText_keeps_words (text : string) (maxWidth fontSize : number) :
  flat_map Str.words (wrapText text maxWidth fontSize) = Str.words text.
Proof.
  unfold wrapText. rewrite WrapFacts.wrapWords_finish.
  rewrite WrapFacts.finish_fold_words by (left; reflexivity).
  simpl. apply StrFacts.words_split.
Qed.

(** C6. A word longer than the wrap width is a line of its own, unsplit:
    a promo that is this one word is wrapped to this one line, and in every
    promo the word sits alone on its line, between the lines of what comes
    before it and the lines of what comes after it. The word has no white
    space at its two ends. *)
Theorem wrapText_overlong_word (maxWidth fontSize : number) (w : string) :
  Str.trim w = w ->
  Num.length_gt (String.length w) (maxCharsOf maxWidth fontSize) = true ->
  (Str.no_space w = true -> wrapText w maxWidth fontSize = [w]) /\
  (forall text pre post,
      Str.split text = pre ++ w :: post ->
      wrapText text maxWidth fontSize =
      wrapWords (maxCharsOf maxWidth fontSize) pre
        ++ w :: wrapWords (maxCharsOf maxWidth fontSize) post).
Proof.
  intros Htrim Hlong.
  assert (Hgen : forall text pre post,
             Str.split text = pre ++ w :: post ->
             wrapText text maxWidth fontSize =
             wrapWords (maxCharsOf maxWidth fontSize) pre
               ++ w :: wrapWords (maxCharsOf maxWidth fontSize) post).
  { intros text pre post Hs. unfold wrapText. rewrite Hs.
    rewrite (WrapFacts.wrapWords_overlong _ pre post w Hlong), Htrim.
    reflexivity. }
  split; [|exact Hgen].
  intros Hns. apply (Hgen w [] []). apply StrFacts.split_no_space, Hns.
Qed.

(** On a canvas 100 wide a line holds 33 characters. *)
Lemma wrapText_overlong_word_witness :
  wrapText "Supercalifragilisticexpialidocious"
    (Num.mul (Num.ofZ 100) Num.lit_0_8) (promoFontSize (Num.ofZ 100))
  = ["Supercalifragilisticexpialidocious"].
Proof.
  apply (wrapText_overlong_word
           (Num.mul (Num.ofZ 100) Num.lit_0_8) (promoFontSize (Num.ofZ 100))
           "Supercalifragilisticexpialidocious");
    vm_compute; reflexivity.
Defined.

(** C7, as the code behaves. A batch with a record whose header does not
    convert to a string waits after each of the records before that record,
    once per record and with the timer fired in the world each of them left,
    and then throws: the delays are as many as the records before, and
    fewer than [n - 1] as soon as a record follows. *)
Theorem processBatch_delays_until_it_throws {World : Type} (svc : Services World)
    (pre post : list item) (bad : Card.t) (e : Error.t) (s : State World) :
  Forall (printable svc) pre ->
  ToString (Number_toString svc) (headerOf bad) = Throw e ->
  exists rs s1 evs,
    rendered_and_waited svc 1000 pre s rs s1 /\
    snd (processBatch svc (pre ++ record bad :: post) s) = s1 /\
    trace s1 = trace s ++ evs /\
    List.length (filter is_delay evs) = List.length pre /\
    (post <> [] ->
     (List.length (filter is_delay evs)
      < List.length (pre ++ record bad :: post) - 1)%nat).
Proof.
  intros Hpre Hbad.
  destruct (processBatch_aborts svc pre post bad e s Hpre Hbad)
    as (rs & s1 & Hchain & Hrun).
  destruct (rendered_and_waited_trace svc _ _ _ _ _ Hchain)
    as (_ & evs & Ht & Hn).
  exists rs, s1, evs. split; [exact Hchain|].
  split; [rewrite Hrun; reflexivity|]. split; [exact Ht|].
  split; [exact Hn|]. intros Hpost. rewrite Hn, length_app.
  destruct post; [congruence|]. simpl. lia.
Qed.

(** Three records, the second with the header [{"toString": 1}]: one
    delay, not two. *)
Lemma processBatch_delays_until_it_throws_witness :
  List.length
    (filter is_delay
       (trace (snd (processBatch (Demo.services 1000 true) Demo.three_cards
                      Demo.start)))) = 1%nat.
Proof.
  destruct (processBatch_delays_until_it_throws (Demo.services 1000 true)
              [ record (Demo.card "Summer Sale" "50% off all items!") ]
              [ record (Demo.card "New Arrivals" "Latest collection") ]
              Demo.unprintable
              (new_Error "Cannot convert object to primitive value") Demo.start)
    as (rs & s1 & evs & _ & Hs1 & Ht & Hn & _).
  - constructor; [|constructor]. eexists. split; [reflexivity|].
    apply converts_plain.
  - reflexivity.
  - change Demo.three_cards
      with ([ record (Demo.card "Summer Sale" "50% off all items!") ]
            ++ record Demo.unprintable
            :: [ record (Demo.card "New Arrivals" "Latest collection") ]).
    rewrite Hs1, Ht. exact Hn.
Defined.

(** C8, as the code behaves. The name [constructor] is not in the table,
    and it does not resolve to the [default] entry: the lookup finds the
    member every object inherits, which is truthy and has no [nodeId]. For
    every behaviour of the outside, [processCard] with this template name
    asks the design tool for the node [undefined], not for the node of the
    default template. *)
Theorem resolve_inherited_name {World : Type} (svc : Services World)
    (headerText promoText : value) (s : State World) :
  own TEMPLATE_CONFIG "constructor" = None /\
  resolve TEMPLATE_CONFIG "constructor" = Inherited "constructor" /\
  get TEMPLATE_CONFIG "default" = Own {| nodeId := "1:14" |} /\
  nodeId_of (resolve TEMPLATE_CONFIG "constructor") = Return undefined /\
  exists evs,
    trace (snd (processCard svc headerText promoText (str "constructor") s))
    = trace s ++ EvExport undefined Num.lit_2 :: evs.
Proof.
  repeat (split; [reflexivity|]).
  apply (starts_processCard svc headerText promoText (str "constructor") undefined).
  - apply converts_plain.
  - reflexivity.
Qed.

(** A name that is neither in the table nor inherited: the card is rendered
    from the node of the default template. *)
Lemma unknown_name_exports_default {World : Type} (svc : Services World)
    (headerText promoText : value) (name : string) (s : State World) :
  own TEMPLATE_CONFIG name = None ->
  existsb (String.eqb name) Object_prototype_keys = false ->
  exists evs,
    trace (snd (processCard svc headerText promoText (str name) s))
    = trace s ++ EvExport (str "1:14") Num.lit_2 :: evs.
Proof.
  intros Hown Hproto.
  apply (starts_processCard svc headerText promoText (str name) (str "1:14")).
  - apply converts_plain.
  - cbn [templateType_or_default]. unfold nodeOf. cbn [ToString].
    unfold resolve, get. rewrite Hown, Hproto. reflexivity.
Qed.

(** With services that answer, a name that is in no table is rendered from
    the default template, and the inherited name is not rendered at all. *)
Example inherited_name_fails_the_card :
  map (fun t => match fst (processCard (Demo.services 1000 true) (str "Summer Sale")
                             (str "50% off") (str t) Demo.start) with
                | Return r => (success r, error r)
                | Throw e => (false, Some (Error.message e))
                end)
      [ "no such template"; "constructor" ]
  = [ (true, None); (false, Some "No image URL returned from Figma") ].
Proof. vm_compute. reflexivity. Qed.



(* ================================================================== *)
(** ** Template resolution *)

(** A name that is neither in the table nor inherited resolves to the
    [default] entry. *)
Lemma resolve_unknown (t : table) (name : string) (d : TemplateConfig) :
  own t "default" = Some d ->
  own t name = None ->
  existsb (String.eqb name) Object_prototype_keys = false ->
  resolve t name = Own d.
Proof.
  intros Hd Hn Hp. unfold resolve, get. rewrite Hn, Hp, Hd. reflexivity.
Qed.

(** With a [default] entry the resolution yields an object for every name,
    and reading its [nodeId] does not throw. *)
Lemma resolve_total (t : table) (name : string) (d : TemplateConfig) :
  own t "default" = Some d ->
  exists v, nodeId_of (resolve t name) = Return v.
Proof.
  intros Hd.
  destruct (own t name) as [c|] eqn:Hn;
    destruct (existsb (String.eqb name) Object_prototype_keys) eqn:Hp;
    unfold resolve, get; rewrite ?Hn, ?Hp; cbn [property_truthy nodeId_of];
    rewrite ?Hd; cbn [nodeId_of]; eauto.
Qed.

(* ================================================================== *)
(** ** [escapeXml] *)

Module EscapeFacts.
Import Str StrFacts.

Lemma replaceAll_app (c : ascii) (by_ a b : string) :
  replaceAll c by_ (a +++ b) = replaceAll c by_ a +++ replaceAll c by_ b.
Proof.
  induction a as [|d a IH]; simpl; [reflexivity|].
  destruct (Ascii.eqb d c); rewrite IH; [|reflexivity].
  symmetry. apply append_assoc.
Qed.

(** The five passes of [escapeXml] are one pass, character by character:
    no pass touches what an earlier one has written. *)
Lemma escapeXml_cons (c : ascii) (r : string) :
  escapeXml (String c r) = escapeChar c +++ escapeXml r.
Proof.
  unfold escapeXml, escapeChar. cbn [replaceAll].
  destruct (Ascii.eqb_spec c "&"%char) as [->|Hamp].
  { rewrite !replaceAll_app. reflexivity. }
  cbn [replaceAll].
  destruct (Ascii.eqb_spec c "<"%char) as [->|Hlt].
  { rewrite !replaceAll_app. reflexivity. }
  cbn [replaceAll].
  destruct (Ascii.eqb_spec c ">"%char) as [->|Hgt].
  { rewrite !replaceAll_app. reflexivity. }
  cbn [replaceAll].
  destruct (Ascii.eqb_spec c (ascii_of_nat 34)) as [->|Hdq].
  { rewrite !replaceAll_app. reflexivity. }
  cbn [replaceAll].
  destruct (Ascii.eqb_spec c "'"%char) as [->|Hap]; reflexivity.
Qed.

Lemma escapeXml_app (a b : string) :
  escapeXml (a +++ b) = escapeXml a +++ escapeXml b.
Proof.
  induction a as [|c a IH]; [reflexivity|].
  simpl String.append. rewrite !escapeXml_cons, IH, append_assoc. reflexivity.
Qed.

Lemma every_app (p : ascii -> bool) (a b : string) :
  every p (a +++ b) = every p a && every p b.
Proof.
  induction a as [|c a IH]; simpl; [reflexivity|].
  rewrite IH, andb_assoc. reflexivity.
Qed.

End EscapeFacts.

(** X1. The text [escapeXml] returns holds none of the characters [<],
    [>], double quote and apostrophe, whatever the input is. *)
Theorem escapeXml_no_markup (text : string) :
  every (fun c => negb (Ascii.eqb c "<"%char || Ascii.eqb c ">"%char
                        || Ascii.eqb c (ascii_of_nat 34) || Ascii.eqb c "'"%char))
        (escapeXml text) = true.
Proof.
  induction text as [|c r IH]; [reflexivity|].
  rewrite EscapeFacts.escapeXml_cons, EscapeFacts.every_app, IH, andb_true_r.
  unfold escapeChar.
  destruct (Ascii.eqb_spec c "&"%char); [reflexivity|].
  destruct (Ascii.eqb_spec c "<"%char) as [|Hlt]; [reflexivity|].
  destruct (Ascii.eqb_spec c ">"%char) as [|Hgt]; [reflexivity|].
  destruct (Ascii.eqb_spec c (ascii_of_nat 34)) as [|Hdq]; [reflexivity|].
  destruct (Ascii.eqb_spec c "'"%char) as [|Hap]; [reflexivity|].
  cbn [every]. rewrite andb_true_r.
  apply Ascii.eqb_neq in Hlt, Hgt, Hdq, Hap.
  rewrite Hlt, Hgt, Hdq, Hap. reflexivity.
Qed.

(** X2. [escapeXml] loses nothing: two texts with the same escaped text
    are the same text. *)
Theorem escapeXml_injective (a b : string) :
  escapeXml a = escapeXml b -> a = b.
Proof.
  revert b. induction a as [|c a IH]; intros [|d b] E.
  - reflexivity.
  - rewrite EscapeFacts.escapeXml_cons in E. unfold escapeChar in E.
    repeat match type of E with
           | context [Ascii.eqb ?x ?y] => destruct (Ascii.eqb x y)
           end; discriminate.
  - rewrite EscapeFacts.escapeXml_cons in E. unfold escapeChar in E.
    repeat match type of E with
           | context [Ascii.eqb ?x ?y] => destruct (Ascii.eqb x y)
           end; discriminate.
  - rewrite !EscapeFacts.escapeXml_cons in E. unfold escapeChar in E.
    destruct (Ascii.eqb_spec c "&"%char) as [->|Hc1];
      [|destruct (Ascii.eqb_spec c "<"%char) as [->|Hc2];
        [|destruct (Ascii.eqb_spec c ">"%char) as [->|Hc3];
          [|destruct (Ascii.eqb_spec c (ascii_of_nat 34)) as [->|Hc4];
            [|destruct (Ascii.eqb_spec c "'"%char) as [->|Hc5]]]]];
    (destruct (Ascii.eqb_spec d "&"%char) as [->|Hd1];
      [|destruct (Ascii.eqb_spec d "<"%char) as [->|Hd2];
        [|destruct (Ascii.eqb_spec d ">"%char) as [->|Hd3];
          [|destruct (Ascii.eqb_spec d (ascii_of_nat 34)) as [->|Hd4];
            [|destruct (Ascii.eqb_spec d "'"%char) as [->|Hd5]]]]]);
    simpl in E; try discriminate;
    try (injection E as E; f_equal; apply IH; exact E);
    try (injection E as Ec E; congruence).
    injection E as Ec E. subst d. f_equal. apply IH. exact E.
Qed.

(** A header with markup and its escaped text. *)
Lemma escapeXml_injective_witness :
  "Tom & Jerry's <b>" = "Tom & Jerry's <b>".
Proof.
  apply (escapeXml_injective "Tom & Jerry's <b>" "Tom & Jerry's <b>").
  reflexivity.
Defined.

(** X3. A text without [&], [<], [>], double quote and apostrophe is left
    as it is. *)
Theorem escapeXml_plain (text : string) :
  every (fun c => negb (is_markup c)) text = true -> escapeXml text = text.
Proof.
  induction text as [|c r IH]; [reflexivity|].
  cbn [every]. intros H. apply andb_true_iff in H. destruct H as [Hc Hr].
  rewrite EscapeFacts.escapeXml_cons, (IH Hr).
  unfold is_markup in Hc. apply negb_true_iff in Hc.
  repeat (apply orb_false_iff in Hc; destruct Hc as [Hc ?]).
  unfold escapeChar.
  repeat match goal with H : Ascii.eqb _ _ = false |- _ => rewrite H; clear H end.
  reflexivity.
Qed.

Lemma escapeXml_plain_witness : escapeXml "Summer Sale 50%" = "Summer Sale 50%".
Proof. apply (escapeXml_plain "Summer Sale 50%"). reflexivity. Defined.

(* ================================================================== *)
(** ** More on the word wrap *)

Module WrapMore.
Import Str StrFacts WrapFacts.

Lemma trimEnd_idem (s : string) : trimEnd (trimEnd s) = trimEnd s.
Proof.
  induction s as [|c r IH]; [reflexivity|].
  cbn [trimEnd]. destruct (trimEnd r) as [|d r'] eqn:Hr.
  - destruct (is_ws c) eqn:Hc; [reflexivity|]. simpl. rewrite Hc. reflexivity.
  - change (trimEnd (String c (String d r')))
      with (match trimEnd (String d r') with
            | "" => if is_ws c then "" else String c ""
            | x => String c x
            end).
    rewrite IH. reflexivity.
Qed.

(** What [trimStart] returns does not begin with white space, and
    [trimEnd] keeps such a beginning. *)
Lemma trimStart_trimEnd (s : string) :
  trimStart (trimEnd (trimStart s)) = trimEnd (trimStart s).
Proof.
  induction s as [|c r IH]; [reflexivity|].
  cbn [trimStart]. destruct (is_ws c) eqn:Hc; [exact IH|].
  cbn [trimEnd]. destruct (trimEnd r); rewrite ?Hc; cbn [trimStart]; rewrite Hc;
    reflexivity.
Qed.

Lemma trim_idem (s : string) : trim (trim s) = trim s.
Proof. unfold trim. rewrite trimStart_trimEnd. apply trimEnd_idem. Qed.

Lemma length_trimStart (s : string) :
  (String.length (trimStart s) <= String.length s)%nat.
Proof.
  induction s as [|c r IH]; simpl; [lia|]. destruct (is_ws c); simpl; lia.
Qed.

Lemma length_trimEnd (s : string) :
  (String.length (trimEnd s) <= String.length s)%nat.
Proof.
  induction s as [|c r IH]; simpl; [lia|].
  destruct (trimEnd r); [destruct (is_ws c)|]; simpl in *; lia.
Qed.

Lemma length_trim (s : string) : (String.length (trim s) <= String.length s)%nat.
Proof.
  unfold trim. pose proof (length_trimEnd (trimStart s)).
  pose proof (length_trimStart s). lia.
Qed.

(** What does not exceed the limit: shorter strings do not either. *)
Lemma length_gt_anti (n n' : nat) (x : number) :
  (n <= n')%nat -> Num.length_gt n' x = false -> Num.length_gt n x = false.
Proof.
  intros Hn H. destruct (Num.length_gt n x) eqn:E; [|reflexivity].
  rewrite (length_gt_mono n n' x Hn E) in H. discriminate.
Qed.

Lemma spaced_split (s : string) : spaced (split s) = s +++ " ".
Proof.
  induction s as [|c r IH]; [reflexivity|].
  cbn [split]. destruct (Ascii.eqb_spec c space) as [->|Hc].
  - cbn [spaced]. rewrite IH. reflexivity.
  - destruct (split_cons r) as (w & ws & Hs). rewrite Hs in *.
    cbn [spaced] in *. simpl. f_equal. exact IH.
Qed.

(** While the whole of what is left fits, the loop only appends. *)
Lemma fold_wrapWord_fits (mc : number) (ws : list string) (L : list string)
    (cur : string) :
  Num.length_gt (String.length (cur +++ spaced ws) - 1) mc = false ->
  fold_left (wrapWord mc) ws (L, cur) = (L, cur +++ spaced ws).
Proof.
  revert cur. induction ws as [|w ws IH]; intros cur Hfit.
  - simpl. rewrite append_nil_r. reflexivity.
  - cbn [fold_left wrapWord spaced] in *.
    assert (Hw : Num.length_gt (String.length (cur +++ w)) mc = false).
    { apply length_gt_anti with (2 := Hfit). rewrite !length_append. simpl. lia. }
    rewrite Hw, IH.
    + rewrite !append_assoc. reflexivity.
    + rewrite !append_assoc. exact Hfit.
Qed.

Lemma wrapWords_fits (mc : number) (text : string) :
  Num.length_gt (String.length text) mc = false ->
  wrapWords mc (split text) = [trim text].
Proof.
  intros Hfit. rewrite wrapWords_finish, fold_wrapWord_fits.
  - simpl. rewrite spaced_split. unfold finish. simpl.
    rewrite nonempty_append_char, trim_space_end. reflexivity.
  - simpl. rewrite spaced_split, length_append. simpl.
    replace (String.length text + 1 - 1)%nat with (String.length text) by lia.
    exact Hfit.
Qed.

Lemma current_fits_push (mc : number) (all : list string) (cur : string) :
  current_fits mc all cur -> nonempty cur = true -> line_fits mc all (trim cur).
Proof.
  intros [->|(x & -> & [Hx|Hx])] Hne; [discriminate| |].
  - left. rewrite trim_space_end.
    apply length_gt_anti with (2 := Hx). apply length_trim.
  - right. exists x. split; [exact Hx|apply trim_space_end].
Qed.

Lemma fold_wrapWord_fit (mc : number) (all ws : list string) (L : list string)
    (cur : string) :
  (forall w, In w ws -> In w all) ->
  Forall (line_fits mc all) L -> current_fits mc all cur ->
  Forall (line_fits mc all) (finish (fold_left (wrapWord mc) ws (L, cur))).
Proof.
  revert L cur. induction ws as [|w ws IH]; intros L cur Hin HL Hcur.
  - unfold finish. simpl. destruct (nonempty cur) eqn:Hne; [|exact HL].
    apply Forall_app. split; [exact HL|].
    constructor; [apply current_fits_push; assumption|constructor].
  - cbn [fold_left wrapWord].
    destruct (Num.length_gt (String.length (cur +++ w)) mc) eqn:Hw.
    + apply IH.
      * intros x Hx. apply Hin. right. exact Hx.
      * destruct (nonempty cur) eqn:Hne; [|exact HL].
        apply Forall_app. split; [exact HL|].
        constructor; [apply current_fits_push; assumption|constructor].
      * right. exists w. split; [reflexivity|]. right. apply Hin. left. reflexivity.
    + apply IH.
      * intros x Hx. apply Hin. right. exact Hx.
      * exact HL.
      * right. exists (cur +++ w). rewrite append_assoc.
        split; [reflexivity|]. left. exact Hw.
Qed.

Lemma fold_wrapWord_trimmed (mc : number) (ws : list string) (L : list string)
    (cur : string) :
  Forall (fun l => trim l = l) L ->
  Forall (fun l => trim l = l) (finish (fold_left (wrapWord mc) ws (L, cur))).
Proof.
  revert L cur. induction ws as [|w ws IH]; intros L cur HL.
  - unfold finish. simpl. destruct (nonempty cur); [|exact HL].
    apply Forall_app. split; [exact HL|].
    constructor; [apply trim_idem|constructor].
  - cbn [fold_left wrapWord].
    destruct (Num.length_gt _ mc); [|apply IH; exact HL].
    apply IH. destruct (nonempty cur); [|exact HL].
    apply Forall_app. split; [exact HL|].
    constructor; [apply trim_idem|constructor].
Qed.

(** The number of lines: one at least once a word has been read, and never
    more than the words. *)
Lemma fold_wrapWord_count (mc : number) (ws : list string) (L : list string)
    (cur : string) :
  (List.length (finish (fold_left (wrapWord mc) ws (L, cur)))
   <= List.length L + (if nonempty cur then 1 else 0) + List.length ws)%nat /\
  (ws <> [] -> 1 <= List.length (finish (fold_left (wrapWord mc) ws (L, cur))))%nat.
Proof.
  revert L cur. induction ws as [|w ws IH]; intros L cur.
  - split; [|congruence]. unfold finish. simpl.
    destruct (nonempty cur); rewrite ?length_app; simpl; lia.
  - cbn [fold_left wrapWord].
    destruct (Num.length_gt _ mc).
    + destruct (IH (if nonempty cur then L ++ [trim cur] else L) (w +++ " "))
        as [Hup Hlo].
      rewrite nonempty_append_char in Hup.
      split.
      * destruct (nonempty cur); rewrite ?length_app in Hup; simpl in *; lia.
      * intros _. destruct ws as [|w' ws'].
        -- unfold finish. simpl. rewrite nonempty_append_char, length_app.
           simpl. lia.
        -- apply Hlo. discriminate.
    + destruct (IH L (cur +++ w +++ " ")) as [Hup Hlo].
      replace (cur +++ w +++ " ") with ((cur +++ w) +++ " ") in *
        by apply append_assoc.
      rewrite nonempty_append_char in Hup.
      split.
      * destruct (nonempty cur); simpl in *; lia.
      * intros _. destruct ws as [|w' ws'].
        -- unfold finish. simpl. rewrite nonempty_append_char, length_app.
           simpl. lia.
        -- apply Hlo. discriminate.
Qed.

End WrapMore.

(** X4. Every line [wrapText] returns is trimmed: it has no white space
    at its beginning and none at its end. *)
Theorem wrapText_lines_trimmed (text : string) (maxWidth fontSize : number) :
  Forall (fun line => Str.trim line = line) (wrapText text maxWidth fontSize).
Proof.
  unfold wrapText. rewrite WrapFacts.wrapWords_finish.
  apply WrapMore.fold_wrapWord_trimmed. constructor.
Qed.

(** X5. A text that is not longer than the limit of characters stays on
    one line, the trimmed text; so does every text when the limit is NaN or
    [Infinity]. *)
Theorem wrapText_fits_one_line (text : string) (maxWidth fontSize : number) :
  Num.length_gt (String.length text) (maxCharsOf maxWidth fontSize) = false ->
  wrapText text maxWidth fontSize = [Str.trim text].
Proof. intros Hfit. unfold wrapText. apply WrapMore.wrapWords_fits, Hfit. Qed.

Lemma wrapText_fits_one_line_witness :
  wrapText " Latest collection " (Num.mul (Num.ofZ 1000) Num.lit_0_8)
    (promoFontSize (Num.ofZ 1000)) = ["Latest collection"].
Proof.
  apply (wrapText_fits_one_line " Latest collection "
           (Num.mul (Num.ofZ 1000) Num.lit_0_8) (promoFontSize (Num.ofZ 1000))).
  vm_compute. reflexivity.
Defined.

(** X6. No line of several words is too long: every line [wrapText]
    returns is within the limit of characters, or it is one item of
    [text.split(' ')], trimmed, that is too long by itself. *)
Theorem wrapText_line_width (text : string) (maxWidth fontSize : number) :
  Forall (fun line =>
            Num.length_gt (String.length line) (maxCharsOf maxWidth fontSize) = false
            \/ exists w, In w (Str.split text) /\ line = Str.trim w)
         (wrapText text maxWidth fontSize).
Proof.
  unfold wrapText. rewrite WrapFacts.wrapWords_finish.
  apply (WrapMore.fold_wrapWord_fit _ (Str.split text)).
  - auto.
  - constructor.
  - left. reflexivity.
Qed.

(** X7. [wrapText] returns one line at least, also for a text of spaces
    only, and not more lines than [text.split(' ')] has items. *)
Theorem wrapText_line_count (text : string) (maxWidth fontSize : number) :
  (1 <= List.length (wrapText text maxWidth fontSize)
   <= List.length (Str.split text))%nat.
Proof.
  unfold wrapText. rewrite WrapFacts.wrapWords_finish.
  destruct (WrapMore.fold_wrapWord_count (maxCharsOf maxWidth fontSize)
              (Str.split text) [] "") as [Hup Hlo].
  split; [|simpl in Hup; exact Hup].
  apply Hlo. destruct (StrFacts.split_cons text) as (w & ws & ->). discriminate.
Qed.

(** X8. On a canvas less than 13 pixels wide the promo font size rounds
    to 0, the width of a character is 0 and the limit of characters is the
    result of a division by it, NaN or [Infinity]: the promo is not wrapped,
    it is one line whatever its length. *)
Theorem promoLines_tiny_canvas (text : string) (W : Z) :
  0 <= W <= 12 ->
  promoFontSize (Num.ofZ W) = Num.ofZ 0 /\
  promoLines (str text) (Num.ofZ W) = Return [Str.trim text].
Proof.
  intros HW.
  assert (Hmc : promoFontSize (Num.ofZ W) = Num.ofZ 0 /\
                (maxCharsOf (Num.mul (Num.ofZ W) Num.lit_0_8)
                   (promoFontSize (Num.ofZ W)) = S754_nan \/
                 maxCharsOf (Num.mul (Num.ofZ W) Num.lit_0_8)
                   (promoFontSize (Num.ofZ W)) = S754_infinity false)).
  { assert (Hcases : W = 0 \/ W = 1 \/ W = 2 \/ W = 3 \/ W = 4 \/ W = 5 \/ W = 6
                     \/ W = 7 \/ W = 8 \/ W = 9 \/ W = 10 \/ W = 11 \/ W = 12)
      by lia.
    repeat (destruct Hcases as [->|Hcases]); try subst W;
      (split; [vm_compute; reflexivity|]);
      first [left; vm_compute; reflexivity | right; vm_compute; reflexivity]. }
  destruct Hmc as [Hfont Hmc]. split; [exact Hfont|].
  unfold promoLines. f_equal. apply wrapText_fits_one_line.
  destruct Hmc as [-> | ->]; reflexivity.
Qed.

Lemma promoLines_tiny_canvas_witness :
  promoLines (str "50% off all items! Limited time offer on selected products.")
    (Num.ofZ 10)
  = Return ["50% off all items! Limited time offer on selected products."].
Proof.
  apply (promoLines_tiny_canvas
           "50% off all items! Limited time offer on selected products." 10).
  lia.
Defined.

(* ================================================================== *)
(** ** The name of the uploaded file *)

Module SlugFacts.
Import Str StrFacts.

Lemma length_substring_0 (n : nat) (s : string) :
  (String.length (String.substring 0 n s) <= n)%nat.
Proof.
  revert s. induction n as [|n IH]; intros [|c s]; simpl; try lia.
  specialize (IH s). lia.
Qed.

Lemma every_substring_0 (p : ascii -> bool) (n : nat) (s : string) :
  every p s = true -> every p (String.substring 0 n s) = true.
Proof.
  revert s. induction n as [|n IH]; intros [|c s]; simpl; try reflexivity.
  intros H. apply andb_true_iff in H. destruct H as [Hc Hs].
  rewrite Hc, (IH s Hs). reflexivity.
Qed.

Lemma replaceWsRuns_from_no_ws (inrun : bool) (s : string) :
  every (fun c => negb (is_ws c)) (replaceWsRuns_from inrun "_" s) = true.
Proof.
  revert inrun. induction s as [|c r IH]; intros inrun; [reflexivity|].
  cbn [replaceWsRuns_from]. destruct (is_ws c) eqn:Hc.
  - destruct inrun; simpl; apply IH.
  - cbn [every]. rewrite Hc, IH. reflexivity.
Qed.

End SlugFacts.

(** X9. The part of the header that goes into the name of the uploaded
    file has at most 20 characters and no white space, whatever the header
    is. *)
Theorem slug_short_and_without_spaces (headerText part : string) :
  slug (str headerText) = Return part ->
  (String.length part <= 20)%nat /\
  every (fun c => negb (Str.is_ws c)) part = true.
Proof.
  unfold slug. intros E. injection E as <-. split.
  - apply SlugFacts.length_substring_0.
  - apply SlugFacts.every_substring_0, SlugFacts.replaceWsRuns_from_no_ws.
Qed.

Lemma slug_short_and_without_spaces_witness :
  (String.length "Summer_Sale_of_the_y" <= 20)%nat /\
  every (fun c => negb (Str.is_ws c)) "Summer_Sale_of_the_y" = true.
Proof.
  apply (slug_short_and_without_spaces "Summer  Sale of	the year 2024").
  reflexivity.
Defined.

(* ================================================================== *)
(** ** What a run of the pipeline does and does not do *)

Section Conduct.

Context {World : Type}.

Lemma only_ret {A : Type} (P : event -> bool) (a : A) : emits_only P (@ret World A a).
Proof. intros s. exists []. simpl. rewrite app_nil_r. auto. Qed.

Lemma only_throw {A : Type} (P : event -> bool) (e : string) :
  emits_only P (@throw World A e).
Proof. intros s. exists []. simpl. rewrite app_nil_r. auto. Qed.

Lemma only_throw_again {A : Type} (P : event -> bool) (e : Error.t) :
  emits_only P (@rethrow World A e).
Proof. intros s. exists []. simpl. rewrite app_nil_r. auto. Qed.

Lemma only_lift {A : Type} (P : event -> bool) (o : outcome A) :
  emits_only P (@lift World A o).
Proof. intros s. exists []. simpl. rewrite app_nil_r. auto. Qed.

Lemma only_call {A : Type} (P : event -> bool) (f : World -> outcome A * World) :
  emits_only P (call f).
Proof.
  intros s. exists []. unfold call. destruct (f (world s)). simpl.
  rewrite app_nil_r. auto.
Qed.

Lemma only_ask {A : Type} (P : event -> bool) (f : World -> A * World) :
  emits_only P (ask f).
Proof.
  intros s. exists []. unfold ask. destruct (f (world s)). simpl.
  rewrite app_nil_r. auto.
Qed.

Lemma only_emit (P : event -> bool) (e : event) :
  P e = true -> emits_only P (@emit World e).
Proof. intros H s. exists [e]. simpl. auto. Qed.

Lemma only_bind {A B : Type} (P : event -> bool) (m : M World A)
    (k : A -> M World B) :
  emits_only P m -> (forall a, emits_only P (k a)) -> emits_only P (bind m k).
Proof.
  intros Hm Hk s. unfold bind. destruct (Hm s) as (evs1 & Ht1 & H1).
  destruct (m s) as [[a|e] s1]; simpl in *; [|eauto].
  destruct (Hk a s1) as (evs2 & Ht2 & H2). exists (evs1 ++ evs2).
  rewrite Ht2, Ht1, app_assoc. split; [reflexivity|]. apply Forall_app. auto.
Qed.

Lemma only_try_catch {A : Type} (P : event -> bool) (m : M World A)
    (h : Error.t -> M World A) :
  emits_only P m -> (forall e, emits_only P (h e)) -> emits_only P (try_catch m h).
Proof.
  intros Hm Hh s. unfold try_catch. destruct (Hm s) as (evs1 & Ht1 & H1).
  destruct (m s) as [[a|e] s1]; simpl in *; [eauto|].
  destruct (Hh e s1) as (evs2 & Ht2 & H2). exists (evs1 ++ evs2).
  rewrite Ht2, Ht1, app_assoc. split; [reflexivity|]. apply Forall_app. auto.
Qed.

Lemma only_when (P : event -> bool) (b : bool) (m : M World unit) :
  (b = true -> emits_only P m) -> emits_only P (when b m).
Proof. destruct b; intros H; [apply H; reflexivity|apply only_ret]. Qed.

(** What comes after a computation that always throws is not run. *)
Lemma never_bind {A B : Type} (m : M World A) (k : A -> M World B) :
  never_returns m -> never_returns (bind m k).
Proof.
  intros Hm s. unfold bind. destruct (Hm s) as (e & He).
  destruct (m s) as [[a|x] s1]; simpl in *; [discriminate|eauto].
Qed.

Lemma never_bind_r {A B : Type} (m : M World A) (k : A -> M World B) :
  (forall a, never_returns (k a)) -> never_returns (bind m k).
Proof.
  intros Hk s. unfold bind. destruct (m s) as [[a|x] s1]; simpl; [|eauto].
  apply Hk.
Qed.

Lemma only_bind_never {A B : Type} (P : event -> bool) (m : M World A)
    (k : A -> M World B) :
  emits_only P m -> never_returns m -> emits_only P (bind m k).
Proof.
  intros Hm Hn s. unfold bind. destruct (Hm s) as (evs & Ht & H).
  destruct (Hn s) as (e & He).
  destruct (m s) as [[a|x] s1]; simpl in *; [discriminate|eauto].
Qed.

Lemma never_try_catch {A : Type} (m : M World A) (h : Error.t -> M World A) :
  never_returns m -> (forall e, never_returns (h e)) ->
  never_returns (try_catch m h).
Proof.
  intros Hm Hh s. unfold try_catch. destruct (Hm s) as (e & He).
  destruct (m s) as [[a|x] s1]; simpl in *; [discriminate|].
  apply Hh.
Qed.

Lemma never_try_rethrow {A : Type} (m : M World A) (at_ : step) :
  never_returns m ->
  never_returns (try_catch m (report_and_rethrow at_)).
Proof.
  intros Hm. apply never_try_catch; [exact Hm|].
  intros e. apply quiet_report_and_rethrow.
Qed.

(** An event that is no report of an error carries no message. *)
Lemma unreported (e : event) : is_error e = false -> reported e = None.
Proof. destruct e; simpl; [reflexivity..|discriminate|reflexivity|reflexivity]. Qed.

(** The reports carry the message that is thrown. *)
Lemma reports_ret {A : Type} (a : A) : reports_what_it_throws (@ret World A a).
Proof. intros s. exists []. simpl. rewrite app_nil_r. auto. Qed.

Lemma reports_throw {A : Type} (e : string) :
  reports_what_it_throws (@throw World A e).
Proof. intros s. exists []. simpl. rewrite app_nil_r. auto. Qed.

Lemma reports_lift {A : Type} (o : outcome A) :
  reports_what_it_throws (@lift World A o).
Proof. intros s. exists []. simpl. rewrite app_nil_r. destruct o; auto. Qed.

Lemma reports_call {A : Type} (f : World -> outcome A * World) :
  reports_what_it_throws (call f).
Proof.
  intros s. exists []. unfold call. destruct (f (world s)) as [o w]. simpl.
  rewrite app_nil_r. destruct o; auto.
Qed.

Lemma reports_ask {A : Type} (f : World -> A * World) :
  reports_what_it_throws (ask f).
Proof.
  intros s. exists []. unfold ask. destruct (f (world s)). simpl.
  rewrite app_nil_r. auto.
Qed.

Lemma reports_emit (e : event) :
  is_error e = false -> is_response e = false ->
  reports_what_it_throws (@emit World e).
Proof. intros He Hr s. exists [e]. simpl. auto. Qed.

Lemma reports_bind {A B : Type} (m : M World A) (k : A -> M World B) :
  reports_what_it_throws m -> (forall a, reports_what_it_throws (k a)) ->
  reports_what_it_throws (bind m k).
Proof.
  intros Hm Hk s. unfold bind. destruct (Hm s) as (evs1 & Ht1 & H1).
  destruct (m s) as [[a|e] s1]; simpl in *; [|eauto].
  destruct (Hk a s1) as (evs2 & Ht2 & H2). exists (evs1 ++ evs2).
  rewrite Ht2, Ht1, app_assoc. split; [reflexivity|].
  destruct (fst (k a s1)); apply Forall_app; split; auto.
  eapply Forall_impl; [|exact H1]. intros x [Hx _]. left. apply unreported, Hx.
Qed.

Lemma reports_when (b : bool) (m : M World unit) :
  reports_what_it_throws m -> reports_what_it_throws (when b m).
Proof. destruct b; [trivial|intros _; apply reports_ret]. Qed.

Lemma reports_rethrow {A : Type} (m : M World A) (at_ : step) :
  reports_what_it_throws m ->
  reports_what_it_throws (try_catch m (report_and_rethrow at_)).
Proof.
  intros Hm s. unfold try_catch. destruct (Hm s) as (evs1 & Ht1 & H1).
  destruct (m s) as [[a|e] s1]; simpl in *; [eauto|].
  exists (evs1 ++ [EvError at_ (Error.message e)]). rewrite Ht1, app_assoc.
  split; [reflexivity|]. apply Forall_app. split; [exact H1|].
  constructor; [right; reflexivity|constructor].
Qed.

(** The first event and the others. *)
Lemma starts_then_emit {A : Type} (e : event) (P : event -> bool) (k : M World A) :
  emits_only P k -> starts_then e P (emit e ;;; k).
Proof.
  intros Hk s. unfold bind, emit.
  destruct (Hk {| world := world s; trace := trace s ++ [e] |}) as (evs & Ht & H).
  exists evs. rewrite Ht. simpl. rewrite <- app_assoc. auto.
Qed.

Lemma starts_then_bind {A B : Type} (e : event) (P : event -> bool)
    (m : M World A) (k : A -> M World B) :
  starts_then e P m -> (forall a, emits_only P (k a)) -> starts_then e P (bind m k).
Proof.
  intros Hm Hk s. unfold bind. destruct (Hm s) as (evs1 & Ht1 & H1).
  destruct (m s) as [[a|x] s1]; simpl in *; [|eauto].
  destruct (Hk a s1) as (evs2 & Ht2 & H2). exists (evs1 ++ evs2).
  rewrite Ht2, Ht1, <- app_assoc. split; [reflexivity|]. apply Forall_app. auto.
Qed.

Lemma starts_then_try_catch {A : Type} (e : event) (P : event -> bool)
    (m : M World A) (h : Error.t -> M World A) :
  starts_then e P m -> (forall x, emits_only P (h x)) ->
  starts_then e P (try_catch m h).
Proof.
  intros Hm Hh s. unfold try_catch. destruct (Hm s) as (evs1 & Ht1 & H1).
  destruct (m s) as [[a|x] s1]; simpl in *; [eauto|].
  destruct (Hh x s1) as (evs2 & Ht2 & H2). exists (evs1 ++ evs2).
  rewrite Ht2, Ht1, <- app_assoc. split; [reflexivity|]. apply Forall_app. auto.
Qed.

Lemma starts_then_lift {A B : Type} (e : event) (P : event -> bool) (a : A)
    (k : A -> M World B) :
  starts_then e P (k a) -> starts_then e P (bind (lift (Return a)) k).
Proof. intros H s. exact (H s). Qed.

Variable svc : Services World.

(** The steps of [emits_only]: [known] for the functions of the pipeline,
    [side] for the side condition on an event. *)
Ltac only_steps_with known side :=
  repeat first
    [ known
    | apply only_bind; [|intros]
    | apply only_try_catch; [|intros]
    | apply only_when; intros
    | apply only_emit; side
    | apply only_call
    | apply only_ask
    | apply only_lift
    | apply only_ret
    | apply only_throw
    | apply only_throw_again ].

Ltac reports_steps_with known :=
  repeat first
    [ known
    | apply reports_bind; [|intros]
    | apply reports_rethrow
    | apply reports_when
    | apply reports_emit; reflexivity
    | apply reports_call
    | apply reports_ask
    | apply reports_lift
    | apply reports_ret
    | apply reports_throw ].

Lemma only_exportFigmaComponent_tail (P : event -> bool) (nodeId : value)
    (scale : number) :
  (forall url, P (EvDownload url) = true) ->
  (forall m, P (EvError ExportStep m) = true) ->
  emits_only P
    (entry <- call (figma_images svc nodeId scale) ;;
     match entry with
     | str imageUrl =>
         if Str.nonempty imageUrl then
           emit (EvDownload imageUrl) ;;;
           data <- call (download svc imageUrl) ;;
           ret data
         else throw "No image URL returned from Figma"
     | undefined => throw "No image URL returned from Figma"
     end).
Proof.
  intros Hd He. apply only_bind; [apply only_call|]. intros [|url].
  - apply only_throw.
  - destruct (Str.nonempty url); only_steps_with fail ltac:(apply Hd).
Qed.

Lemma only_exportFigmaComponent (P : event -> bool) (nodeId : value)
    (scale : number) :
  P (EvExport nodeId scale) = true ->
  (forall url, P (EvDownload url) = true) ->
  (forall m, P (EvError ExportStep m) = true) ->
  emits_only P (exportFigmaComponent svc nodeId scale).
Proof.
  intros Hx Hd He. unfold exportFigmaComponent, report_and_rethrow.
  apply only_try_catch.
  - apply only_bind; [apply only_emit, Hx|]. intros _.
    apply only_exportFigmaComponent_tail; assumption.
  - intros e. only_steps_with fail ltac:(apply He).
Qed.

Lemma only_addTextOverlay (P : event -> bool) (image : Buffer) (h p t : data) :
  P EvMetadata = true ->
  (forall a b, P (EvComposite a b) = true) ->
  (forall m, P (EvError OverlayStep m) = true) ->
  emits_only P (addTextOverlay svc image h p t).
Proof.
  intros Hm Hc He. unfold addTextOverlay, report_and_rethrow.
  only_steps_with fail ltac:(first [exact Hm | apply Hc | apply He]).
Qed.

Lemma only_uploadToCloudinary (P : event -> bool) (image : Buffer)
    (filename : string) :
  (forall f, P (EvUpload f) = true) ->
  (forall m, P (EvError UploadStep m) = true) ->
  (forall data, P (EvResponse data) = true) ->
  emits_only P (uploadToCloudinary svc image filename).
Proof.
  intros Hu He Hr. unfold uploadToCloudinary.
  apply only_try_catch.
  - destruct (CLOUDINARY_URL svc) as [|url]; [apply only_throw|].
    destruct (cloudinary_match svc url) as [[[? ?] cloudName]|];
      only_steps_with fail ltac:(apply Hu).
  - intros e s. destruct (upload_catch e s) as (evs & -> & Hevs).
    exists evs. split; [reflexivity|].
    destruct Hevs as [-> | (data & _ & ->)]; repeat constructor;
      first [apply He | apply Hr].
Qed.

Lemma reports_exportFigmaComponent (nodeId : value) (scale : number) :
  reports_what_it_throws (exportFigmaComponent svc nodeId scale).
Proof.
  unfold exportFigmaComponent, report_and_rethrow. reports_steps_with fail.
  match goal with
  | |- reports_what_it_throws (match ?entry with _ => _ end) =>
      destruct entry as [|url]
  end; [apply reports_throw|].
  destruct (Str.nonempty url); reports_steps_with fail.
Qed.

Lemma reports_addTextOverlay (image : Buffer) (h p t : data) :
  reports_what_it_throws (addTextOverlay svc image h p t).
Proof. unfold addTextOverlay, report_and_rethrow. reports_steps_with fail. Qed.

Lemma reports_uploadToCloudinary (image : Buffer) (filename : string) :
  reports_what_it_throws (uploadToCloudinary svc image filename).
Proof.
  unfold uploadToCloudinary.
  assert (Hbody : reports_what_it_throws
            (match CLOUDINARY_URL svc with
             | undefined => throw (TypeError_undefined "match")
             | str url =>
                 match cloudinary_match svc url with
                 | None => throw "Invalid CLOUDINARY_URL format"
                 | Some (_, _, cloudName) =>
                     emit (EvUpload (filename +++ ".png")) ;;;
                     secure_url <- call (cloudinary_post svc cloudName image
                                           (filename +++ ".png")) ;;
                     ret secure_url
                 end
             end : M World value)).
  { destruct (CLOUDINARY_URL svc) as [|url]; [apply reports_throw|].
    destruct (cloudinary_match svc url) as [[[? ?] cloudName]|];
      reports_steps_with fail. }
  intros s. unfold try_catch. destruct (Hbody s) as (evs1 & Ht1 & H1).
  match goal with
  | |- context [match ?b s with _ => _ end] => destruct (b s) as [[a|e] s1]
  end; simpl in *; [eauto|].
  destruct (upload_catch e s1) as (evs & -> & Hevs). cbn [fst snd trace].
  exists (evs1 ++ evs). rewrite Ht1, app_assoc. split; [reflexivity|].
  apply Forall_app. split; [exact H1|].
  destruct Hevs as [-> | (data & _ & ->)];
    repeat first [apply Forall_nil | apply Forall_cons];
    first [right; reflexivity | left; reflexivity].
Qed.

(** Every event of a card but a delay, and but a write to disk outside
    development. *)
Lemma only_processCard (P : event -> bool) (h p t : data) :
  (forall e, is_delay e = false ->
             (is_write e = true -> development svc = true) -> P e = true) ->
  emits_only P (processCard svc h p t).
Proof.
  intros HP. unfold processCard. cbv zeta.
  assert (Hw : forall name, development svc = true -> P (EvWriteFile name) = true).
  { intros name Hdev. apply HP; [reflexivity|]. intros _. exact Hdev. }
  only_steps_with
    ltac:(first [ apply only_exportFigmaComponent
                | apply only_addTextOverlay
                | apply only_uploadToCloudinary ])
    ltac:(first [ apply Hw; assumption
                | apply HP; [reflexivity|discriminate] ]);
    intros; apply HP; first [reflexivity | discriminate].
Qed.

(** The loop of the batch adds the delay only. *)
Lemma only_processBatch (P : event -> bool) (cards : list item) :
  (forall h p t, emits_only P (processCard svc h p t)) ->
  P (EvDelay 1000) = true ->
  emits_only P (processBatch svc cards).
Proof.
  intros Hcard Hdelay. unfold processBatch.
  generalize (Z.of_nat (List.length cards)) as len. generalize 0 as i.
  generalize (@nil CardResult) as results.
  induction cards as [|x rest IH]; intros results i len; cbn [batchLoop].
  - apply only_ret.
  - apply only_bind; [apply only_lift|]. intros card.
    apply only_bind; [apply Hcard|]. intros r.
    apply only_bind; [|intros _; apply IH].
    apply only_when. intros _ s. exists [EvDelay 1000]. simpl. auto.
Qed.

(** What holds of every result of a card holds of the results of a batch. *)
Lemma returns_processBatch (Q : CardResult -> Prop) (cards : list item) :
  (forall h p t, returns (processCard svc h p t) Q) ->
  returns (processBatch svc cards) (Forall Q).
Proof.
  intros Hcard. unfold processBatch.
  assert (H : forall rest len i results,
             returns (batchLoop svc len i rest results)
               (fun rs => Forall Q results -> Forall Q rs)).
  { induction rest as [|x rest IH]; intros len i results; cbn [batchLoop].
    - apply returns_ret. auto.
    - intros s rs s' E. unfold bind at 1, lift at 1 in E.
      destruct (properties_of x) as [card|e]; [|discriminate].
      unfold bind at 1 in E.
      destruct (processCard svc (headerOf card) (promoOf card) (templateOf card) s)
        as [[r|e] s1] eqn:Hr; [|discriminate].
      unfold bind at 1 in E.
      destruct (when (i <? len - 1) (delay svc 1000) s1) as [[[]|e] s2];
        [|discriminate].
      intros Hres. apply (IH _ _ _ _ _ _ E).
      apply Forall_app. split; [exact Hres|].
      constructor; [exact (Hcard _ _ _ _ _ _ Hr)|constructor]. }
  intros s rs s' E. apply (H _ _ _ _ _ _ _ E). constructor.
Qed.

(** The [catch] of [processCard] after a [try] that always throws, for a
    header that converts. *)
Lemma card_caught (P : event -> bool) (body : M World CardResult)
    (h p t : data) (s : State World) :
  converts svc h ->
  emits_only P body ->
  never_returns body ->
  (forall m, P (EvError (CardStep h) m) = true) ->
  exists r s' evs,
    try_catch body
      (fun error =>
         lift (ToString (Number_toString svc) h) ;;;
         emit (EvError (CardStep h) (Error.message error)) ;;;
         date <- ask (Date_now svc) ;;
         ret {| success := false; header := h; promo := p; template := t;
                imageUrl := None; error := Some (Error.message error);
                timestamp := Date_toISOString svc date |}) s
    = (Return r, s') /\
    failed r /\ trace s' = trace s ++ evs /\ Forall (fun e => P e = true) evs.
Proof.
  intros Hh Hb Hn HP. unfold try_catch.
  destruct (Hb s) as (evs & Ht & Hall). destruct (Hn s) as (m & Hm).
  destruct (body s) as [[r|e] s1]; simpl in *; [discriminate|].
  destruct (card_catch svc h p t e s1 Hh) as (r & s' & -> & Ht' & _ & Hf & _).
  exists r, s', (evs ++ [EvError (CardStep h) (Error.message e)]).
  split; [reflexivity|]. split; [exact Hf|].
  rewrite Ht', Ht, app_assoc. split; [reflexivity|].
  apply Forall_app. split; [exact Hall|]. constructor; [apply HP|constructor].
Qed.

Lemma createTextSvg_throws (f : number -> string) (h p : data)
    (width height : number) :
  h = undefined \/ p = undefined ->
  exists e, createTextSvg f h p width height = Throw e.
Proof.
  intros [-> | ->]; unfold createTextSvg; simpl.
  - destruct (promoLines p width); simpl; eauto.
  - eauto.
Qed.

Lemma never_addTextOverlay (image : Buffer) (h p t : data) :
  h = undefined \/ p = undefined ->
  never_returns (addTextOverlay svc image h p t).
Proof.
  intros Hmiss. unfold addTextOverlay.
  apply never_try_rethrow. apply never_bind_r. intros _.
  apply never_bind_r. intros metadata. apply never_bind.
  destruct (createTextSvg_throws (Number_toString svc) h p
              (Num.ofZ (fst metadata)) (Num.ofZ (snd metadata)) Hmiss) as (e & ->).
  intros s. exists e. reflexivity.
Qed.

Lemma never_uploadToCloudinary (image : Buffer) (filename : string) :
  (forall url, CLOUDINARY_URL svc = str url -> cloudinary_match svc url = None) ->
  never_returns (uploadToCloudinary svc image filename) /\
  emits_only (fun e => negb (is_upload e)) (uploadToCloudinary svc image filename).
Proof.
  intros Hcfg. unfold uploadToCloudinary. split.
  - apply never_try_catch.
    + destruct (CLOUDINARY_URL svc) as [|url] eqn:Hurl.
      * intros s. eexists. reflexivity.
      * rewrite (Hcfg url eq_refl). intros s. eexists. reflexivity.
    + intros e s. destruct (upload_catch e s) as (evs & -> & _).
      exists e. reflexivity.
  - apply only_try_catch.
    + destruct (CLOUDINARY_URL svc) as [|url] eqn:Hurl; [apply only_throw|].
      rewrite (Hcfg url eq_refl). apply only_throw.
    + intros e s. destruct (upload_catch e s) as (evs & -> & Hevs).
      exists evs. split; [reflexivity|].
      destruct Hevs as [-> | (data & _ & ->)]; repeat constructor.
Qed.

(** A card without a header or without a promo fails before the upload. *)
Lemma processCard_missing_text (h p t : data) (s : State World) :
  converts svc h ->
  h = undefined \/ p = undefined ->
  exists r s' evs,
    processCard svc h p t s = (Return r, s') /\
    failed r /\ trace s' = trace s ++ evs /\
    Forall (fun e => negb (is_upload e) = true) evs.
Proof.
  intros Hh Hmiss. unfold processCard. cbv zeta.
  apply (card_caught (fun e => negb (is_upload e))); [exact Hh| | |reflexivity].
  - apply only_bind; [apply only_lift|]. intros _.
    apply only_bind; [apply only_lift|]. intros node.
    apply only_bind; [apply only_exportFigmaComponent; reflexivity|]. intros base.
    apply only_bind;
      [only_steps_with fail ltac:(reflexivity)|]. intros _.
    apply only_bind_never;
      [apply only_addTextOverlay; reflexivity|apply never_addTextOverlay, Hmiss].
  - apply never_bind_r. intros _.
    apply never_bind_r. intros node. apply never_bind_r. intros base.
    apply never_bind_r. intros _. apply never_bind.
    apply never_addTextOverlay, Hmiss.
Qed.

(** With a [CLOUDINARY_URL] that is missing or does not match, a card fails
    and nothing is posted. *)
Lemma processCard_bad_upload_config (h p t : data) (s : State World) :
  converts svc h ->
  (forall url, CLOUDINARY_URL svc = str url -> cloudinary_match svc url = None) ->
  exists r s' evs,
    processCard svc h p t s = (Return r, s') /\
    failed r /\ trace s' = trace s ++ evs /\
    Forall (fun e => negb (is_upload e) = true) evs.
Proof.
  intros Hh Hcfg. unfold processCard. cbv zeta.
  apply (card_caught (fun e => negb (is_upload e))); [exact Hh| | |reflexivity].
  - apply only_bind; [apply only_lift|]. intros _.
    apply only_bind; [apply only_lift|]. intros node.
    apply only_bind; [apply only_exportFigmaComponent; reflexivity|]. intros base.
    apply only_bind; [only_steps_with fail ltac:(reflexivity)|]. intros _.
    apply only_bind; [apply only_addTextOverlay; reflexivity|]. intros processed.
    apply only_bind; [only_steps_with fail ltac:(reflexivity)|]. intros _.
    apply only_bind; [apply only_ask|]. intros now.
    apply only_bind; [apply only_lift|]. intros part.
    apply only_bind_never; apply never_uploadToCloudinary, Hcfg.
  - do 8 (apply never_bind_r; intros ?). apply never_bind.
    apply never_uploadToCloudinary, Hcfg.
Qed.

(** The reports of a card and the [error] of its result. *)
Lemma processCard_reports (h p t : data) (s : State World) :
  converts svc h ->
  exists r s' evs,
    processCard svc h p t s = (Return r, s') /\
    trace s' = trace s ++ evs /\
    ((succeeded r /\
      Forall (fun e => is_error e = false /\ is_response e = false) evs) \/
     (exists m evs0,
         failed r /\ error r = Some m /\
         evs = evs0 ++ [EvError (CardStep h) m] /\
         Forall (fun e => reported e = None \/ reported e = Some m) evs)).
Proof.
  intros Hh. unfold processCard. cbv zeta.
  match goal with
  | |- context [try_catch ?b ?hd] => set (body := b); set (handler := hd)
  end.
  assert (Hq : reports_what_it_throws body).
  { subst body.
    reports_steps_with
      ltac:(first [ apply reports_exportFigmaComponent
                  | apply reports_addTextOverlay
                  | apply reports_uploadToCloudinary ]). }
  assert (Hr : returns body succeeded).
  { subst body. repeat (apply returns_bind; intros).
    apply returns_ret. unfold succeeded. simpl. eauto. }
  unfold try_catch. destruct (Hq s) as (evs & Ht & Hall).
  destruct (body s) as [[r|e] s1] eqn:Hb; simpl in *.
  - exists r, s1, evs. split; [reflexivity|]. split; [exact Ht|].
    left. split; [exact (Hr _ _ _ Hb)|exact Hall].
  - subst handler.
    destruct (card_catch svc h p (templateType_or_default t) e s1 Hh)
      as (r & s' & -> & Ht' & _ & Hf & Herr).
    exists r, s', (evs ++ [EvError (CardStep h) (Error.message e)]).
    split; [reflexivity|]. rewrite Ht', Ht, app_assoc.
    split; [reflexivity|]. right. exists (Error.message e), evs.
    split; [exact Hf|]. split; [exact Herr|].
    split; [reflexivity|]. apply Forall_app. split; [exact Hall|].
    constructor; [right; reflexivity|constructor].
Qed.

(** A card asks for its node once, first of all. *)
Lemma starts_then_processCard (h p t : data) (node : value) :
  converts svc h ->
  nodeOf svc (templateType_or_default t) = Return node ->
  starts_then (EvExport node Num.lit_2) (fun e => negb (is_export e))
    (processCard svc h p t).
Proof.
  intros Hh Hnode. unfold processCard. cbv zeta. rewrite Hnode.
  apply starts_then_try_catch.
  - destruct Hh as (text & ->). apply starts_then_lift. apply starts_then_lift.
    apply starts_then_bind.
    + unfold exportFigmaComponent.
      apply starts_then_try_catch.
      * apply starts_then_emit.
        apply only_exportFigmaComponent_tail; reflexivity.
      * intros x. unfold report_and_rethrow.
        only_steps_with fail ltac:(reflexivity).
    + intros base.
      only_steps_with
        ltac:(first [ apply only_addTextOverlay
                    | apply only_uploadToCloudinary ])
        ltac:(reflexivity); reflexivity.
  - intros x. only_steps_with fail ltac:(reflexivity).
Qed.

(** The table has a [default], so every template that converts to a
    string has a node to ask for, possibly [undefined]. *)
Lemma node_of_template (t : data) :
  converts svc t ->
  exists node, nodeOf svc (templateType_or_default t) = Return node.
Proof.
  intros (text & Ht). unfold nodeOf.
  assert (Hd : exists key,
             ToString (Number_toString svc) (templateType_or_default t) = Return key).
  { destruct t as [[|x]| | | | |]; cbn [templateType_or_default];
      first [eexists; reflexivity | eexists; exact Ht]. }
  destruct Hd as (key & ->).
  apply (resolve_total TEMPLATE_CONFIG _ {| nodeId := "1:14" |}). reflexivity.
Qed.

End Conduct.

(* ================================================================== *)
(** ** The failures of a card *)

(** X10. When the request to the design tool for the image of the node
    fails, the card is a failure with the message of that request as its
    [error], and nothing else is done for the card: the events are the
    request and the two reports, without download, overlay or upload. The
    header is one that converts to a string. *)
Theorem processCard_export_failure {World : Type} (svc : Services World)
    (h p t : data) (node : value) (e : Error.t) (w' : World) (s : State World) :
  converts svc h ->
  nodeOf svc (templateType_or_default t) = Return node ->
  figma_images svc node Num.lit_2 (world s) = (Throw e, w') ->
  exists r s',
    processCard svc h p t s = (Return r, s') /\
    failed r /\ error r = Some (Error.message e) /\
    trace s' = trace s ++ [ EvExport node Num.lit_2;
                            EvError ExportStep (Error.message e);
                            EvError (CardStep h) (Error.message e) ].
Proof.
  intros (text & Hh) Hnode Himg.
  unfold processCard, exportFigmaComponent, report_and_rethrow.
  cbv zeta. rewrite Hnode, Hh.
  unfold try_catch, bind, lift, emit, call, throw, rethrow, ask, ret.
  cbn [world trace fst snd]. rewrite Himg. cbn [world trace fst snd].
  destruct (Date_now svc w') as [date w'']. eexists _, _.
  split; [reflexivity|]. cbn [trace error]. rewrite <- !app_assoc.
  split; [unfold failed; simpl; eauto|]. split; reflexivity.
Qed.

Lemma processCard_export_failure_witness :
  exists r,
    fst (processCard (Demo.services 1000 true) (str "New Arrivals")
           (str "Latest collection") undefined Demo.later) = Return r /\
    error r = Some "timeout of 30000ms exceeded".
Proof.
  destruct (processCard_export_failure (Demo.services 1000 true)
              (str "New Arrivals") (str "Latest collection") undefined
              (str "1:14") (new_Error "timeout of 30000ms exceeded") 4005 Demo.later)
    as (r & s' & Hrun & _ & Herr & _).
  - eexists. reflexivity.
  - reflexivity.
  - reflexivity.
  - exists r. rewrite Hrun. split; [reflexivity|exact Herr].
Defined.

(** X11. When the design tool answers without a URL for the node (no
    entry, or an empty one), the card is a failure with the error "No image
    URL returned from Figma", and nothing is downloaded. The header is one
    that converts to a string. *)
Theorem processCard_no_image_url {World : Type} (svc : Services World)
    (h p t : data) (node entry : value) (w' : World) (s : State World) :
  converts svc h ->
  nodeOf svc (templateType_or_default t) = Return node ->
  figma_images svc node Num.lit_2 (world s) = (Return entry, w') ->
  truthy entry = false ->
  exists r s',
    processCard svc h p t s = (Return r, s') /\
    failed r /\ error r = Some "No image URL returned from Figma" /\
    trace s' = trace s ++ [ EvExport node Num.lit_2;
                            EvError ExportStep "No image URL returned from Figma";
                            EvError (CardStep h) "No image URL returned from Figma" ].
Proof.
  intros (text & Hh) Hnode Himg Hfalsy.
  unfold processCard, exportFigmaComponent, report_and_rethrow.
  cbv zeta. rewrite Hnode, Hh.
  unfold try_catch, bind, lift, emit, call, throw, rethrow, ask, ret.
  cbn [world trace fst snd]. rewrite Himg. cbn [world trace fst snd].
  assert (Hentry : entry = undefined \/ entry = str "").
  { destruct entry as [|x]; [left; reflexivity|right].
    simpl in Hfalsy. apply negb_false_iff, String.eqb_eq in Hfalsy.
    congruence. }
  destruct Hentry as [-> | ->];
    cbn [Str.nonempty String.eqb negb world trace fst snd new_Error Error.message];
    destruct (Date_now svc w') as [date w'']; eexists _, _;
    (split; [reflexivity|]); cbn [trace error]; rewrite <- !app_assoc;
    (split; [unfold failed; simpl; eauto|]); split; reflexivity.
Qed.

Lemma processCard_no_image_url_witness :
  exists r,
    fst (processCard (Demo.services 1000 true) (str "Summer Sale")
           (str "50% off") (str "toString") Demo.start) = Return r /\
    error r = Some "No image URL returned from Figma".
Proof.
  destruct (processCard_no_image_url (Demo.services 1000 true)
              (str "Summer Sale") (str "50% off") (str "toString")
              undefined undefined 5 Demo.start)
    as (r & s' & Hrun & _ & Herr & _).
  - eexists. reflexivity.
  - reflexivity.
  - reflexivity.
  - reflexivity.
  - exists r. rewrite Hrun. split; [reflexivity|exact Herr].
Defined.

(** X12. The [error] of a failed card is the message of the step that
    failed, as that step reported it. In a run of [processCard] on a header
    that converts to a string, every report of an error message carries one
    message, the report of the card comes last, and this message is the
    [error] of the result; the line that prints the answer of a refused
    upload carries no message. A success has reported nothing at all. *)
Theorem processCard_error_is_the_report {World : Type} (svc : Services World)
    (h p t : data) (s : State World) :
  converts svc h ->
  exists r s' evs,
    processCard svc h p t s = (Return r, s') /\
    trace s' = trace s ++ evs /\
    ((succeeded r /\
      Forall (fun e => is_error e = false /\ is_response e = false) evs) \/
     (exists m evs0,
         failed r /\ error r = Some m /\
         evs = evs0 ++ [EvError (CardStep h) m] /\
         Forall (fun e => reported e = None \/ reported e = Some m) evs)).
Proof.
  intros Hh.
  destruct (processCard_reports svc h p t s Hh)
    as (r & s' & evs & Hrun & Ht & Hcases).
  exists r, s', evs. auto.
Qed.

(** A refused upload: the message of the refusal is the [error]. *)
Lemma processCard_error_is_the_report_witness :
  exists r,
    fst (processCard (Demo.services 1000 false) (str "Summer Sale") (str "50% off")
           undefined Demo.start) = Return r /\
    error r = Some "Request failed with status code 401".
Proof.
  destruct (processCard_error_is_the_report (Demo.services 1000 false)
              (str "Summer Sale") (str "50% off") undefined Demo.start)
    as (r & s' & evs & Hrun & Ht & Hcases).
  - eexists. reflexivity.
  - exists r. rewrite Hrun. split; [reflexivity|].
    vm_compute in Hrun. injection Hrun as <- _. reflexivity.
Defined.

(** In that run the answer of the image host is printed after the report
    of the upload. *)
Example refused_upload_prints_the_answer :
  exists evs,
    trace (snd (processCard (Demo.services 1000 false) (str "Summer Sale")
                  (str "50% off") undefined Demo.start))
    = evs ++ [ EvError UploadStep "Request failed with status code 401";
               EvResponse "{ error: { message: 'Unknown API key' } }";
               EvError (CardStep (str "Summer Sale"))
                 "Request failed with status code 401" ].
Proof. eexists [_; _; _; _; _]. vm_compute. reflexivity. Qed.

(** X13. A card without a header, or without a promo, is never uploaded:
    when [headerText] or [promoText] is [undefined] the result is a failure
    and the run has no upload, whatever the services answer. The header is
    one that converts to a string, as [undefined] is. *)
Theorem processCard_missing_text_never_uploads {World : Type}
    (svc : Services World) (h p t : data) (s : State World) :
  converts svc h ->
  h = undefined \/ p = undefined ->
  exists r s' evs,
    processCard svc h p t s = (Return r, s') /\
    failed r /\ trace s' = trace s ++ evs /\
    Forall (fun e => is_upload e = false) evs.
Proof.
  intros Hh Hmiss.
  destruct (processCard_missing_text svc h p t s Hh Hmiss)
    as (r & s' & evs & Hrun & Hf & Ht & Hall).
  exists r, s', evs. repeat (split; [assumption|]).
  eapply Forall_impl; [|exact Hall]. intros e He. apply negb_true_iff, He.
Qed.

Lemma processCard_missing_text_never_uploads_witness :
  exists r,
    fst (processCard (Demo.services 1000 true) undefined (str "50% off")
           undefined Demo.start) = Return r /\ failed r.
Proof.
  destruct (processCard_missing_text_never_uploads (Demo.services 1000 true)
              undefined (str "50% off") undefined Demo.start)
    as (r & s' & evs & Hrun & Hf & _).
  - eexists. reflexivity.
  - left. reflexivity.
  - exists r. rewrite Hrun. split; [reflexivity|exact Hf].
Defined.

(* ================================================================== *)
(** ** What a batch does and does not do *)

(** X14. Outside development no file is written: when [NODE_ENV] is not
    "development", a batch writes neither [debug_base.png] nor
    [debug_processed.png], for any element, whether the batch returns or
    throws. *)
Theorem processBatch_writes_no_debug_file {World : Type} (svc : Services World)
    (cards : list item) (s : State World) :
  development svc = false ->
  exists evs,
    trace (snd (processBatch svc cards s)) = trace s ++ evs /\
    Forall (fun e => is_write e = false) evs.
Proof.
  intros Hdev.
  destruct (only_processBatch svc (fun e => negb (is_write e)) cards) with (s := s)
    as (evs & Ht & Hall).
  - intros h p t. apply only_processCard. intros e _ Hw.
    destruct (is_write e); [|reflexivity].
    rewrite Hdev in Hw. discriminate (Hw eq_refl).
  - reflexivity.
  - exists evs. split; [exact Ht|].
    eapply Forall_impl; [|exact Hall]. intros e He. apply negb_true_iff, He.
Qed.

Lemma processBatch_writes_no_debug_file_witness :
  exists evs,
    trace (snd (processBatch (Demo.services 1000 true) Demo.two_cards Demo.start))
    = trace Demo.start ++ evs /\
    Forall (fun e => is_write e = false) evs.
Proof.
  apply (processBatch_writes_no_debug_file (Demo.services 1000 true)
           Demo.two_cards Demo.start).
  reflexivity.
Defined.

(** X15. With a [CLOUDINARY_URL] that is not set, or that does not match
    the expected form, every record of a batch fails and nothing is posted
    to the image host; the batch still returns a result for every record.
    The batch is one of records with a header that converts to a string. *)
Theorem processBatch_bad_upload_config {World : Type} (svc : Services World)
    (cards : list item) (s : State World) :
  Forall (printable svc) cards ->
  (forall url, CLOUDINARY_URL svc = str url -> cloudinary_match svc url = None) ->
  exists results s' evs,
    processBatch svc cards s = (Return results, s') /\
    List.length results = List.length cards /\
    Forall failed results /\
    trace s' = trace s ++ evs /\
    Forall (fun e => is_upload e = false) evs.
Proof.
  intros Hall Hcfg.
  destruct (processBatch_run svc cards s Hall)
    as (results & s' & chunks & Hrun & Hres & _).
  assert (Hnone : forall h p t,
             emits_only (fun e => negb (is_upload e)) (processCard svc h p t)).
  { intros h p t s0.
    destruct (ToString (Number_toString svc) h) as [text|e] eqn:Hh.
    - destruct (processCard_bad_upload_config svc h p t s0)
        as (r & s1 & evs & Hr & _ & Ht & Hall'); [eexists; exact Hh|exact Hcfg|].
      exists evs. rewrite Hr. auto.
    - rewrite (processCard_throws svc h p t e s0 Hh). exists [].
      simpl. rewrite app_nil_r. auto. }
  destruct (only_processBatch svc (fun e => negb (is_upload e)) cards Hnone eq_refl s)
    as (evs & Ht & Hevs).
  exists results, s', evs. split; [exact Hrun|].
  split; [symmetry; exact (Forall2_length Hres)|].
  split.
  - apply (returns_processBatch svc failed cards) with (s := s) (s' := s');
      [|exact Hrun].
    intros h p t s0 r s1 Hr.
    destruct (ToString (Number_toString svc) h) as [text|e] eqn:Hh.
    + destruct (processCard_bad_upload_config svc h p t s0)
        as (r' & s1' & evs' & Hr' & Hf & _); [eexists; exact Hh|exact Hcfg|].
      congruence.
    + rewrite (processCard_throws svc h p t e s0 Hh) in Hr. discriminate.
  - rewrite Hrun in Ht. split; [exact Ht|].
    eapply Forall_impl; [|exact Hevs]. intros e He. apply negb_true_iff, He.
Qed.

Lemma processBatch_bad_upload_config_witness :
  exists results s' evs,
    processBatch (unconfigured 1000) Demo.two_cards Demo.start
    = (Return results, s') /\
    List.length results = List.length Demo.two_cards /\
    Forall failed results /\
    trace s' = trace Demo.start ++ evs /\
    Forall (fun e => is_upload e = false) evs.
Proof.
  apply (processBatch_bad_upload_config (unconfigured 1000) Demo.two_cards
           Demo.start).
  - repeat constructor; eexists; (split; [reflexivity|]); eexists; reflexivity.
  - intros url Hurl. discriminate Hurl.
Defined.

Lemma exports_between (chunks : list (list event)) (ms : Z) :
  Forall (fun c => List.length (filter is_export c) = 1%nat) chunks ->
  List.length (filter is_export (List.concat (between [EvDelay ms] chunks)))
  = List.length chunks.
Proof.
  induction 1 as [|c chunks Hc _ IH]; [reflexivity|].
  destruct chunks as [|c' chunks].
  - simpl. rewrite app_nil_r. exact Hc.
  - change (between [EvDelay ms] (c :: c' :: chunks))
      with (c :: [EvDelay ms] :: between [EvDelay ms] (c' :: chunks)).
    cbn [List.concat]. rewrite !filter_app, !length_app, Hc, IH. reflexivity.
Qed.

(** X16. A batch does not stop at a failed card: in a batch of records
    whose header and template convert to strings, the design tool is asked
    for an image once for every record, whatever happened to the records
    before it. The requests of such a batch are as many as its records. *)
Theorem processBatch_attempts_every_record {World : Type} (svc : Services World)
    (cards : list item) (s : State World) :
  Forall (requestable svc) cards ->
  exists evs,
    trace (snd (processBatch svc cards s)) = trace s ++ evs /\
    List.length (filter is_export evs) = List.length cards.
Proof.
  intros Hall.
  assert (Hprint : Forall (printable svc) cards).
  { eapply Forall_impl; [|exact Hall]. intros x (card & -> & Hh & _).
    exists card. auto. }
  destruct (processBatch_run svc cards s Hprint)
    as (results & s' & chunks & Hrun & _ & Hevs & _ & Ht).
  exists (List.concat (between [EvDelay 1000] chunks)).
  rewrite Hrun. split; [exact Ht|].
  rewrite exports_between.
  - symmetry. exact (Forall2_length Hevs).
  - clear Ht Hrun Hprint.
    induction Hevs as [|x c cards chunks Hc _ IH]; constructor.
    + apply Forall_cons_iff in Hall. destruct Hall as [(card & -> & Hh & Htpl) _].
      destruct Hc as (card' & Hcard & s0 & Hs0). injection Hcard as <-.
      destruct (node_of_template svc (templateOf card) Htpl) as (node & Hnode).
      destruct (starts_then_processCard svc (headerOf card) (promoOf card)
                  (templateOf card) node Hh Hnode s0) as (evs & Hs0' & Hnone).
      rewrite Hs0' in Hs0. apply app_inv_head in Hs0. subst c.
      cbn [filter is_export].
      assert (Hf : filter is_export evs = []).
      { clear Hs0'. induction Hnone as [|e evs He _ IHn]; [reflexivity|].
        simpl. apply negb_true_iff in He. rewrite He. exact IHn. }
      rewrite Hf. reflexivity.
    + apply IH. apply Forall_cons_iff in Hall. apply Hall.
Qed.

Lemma processBatch_attempts_every_record_witness :
  exists evs,
    trace (snd (processBatch (Demo.services 1000 true) Demo.two_cards Demo.start))
    = trace Demo.start ++ evs /\
    List.length (filter is_export evs) = 2%nat.
Proof.
  apply (processBatch_attempts_every_record (Demo.services 1000 true)
           Demo.two_cards Demo.start).
  repeat constructor; eexists;
    (split; [reflexivity|]); split; eexists; reflexivity.
Defined.

(** X17. The counts at the end of a batch add up: for a batch of records
    with a header that converts to a string, the batch returns, and the
    successful and the failed results are together as many as the results,
    which are as many as the records. *)
Theorem processBatch_summary_counts {World : Type} (svc : Services World)
    (cards : list item) (s : State World) :
  Forall (printable svc) cards ->
  exists results,
    fst (processBatch svc cards s) = Return results /\
    total (summarize results) = List.length cards /\
    (successful (summarize results) + failed_count (summarize results)
     = List.length cards)%nat.
Proof.
  intros Hall.
  destruct (processBatch_run svc cards s Hall)
    as (results & s' & chunks & Hrun & Hres & _).
  exists results. rewrite Hrun. split; [reflexivity|].
  assert (Hlen : List.length results = List.length cards)
    by (symmetry; exact (Forall2_length Hres)).
  split; [exact Hlen|]. rewrite <- Hlen. unfold summarize. simpl.
  clear. induction results as [|r results IH]; [reflexivity|].
  simpl. destruct (success r); simpl; lia.
Qed.

Lemma processBatch_summary_counts_witness :
  exists results,
    fst (processBatch (Demo.services 1000 true) Demo.two_cards Demo.start)
    = Return results /\
    total (summarize results) = 2%nat /\
    (successful (summarize results) + failed_count (summarize results) = 2)%nat.
Proof.
  apply (processBatch_summary_counts (Demo.services 1000 true) Demo.two_cards
           Demo.start).
  repeat constructor; eexists; (split; [reflexivity|]); eexists; reflexivity.
Defined.

(* ================================================================== *)
(** ** The front door *)

Module DoorFacts.
Import Str StrFacts.

Lemma truthy_js_or (a b : data) : truthy (js_or a b) = truthy a || truthy b.
Proof. unfold js_or. destruct (truthy a) eqn:Ha; [exact Ha|reflexivity]. Qed.

Lemma usable_checks (item : Card.t) :
  usable item <->
  negb (truthy (Card.header item)) && negb (truthy (Card.Header item)) = false /\
  negb (truthy (Card.promo item)) && negb (truthy (Card.PromoText item))
  && negb (truthy (Card.promo_text item)) = false.
Proof.
  unfold usable, headerOf, promoOf. rewrite !truthy_js_or.
  destruct (truthy (Card.header item)), (truthy (Card.Header item)),
    (truthy (Card.promo item)), (truthy (Card.PromoText item)),
    (truthy (Card.promo_text item)); simpl; intuition congruence.
Qed.

Lemma validateFrom_none (items : list item) (i : Z) :
  validateFrom i items = Return None <-> Forall usable_item items.
Proof.
  revert i. induction items as [|x rest IH]; intros i; cbn [validateFrom].
  - split; [constructor|reflexivity].
  - destruct x as [|item]; cbn [properties_of].
    { split; [discriminate|]. intros H. apply Forall_cons_iff in H.
      destruct H as [(card & Hc & _) _]. discriminate Hc. }
    pose proof (usable_checks item) as Hu.
    assert (Hitem : usable_item (record item) <-> usable item).
    { split; [intros (card & Hc & H); injection Hc as <-; exact H|].
      intros H. exists item. auto. }
    destruct (negb (truthy (Card.header item)) && negb (truthy (Card.Header item))).
    + split; [discriminate|]. intros H. apply Forall_cons_iff in H.
      destruct H as [H _]. apply Hitem, Hu in H. destruct H. discriminate.
    + destruct (negb (truthy (Card.promo item)) && negb (truthy (Card.PromoText item))
                && negb (truthy (Card.promo_text item))).
      * split; [discriminate|]. intros H. apply Forall_cons_iff in H.
        destruct H as [H _]. apply Hitem, Hu in H. destruct H. discriminate.
      * rewrite IH, Forall_cons_iff, Hitem, Hu. tauto.
Qed.

Lemma validateFrom_some (items : list item) (i j : Z) (f : field) :
  validateFrom i items = Return (Some (j, f)) ->
  exists pre item post,
    items = pre ++ record item :: post /\
    j = i + Z.of_nat (List.length pre) /\
    Forall usable_item pre /\
    match f with
    | HeaderField => truthy (headerOf item) = false
    | PromoField => truthy (headerOf item) = true /\ truthy (promoOf item) = false
    end.
Proof.
  revert i. induction items as [|x rest IH]; intros i; cbn [validateFrom];
    [discriminate|].
  destruct x as [|item]; cbn [properties_of]; [discriminate|].
  pose proof (usable_checks item) as Hu. unfold usable in Hu.
  destruct (negb (truthy (Card.header item)) && negb (truthy (Card.Header item)))
    eqn:Hh.
  - intros E. injection E as <- <-. exists [], item, rest.
    split; [reflexivity|]. split; [simpl; lia|]. split; [constructor|].
    unfold headerOf. rewrite truthy_js_or.
    apply andb_true_iff in Hh. destruct Hh as [H1 H2].
    apply negb_true_iff in H1, H2. rewrite H1, H2. reflexivity.
  - assert (Hhead : truthy (headerOf item) = true).
    { unfold headerOf. rewrite truthy_js_or.
      destruct (truthy (Card.header item)), (truthy (Card.Header item));
        simpl in *; congruence. }
    destruct (negb (truthy (Card.promo item)) && negb (truthy (Card.PromoText item))
              && negb (truthy (Card.promo_text item))) eqn:Hp.
    + intros E. injection E as <- <-. exists [], item, rest.
      split; [reflexivity|]. split; [simpl; lia|]. split; [constructor|].
      split; [exact Hhead|]. unfold promoOf. rewrite !truthy_js_or.
      apply andb_true_iff in Hp. destruct Hp as [Hp H3].
      apply andb_true_iff in Hp. destruct Hp as [H1 H2].
      apply negb_true_iff in H1, H2, H3. rewrite H1, H2, H3. reflexivity.
    + intros E. destruct (IH _ E) as (pre & y & post & -> & -> & Hpre & Hf).
      exists (record item :: pre), y, post. split; [reflexivity|].
      split; [simpl List.length; lia|]. split; [|exact Hf].
      constructor; [exists item; split; [reflexivity|apply Hu; auto]|exact Hpre].
Qed.

(** The loop throws at the first [null], when no element before it is
    rejected. *)
Lemma validateFrom_null (pre post : list item) (i : Z) :
  Forall usable_item pre ->
  validateFrom i (pre ++ null_item :: post)
  = Throw (new_Error "Cannot read properties of null (reading 'header')").
Proof.
  intros Hpre. revert i.
  induction Hpre as [|x pre (card & -> & Hu) _ IH]; intros i; [reflexivity|].
  cbn [app validateFrom properties_of].
  apply usable_checks in Hu. destruct Hu as [-> ->]. apply IH.
Qed.

Lemma split_app_space (a b : string) :
  split (a +++ String " " b) = split a ++ split b.
Proof.
  induction a as [|c r IH]; [reflexivity|].
  simpl String.append. cbn [split]. rewrite IH.
  destruct (Ascii.eqb c space); [reflexivity|].
  destruct (split_cons r) as (w & ws & ->). reflexivity.
Qed.

Lemma split_items_no_space (s : string) :
  Forall (fun w => no_space w = true) (split s).
Proof.
  induction s as [|c r IH]; [repeat constructor|].
  cbn [split]. destruct (Ascii.eqb c space) eqn:Hc.
  - constructor; [reflexivity|exact IH].
  - destruct (split_cons r) as (w & ws & Hs). rewrite Hs in *.
    inversion IH; subst. constructor; [|assumption].
    simpl. rewrite Hc. assumption.
Qed.

End DoorFacts.

(** X18. The validation of [/api/process] lets an array through exactly
    when every element is a record that gives the renderer a header and a
    promo: it is not [null], and the values [processBatch] selects from the
    synonyms are both truthy. *)
Theorem validate_accepts_usable_batches (items : list item) :
  validate items = Return None <->
  forall x, In x items ->
            exists item,
              x = record item /\
              truthy (headerOf item) = true /\ truthy (promoOf item) = true.
Proof.
  unfold validate. rewrite DoorFacts.validateFrom_none, Forall_forall.
  reflexivity.
Qed.

(** X19. A rejected batch is rejected for its first unusable record: the
    index in the answer is the position of a record before which every
    element is a usable record, and the field named is the header if the
    record has none, and the promo only if it has a header. *)
Theorem validate_reports_first (items : list item) (j : Z) (f : field) :
  validate items = Return (Some (j, f)) ->
  exists pre item post,
    items = pre ++ record item :: post /\
    j = Z.of_nat (List.length pre) /\
    (forall x, In x pre ->
               exists card,
                 x = record card /\
                 truthy (headerOf card) = true /\ truthy (promoOf card) = true) /\
    match f with
    | HeaderField => truthy (headerOf item) = false
    | PromoField => truthy (headerOf item) = true /\ truthy (promoOf item) = false
    end.
Proof.
  intros E. destruct (DoorFacts.validateFrom_some items 0 j f E)
    as (pre & item & post & Hi & Hj & Hpre & Hf).
  exists pre, item, post. split; [exact Hi|]. split; [lia|].
  split; [|exact Hf]. rewrite Forall_forall in Hpre. exact Hpre.
Qed.

Lemma validate_reports_first_witness :
  exists pre item post,
    [record Demo.synonyms; record (Demo.card "" "50% off");
     record (Demo.card "A" "")]
    = pre ++ record item :: post /\ List.length pre = 1%nat.
Proof.
  destruct (validate_reports_first
              [record Demo.synonyms; record (Demo.card "" "50% off");
               record (Demo.card "A" "")]
              1 HeaderField eq_refl)
    as (pre & item & post & Hi & Hj & _).
  exists pre, item, post. split; [exact Hi|lia].
Defined.

(** X20. [/api/process] answers every request, and these without
    rendering anything. A body that is not an array is answered with status
    400. An array in which the validation loop finds an unusable record is
    answered with status 400 and the message that names the index and the
    field of that record; the trace of events is as it was. An array in
    which the loop meets [null] first is answered with status 500: reading
    [item.header] throws inside the [try], and the [catch] reports the
    TypeError. *)
Theorem processHandler_rejects {World : Type} (svc : Services World)
    (env_FIGMA_TOKEN env_CLOUDINARY_URL : value)
    (JSON_stringify : list CardResult -> string) (results_path : string)
    (request : body) (s : State World) :
  (exists reply s',
      processHandler svc env_FIGMA_TOKEN env_CLOUDINARY_URL JSON_stringify
        results_path request s = (Return reply, s') /\
      match request with
      | NotAnArray =>
          reply = BadRequest "Request body must be an array of objects" /\
          status reply = 400 /\ trace s' = trace s
      | Items items =>
          match validate items with
          | Return (Some missing) =>
              reply = BadRequest (missing_message missing) /\
              status reply = 400 /\ trace s' = trace s
          | Throw e =>
              reply = ServerError (Error.message e) /\
              status reply = 500 /\
              trace s' = trace s ++ [EvError RequestStep (Error.message e)]
          | Return None => True
          end
      end) /\
  (forall pre post,
      (forall x, In x pre ->
                 exists card,
                   x = record card /\
                   truthy (headerOf card) = true /\ truthy (promoOf card) = true) ->
      validate (pre ++ null_item :: post)
      = Throw (new_Error "Cannot read properties of null (reading 'header')")).
Proof.
  split.
  - unfold processHandler. unfold bind at 1, ask at 1.
    destruct (Date_now svc (world s)) as [startTime w]. cbn [fst snd].
    set (s0 := {| world := w; trace := trace s |}).
    destruct request as [|items].
    + eexists _, _. split; [reflexivity|]. repeat split.
    + unfold try_catch, bind at 1, lift at 1.
      destruct (validate items) as [[missing|]|e] eqn:Hv.
      * eexists _, _. split; [reflexivity|]. repeat split.
      * match goal with
        | |- context [match ?m s0 with _ => _ end] =>
            destruct (m s0) as [[reply|e] s1]
        end.
        -- eexists _, _. split; [reflexivity|exact I].
        -- unfold bind, emit, ask, ret. cbn [world trace].
           destruct (Date_now svc (world s1)) as [now w2]. cbn [world trace].
           destruct (Date_now svc w2) as [date w3].
           eexists _, _. split; [reflexivity|exact I].
      * unfold bind, emit, ask, ret. cbn [world trace s0].
        destruct (Date_now svc w) as [now w2]. cbn [world trace].
        destruct (Date_now svc w2) as [date w3].
        eexists _, _. split; [reflexivity|]. repeat split.
  - intros pre post Hpre. apply DoorFacts.validateFrom_null.
    apply Forall_forall. exact Hpre.
Qed.

(** The body [[null]], and a record without a promo. *)
Example processHandler_rejects_null :
  exists s',
    processHandler (Demo.services 1000 true) (str "token") (str "url")
      (fun _ => "[]") "image_results.json" (Items [null_item]) Demo.start
    = (Return (ServerError "Cannot read properties of null (reading 'header')"),
       s').
Proof. eexists. vm_compute. reflexivity. Qed.

Example processHandler_rejects_missing_promo :
  exists s',
    processHandler (Demo.services 1000 true) (str "token") (str "url")
      (fun _ => "[]") "image_results.json"
      (Items [record (Demo.card "Summer Sale" "")]) Demo.start
    = (Return (BadRequest "Item at index 0 is missing 'promo' field"), s') /\
    trace s' = trace Demo.start.
Proof. eexists. vm_compute. split; reflexivity. Qed.

(** X21. A usable batch of records with a header that converts to a
    string, with the two tokens configured, is answered with status 200, a
    result for every record at its index and a summary that counts them
    all, or with status 500 after the write of the results was attempted.
    No failed card of such a batch makes the answer a 500. *)
Theorem processHandler_answers {World : Type} (svc : Services World)
    (env_FIGMA_TOKEN env_CLOUDINARY_URL : value)
    (JSON_stringify : list CardResult -> string) (results_path : string)
    (items : list item) (s : State World) :
  validate items = Return None ->
  Forall (printable svc) items ->
  truthy env_FIGMA_TOKEN = true ->
  truthy env_CLOUDINARY_URL = true ->
  exists reply s',
    processHandler svc env_FIGMA_TOKEN env_CLOUDINARY_URL JSON_stringify
      results_path (Items items) s = (Return reply, s') /\
    ((exists duration timestamp_ results,
         reply = Processed (List.length items) duration timestamp_ results
                   (summarize results) /\
         status reply = 200 /\
         List.length results = List.length items /\
         (successful (summarize results) + failed_count (summarize results)
          = List.length items)%nat /\
         forall i item, nth_error items i = Some (record item) ->
                        exists r, nth_error results i = Some r /\
                                  header r = headerOf item /\
                                  promo r = promoOf item) \/
     (exists message,
         reply = ServerError message /\ status reply = 500 /\
         In (EvWriteFile results_path) (trace s'))).
Proof.
  intros Hv Hall Hf Hc. unfold processHandler.
  unfold bind at 1, ask at 1.
  destruct (Date_now svc (world s)) as [startTime w]. cbn [fst snd].
  unfold try_catch, bind at 1, lift at 1. rewrite Hv, Hf, Hc. cbn [negb].
  set (s0 := {| world := w; trace := trace s |}).
  destruct (processBatch_run svc items s0 Hall)
    as (results & s1 & chunks & Hrun & Hres & _).
  unfold bind at 1. rewrite Hrun.
  unfold bind at 1, emit at 1. unfold bind at 1, call at 1. cbn [world trace].
  destruct (fs_writeFile svc results_path (JSON_stringify results) (world s1))
    as [[[]|e] w2].
  - unfold bind, ask, ret. cbn [world trace].
    destruct (Date_now svc w2) as [now w3]. cbn [world trace].
    destruct (Date_now svc w3) as [date w4].
    eexists _, _. split; [reflexivity|]. left.
    eexists _, _, results. split; [reflexivity|]. split; [reflexivity|].
    assert (Hlen : List.length results = List.length items)
      by (symmetry; exact (Forall2_length Hres)).
    split; [exact Hlen|]. split.
    + rewrite <- Hlen. unfold summarize. simpl.
      clear. induction results as [|r results IH]; [reflexivity|].
      simpl. destruct (success r); simpl; lia.
    + intros i item Hi.
      destruct (Forall2_nth_error _ _ _ Hres i _ Hi)
        as (r & Hr & card & Hcard & Hh & Hp & _).
      injection Hcard as <-. eauto.
  - unfold bind, emit, ask, ret. cbn [world trace].
    destruct (Date_now svc w2) as [now w3]. cbn [world trace].
    destruct (Date_now svc w3) as [date w4].
    eexists _, _. split; [reflexivity|]. right.
    exists (Error.message e). split; [reflexivity|]. split; [reflexivity|].
    cbn [trace]. apply in_or_app. left. apply in_or_app. right. left. reflexivity.
Qed.

Lemma processHandler_answers_witness :
  exists reply,
    fst (processHandler (Demo.services 1000 true) (str "token") (str "url")
           (fun _ => "[]") "image_results.json" (Items Demo.two_cards) Demo.start)
    = Return reply /\ status reply = 200.
Proof.
  destruct (processHandler_answers (Demo.services 1000 true) (str "token")
              (str "url") (fun _ => "[]") "image_results.json" Demo.two_cards
              Demo.start)
    as (reply & s' & Hrun & [(d & ts & rs & -> & Hst & _)|(m & -> & _)]).
  - reflexivity.
  - repeat constructor; eexists; (split; [reflexivity|]); eexists; reflexivity.
  - reflexivity.
  - reflexivity.
  - eexists. rewrite Hrun. split; reflexivity.
  - vm_compute in Hrun. discriminate Hrun.
Defined.

(** The body [[{"header": {"toString": 1}, "promo": "50% off"}]] passes the
    validation, the batch throws, and the answer is a 500 with nothing
    written. *)
Example processHandler_unprintable_header :
  validate [record Demo.unprintable] = Return None /\
  exists s',
    processHandler (Demo.services 1000 true) (str "token") (str "url")
      (fun _ => "[]") "image_results.json" (Items [record Demo.unprintable])
      Demo.start
    = (Return (ServerError "Cannot convert object to primitive value"), s') /\
    trace s' = [EvError RequestStep "Cannot convert object to primitive value"].
Proof. split; [reflexivity|]. eexists. vm_compute. split; reflexivity. Qed.

(** X22. With an [AUTH_TOKEN] set, a request is let through when the
    second item of its [Authorization] header, split at the spaces, is the
    token: "Bearer token" passes, and so does any other scheme word before
    the token and anything after a further space. *)
Theorem authenticateToken_accepts (token scheme rest : string) :
  Str.nonempty token = true ->
  Str.no_space token = true ->
  Str.no_space scheme = true ->
  authenticateToken (str token) (str (scheme +++ " " +++ token)) = true /\
  authenticateToken (str token) (str (scheme +++ " " +++ token +++ " " +++ rest))
  = true.
Proof.
  intros Hne Htok Hsch. unfold authenticateToken, tokenOf.
  cbn [truthy]. unfold Str.nonempty in Hne. rewrite Hne. cbn [negb].
  assert (Hhead : forall tail, Str.nonempty (scheme +++ String " " tail) = true).
  { intros tail. destruct scheme; reflexivity. }
  split.
  - change (scheme +++ " " +++ token) with (scheme +++ String " " token).
    rewrite Hhead, DoorFacts.split_app_space.
    rewrite (StrFacts.split_no_space scheme Hsch), (StrFacts.split_no_space token Htok).
    simpl. apply String.eqb_refl.
  - change (scheme +++ " " +++ token +++ " " +++ rest)
      with (scheme +++ String " " (token +++ String " " rest)).
    rewrite Hhead, !DoorFacts.split_app_space.
    rewrite (StrFacts.split_no_space scheme Hsch), (StrFacts.split_no_space token Htok).
    simpl. apply String.eqb_refl.
Qed.

Lemma authenticateToken_accepts_witness :
  authenticateToken (str "s3cret") (str "Bearer s3cret") = true /\
  authenticateToken (str "s3cret") (str "Bearer s3cret and more") = true.
Proof.
  apply (authenticateToken_accepts "s3cret" "Bearer" "and more"); reflexivity.
Defined.

(** X23. An [AUTH_TOKEN] that holds a space locks everybody out: no
    [Authorization] header, and no request without one, is let through. *)
Theorem authenticateToken_token_with_space (token : string) (authHeader : value) :
  Str.no_space token = false ->
  authenticateToken (str token) authHeader = false.
Proof.
  intros Hsp. unfold authenticateToken.
  assert (Hne : truthy (str token) = true) by (destruct token; [discriminate|reflexivity]).
  rewrite Hne. cbn [negb]. unfold tokenOf.
  destruct authHeader as [|h]; [reflexivity|].
  destruct (Str.nonempty h).
  - destruct (nth_error (Str.split h) 1) as [t|] eqn:Ht; [|reflexivity].
    cbn [value_eqb]. apply String.eqb_neq. intros ->.
    pose proof (DoorFacts.split_items_no_space h) as Hall.
    rewrite Forall_forall in Hall.
    rewrite (Hall token (nth_error_In _ _ Ht)) in Hsp. discriminate.
  - cbn [value_eqb]. destruct token; [discriminate|reflexivity].
Qed.

Lemma authenticateToken_token_with_space_witness :
  authenticateToken (str "my secret") (str "Bearer my secret") = false.
Proof.
  apply (authenticateToken_token_with_space "my secret" (str "Bearer my secret")).
  reflexivity.
Defined.

(** X24. [POST /api/test] renders one card from the header and the promo
    of the body, or from the test texts in place of a property that is
    [undefined], with the default template. When the header converts to a
    string the answer is 200 with the result, also for a card that failed:
    the 500 of the handler is not sent. When the header does not convert,
    [processCard] throws, and the answer is the 500 with the message of the
    TypeError, with nothing requested. *)
Theorem testHandler_answers {World : Type} (svc : Services World)
    (header_ promo_ : data) (s : State World) :
  exists reply s',
    testHandler svc header_ promo_ s = (Return reply, s') /\
    match ToString (Number_toString svc) (or_default header_ "Test Header") with
    | Return _ =>
        exists r,
          reply = TestCompleted r /\
          status reply = 200 /\
          header r = or_default header_ "Test Header" /\
          promo r = or_default promo_ "Test Promo Text" /\
          template r = str "default" /\
          (succeeded r \/ failed r)
    | Throw e =>
        reply = ServerError (Error.message e) /\
        status reply = 500 /\
        s' = s
    end.
Proof.
  unfold testHandler, try_catch, bind, ret.
  destruct (ToString (Number_toString svc) (or_default header_ "Test Header"))
    as [text|e] eqn:Hh.
  - destruct (processCard_run svc (or_default header_ "Test Header")
                (or_default promo_ "Test Promo Text") undefined s)
      as (r & s' & evs & Hrun & _ & _ & (Hhd & Hp & Ht) & Hshape);
      [eexists; exact Hh|].
    rewrite Hrun. exists (TestCompleted r), s'. split; [reflexivity|].
    exists r. split; [reflexivity|]. split; [reflexivity|].
    repeat (split; [assumption|]). tauto.
  - rewrite (processCard_throws svc _ _ _ e s Hh).
    eexists _, _. split; [reflexivity|]. repeat split.
Qed.

(** The two answers, for the bodies [{}] and [{"header": {"toString": 1}}]. *)
Example testHandler_answers_sample :
  map (fun h => status (match fst (testHandler (Demo.services 1000 true) h
                                     undefined Demo.start) with
                        | Return reply => reply
                        | Throw e => ServerError (Error.message e)
                        end))
      [ plain undefined; Demo.no_string ]
  = [ 200; 500 ].
Proof. vm_compute. reflexivity. Qed.

(* ================================================================== *)
(** ** The components of the document *)

Module TreeFacts.
Import StrFacts.

(** Induction on a node with the hypothesis for all its children. *)
Lemma Node_forall_ind (P : Node -> Prop) :
  (forall id name type_ children,
      Forall P children -> P (mkNode id name type_ children)) ->
  forall n, P n.
Proof.
  intros H. fix IH 1. intros [id name type_ children]. apply H.
  induction children as [|child children IHc]; constructor;
    [apply IH|exact IHc].
Qed.

(** The walk of a node: its entry if it is a component, then its children
    in their order, with the name of the node added to the path. *)
Lemma findComponents_step (node : Node) (path : string) (acc : list Component) :
  findComponents node path acc =
  fold_left
    (fun components child =>
       findComponents child (path +++ "/" +++ node_name node) components)
    (node_children node)
    (if is_component node then acc ++ [entry_of node path] else acc).
Proof.
  destruct node as [id name type_ children]. cbn [findComponents node_children node_name].
  change {| comp_id := id; comp_name := name; comp_type := type_; comp_path := path |}
    with (entry_of (mkNode id name type_ children) path).
  generalize (if is_component (mkNode id name type_ children)
              then acc ++ [entry_of (mkNode id name type_ children) path]
              else acc) as start.
  induction children as [|child rest IH]; intros start; [reflexivity|].
  cbn [fold_left]. apply IH.
Qed.

Lemma fold_left_pushes {A : Type} (f : list Component -> A -> list Component)
    (g : A -> list Component) (l : list A) (acc : list Component) :
  Forall (fun a => forall acc, f acc a = acc ++ g a) l ->
  fold_left f l acc = acc ++ flat_map g l.
Proof.
  intros H. revert acc. induction H as [|a l Ha _ IH]; intros acc; simpl.
  - symmetry. apply app_nil_r.
  - rewrite IH, Ha, <- app_assoc. reflexivity.
Qed.

(** [findComponents] only pushes to the array. *)
Lemma findComponents_pushes (node : Node) :
  forall path acc,
    findComponents node path acc = acc ++ findComponents node path [].
Proof.
  induction node as [id name type_ children IH] using Node_forall_ind.
  intros path acc. rewrite !findComponents_step.
  cbn [node_children node_name].
  rewrite (fold_left_pushes _
             (fun child => findComponents child (path +++ "/" +++ name) []) children);
    [|eapply Forall_impl; [|exact IH]; intros child Hc acc'; apply Hc].
  rewrite (fold_left_pushes _
             (fun child => findComponents child (path +++ "/" +++ name) []) children
             (if is_component _ then [] ++ _ else []));
    [|eapply Forall_impl; [|exact IH]; intros child Hc acc'; apply Hc].
  destruct (is_component (mkNode id name type_ children)); simpl;
    rewrite <- ?app_assoc; reflexivity.
Qed.

Lemma findComponents_preorder (node : Node) (path : string) :
  findComponents node path [] =
  (if is_component node then [entry_of node path] else [])
  ++ flat_map (fun child =>
                 findComponents child (path +++ "/" +++ node_name node) [])
       (node_children node).
Proof.
  rewrite findComponents_step.
  rewrite (fold_left_pushes _
             (fun child => findComponents child (path +++ "/" +++ node_name node) [])).
  - destruct (is_component node); reflexivity.
  - apply Forall_forall. intros child _ acc. apply findComponents_pushes.
Qed.

Lemma collectComponents_pages (pages : list Node) :
  collectComponents pages =
  flat_map (fun page => findComponents page (node_name page) []) pages.
Proof.
  unfold collectComponents.
  rewrite (fold_left_pushes _
             (fun page => findComponents page (node_name page) [])).
  - reflexivity.
  - apply Forall_forall. intros page _ acc. apply findComponents_pushes.
Qed.

Lemma path_through_cons (path : string) (node : Node) (l : list Node) :
  path_through (path +++ "/" +++ node_name node) l = path_through path (node :: l).
Proof.
  unfold path_through. simpl. rewrite !append_assoc. reflexivity.
Qed.

Lemma findComponents_sound (node : Node) :
  forall path c,
    In c (findComponents node path []) ->
    exists n l, below n l node /\ is_component n = true /\
                c = entry_of n (path_through path l).
Proof.
  induction node as [id name type_ children IH] using Node_forall_ind.
  intros path c Hin. rewrite findComponents_preorder in Hin.
  apply in_app_or in Hin. destruct Hin as [Hin|Hin].
  - destruct (is_component (mkNode id name type_ children)) eqn:Hc; [|destruct Hin].
    destruct Hin as [<-|[]]. eexists _, []. split; [constructor|].
    split; [exact Hc|]. unfold path_through. simpl. rewrite append_nil_r.
    reflexivity.
  - apply in_flat_map in Hin. destruct Hin as (child & Hchild & Hin).
    cbn [node_children node_name] in *.
    rewrite Forall_forall in IH.
    destruct (IH child Hchild _ _ Hin) as (n & l & Hb & Hc & ->).
    exists n, (mkNode id name type_ children :: l).
    split; [econstructor; eassumption|]. split; [exact Hc|].
    exact (f_equal (entry_of n)
             (path_through_cons path (mkNode id name type_ children) l)).
Qed.

Lemma findComponents_complete (n node : Node) (l : list Node) :
  below n l node ->
  is_component n = true ->
  forall path, In (entry_of n (path_through path l)) (findComponents node path []).
Proof.
  induction 1 as [n|n child parent l Hchild Hb IH]; intros Hc path;
    rewrite findComponents_preorder; apply in_or_app.
  - left. rewrite Hc. unfold path_through. simpl. rewrite append_nil_r.
    left. reflexivity.
  - right. apply in_flat_map. exists child. split; [exact Hchild|].
    rewrite <- path_through_cons. apply IH, Hc.
Qed.

End TreeFacts.

(** X25. The entries [getFigmaFileStructure] builds from the pages of the
    document are the components of the document, no more and no less: an
    entry is in the result exactly when it is the entry of a node of type
    COMPONENT or COMPONENT_SET on or below a page, with the id, name and
    type of that node and the path made of the name of the page and then "/"
    and the name for every node from the page down to the parent. *)
Theorem collectComponents_exact (pages : list Node) (c : Component) :
  In c (collectComponents pages) <->
  exists page n ancestors,
    In page pages /\ below n ancestors page /\ is_component n = true /\
    c = entry_of n (path_through (node_name page) ancestors).
Proof.
  rewrite TreeFacts.collectComponents_pages, in_flat_map. split.
  - intros (page & Hpage & Hin).
    destruct (TreeFacts.findComponents_sound page _ _ Hin) as (n & l & Hb & Hc & ->).
    exists page, n, l. auto.
  - intros (page & n & l & Hpage & Hb & Hc & ->).
    exists page. split; [exact Hpage|].
    apply TreeFacts.findComponents_complete; assumption.
Qed.

(** X26. The path of a component that lies directly on a page holds the
    name of the page twice: the walk starts at the page with the name of the
    page as the path and adds the name of the page again when it goes down. *)
Theorem collectComponents_page_name_twice (pages : list Node) (page child : Node) :
  In page pages ->
  In child (node_children page) ->
  is_component child = true ->
  In (entry_of child (node_name page +++ "/" +++ node_name page))
     (collectComponents pages).
Proof.
  intros Hpage Hchild Hc. apply collectComponents_exact.
  exists page, child, [page]. split; [exact Hpage|].
  split; [econstructor; [exact Hchild|constructor]|]. split; [exact Hc|].
  unfold path_through. simpl. rewrite StrFacts.append_nil_r. reflexivity.
Qed.

Lemma collectComponents_page_name_twice_witness :
  In {| comp_id := "1:14"; comp_name := "BaseCard"; comp_type := "COMPONENT";
        comp_path := "Page 1/Page 1" |}
     (collectComponents
        [ mkNode "0:1" "Page 1" "CANVAS"
            [ mkNode "1:14" "BaseCard" "COMPONENT"
                [ mkNode "1:15" "HeaderText" "TEXT" [] ] ] ]).
Proof.
  apply (collectComponents_page_name_twice
           [ mkNode "0:1" "Page 1" "CANVAS"
               [ mkNode "1:14" "BaseCard" "COMPONENT"
                   [ mkNode "1:15" "HeaderText" "TEXT" [] ] ] ]
           (mkNode "0:1" "Page 1" "CANVAS"
              [ mkNode "1:14" "BaseCard" "COMPONENT"
                  [ mkNode "1:15" "HeaderText" "TEXT" [] ] ])
           (mkNode "1:14" "BaseCard" "COMPONENT"
              [ mkNode "1:15" "HeaderText" "TEXT" [] ])).
  - left. reflexivity.
  - left. reflexivity.
  - reflexivity.
Defined.

(** X27. The components come in the order of the document: the result
    for the pages is the results for each page one after the other, and on
    a page a node comes before the nodes below it and the children of a
    node come in their order. *)
Theorem collectComponents_order (pages more : list Node) (node : Node)
    (path : string) :
  collectComponents (pages ++ more) =
  collectComponents pages ++ collectComponents more /\
  findComponents node path [] =
  (if is_component node then [entry_of node path] else [])
  ++ flat_map (fun child =>
                 findComponents child (path +++ "/" +++ node_name node) [])
       (node_children node).
Proof.
  split.
  - rewrite !TreeFacts.collectComponents_pages. apply flat_map_app.
  - apply TreeFacts.findComponents_preorder.
Qed.

(* ================================================================== *)
(** ** The pipeline on headers that convert to a string *)

(** X28. For every header that converts to a string, and every promo and
    template, [processCard] does not throw: it returns a result that is
    either a success, with an [imageUrl] and no [error], or a failure, with
    an [error] and no [imageUrl]; in both cases [header], [promo] and
    [template] are the arguments (the template after its default value has
    been filled in). When the upload step has failed in the run, the result
    is a failure. *)
Theorem processCard_returns_for_printable_header {World : Type} (svc : Services World)
    (headerText promoText templateType : data) (s : State World) :
  converts svc headerText ->
  exists r s' evs,
    processCard svc headerText promoText templateType s = (Return r, s') /\
    trace s' = trace s ++ evs /\
    header r = headerText /\
    promo r = promoText /\
    template r = templateType_or_default templateType /\
    (succeeded r \/ failed r) /\
    ((exists message, In (EvError UploadStep message) evs) -> failed r).
Proof.
  intros Hh.
  destruct (processCard_run svc headerText promoText templateType s Hh)
    as (r & s' & evs & Hrun & Ht & _ & (Hhd & Hp & Htpl) & Hshape).
  exists r, s', evs. repeat (split; [assumption|]).
  split; [tauto|].
  intros (message & Hin). destruct Hshape as [[_ Hnone]|Hf]; [|exact Hf].
  rewrite Forall_forall in Hnone. destruct (Hnone _ Hin) as [Hno _].
  discriminate Hno.
Qed.

(** A run in which the image host rejects the upload. *)
Lemma processCard_returns_for_printable_header_witness :
  In (EvError UploadStep "Request failed with status code 401")
     (trace (snd (processCard (Demo.services 1000 false)
                    (str "Summer Sale") (str "50% off") (str "sale") Demo.start))) /\
  exists r,
    fst (processCard (Demo.services 1000 false)
           (str "Summer Sale") (str "50% off") (str "sale") Demo.start) = Return r /\
    failed r /\ template r = str "sale".
Proof.
  set (run := processCard (Demo.services 1000 false)
                (str "Summer Sale") (str "50% off") (str "sale") Demo.start).
  destruct (processCard_returns_for_printable_header (Demo.services 1000 false)
              (str "Summer Sale") (str "50% off") (str "sale") Demo.start)
    as (r & s' & evs & Hrun & Ht & _ & _ & Htpl & _ & Hup);
    [eexists; reflexivity|].
  fold run in Hrun.
  assert (Hin : In (EvError UploadStep "Request failed with status code 401")
                   (trace (snd run))).
  { vm_compute. tauto. }
  split; [exact Hin|].
  exists r. rewrite Hrun. split; [reflexivity|]. split; [|exact Htpl].
  apply Hup. exists "Request failed with status code 401".
  rewrite Hrun in Hin. simpl in Hin. rewrite Ht in Hin. exact Hin.
Defined.

(** X29. For every sequence of records with a header that converts to a
    string, and every behaviour of the outside, [processBatch] returns a
    sequence of results of the same length, and the result at slot [i]
    carries the header of the record at slot [i]: the value selected from
    its [header] and [Header] fields, which is the [header] field itself
    whenever that one is truthy. Failed cards are not an exception. *)
Theorem processBatch_keeps_slots {World : Type} (svc : Services World)
    (cards : list item) (s : State World) :
  Forall (printable svc) cards ->
  exists results s',
    processBatch svc cards s = (Return results, s') /\
    List.length results = List.length cards /\
    forall i card,
      nth_error cards i = Some (record card) ->
      exists r,
        nth_error results i = Some r /\
        header r = headerOf card /\
        (truthy (Card.header card) = true -> header r = Card.header card).
Proof.
  intros Hall.
  destruct (processBatch_run svc cards s Hall)
    as (results & s' & chunks & Hrun & Hres & _).
  exists results, s'. split; [exact Hrun|].
  split; [symmetry; exact (Forall2_length Hres)|].
  intros i card Hi.
  destruct (Forall2_nth_error _ _ _ Hres i _ Hi)
    as (r & Hr & card' & Hcard & Hh & _).
  injection Hcard as <-.
  exists r. split; [exact Hr|]. split; [exact Hh|].
  intros Ht. rewrite Hh. unfold headerOf, js_or. rewrite Ht. reflexivity.
Qed.

(** The two records of the demonstration keep their slots. *)
Lemma processBatch_keeps_slots_witness :
  exists r0 r1,
    fst (processBatch (Demo.services 1000 true) Demo.two_cards Demo.start)
    = Return [r0; r1] /\
    header r0 = str "Summer Sale" /\ header r1 = str "New Arrivals".
Proof.
  destruct (processBatch_keeps_slots (Demo.services 1000 true)
              Demo.two_cards Demo.start) as (results & s' & Hrun & Hlen & Hnth).
  - repeat constructor; eexists; (split; [reflexivity|]); eexists; reflexivity.
  - destruct (Hnth 0%nat _ eq_refl) as (r0 & Hr0 & Hh0 & _).
    destruct (Hnth 1%nat _ eq_refl) as (r1 & Hr1 & Hh1 & _).
    exists r0, r1. rewrite Hrun.
    destruct results as [|x [|y [|z rest]]]; try discriminate.
    simpl in Hr0, Hr1. injection Hr0 as ->. injection Hr1 as ->.
    repeat split; assumption.
Defined.

(** In that batch the design tool stops answering before the second
    record: the first slot is a success and the second a failure. *)
Example processBatch_with_a_failure :
  match fst (processBatch (Demo.services 1000 true) Demo.two_cards Demo.start) with
  | Return results => map success results = [true; false]
  | Throw _ => False
  end.
Proof. vm_compute. reflexivity. Qed.

(** X30. For a batch of records with a header that converts to a string,
    [processBatch] waits between consecutive records and not after the
    last: every record but the last is rendered and then the timer of one
    second fires, the next record starting in the world in which it has
    fired; the last record is rendered and the results are returned in the
    state it leaves. The delays of a batch of [n] such records are [n - 1],
    and an empty batch returns at once. *)
Theorem processBatch_waits_between_records {World : Type} (svc : Services World)
    (pre : list item) (last : Card.t) (s : State World) :
  Forall (printable svc) pre ->
  converts svc (headerOf last) ->
  processBatch svc [] s = (Return [], s) /\
  exists rs s1 r s' evs,
    rendered_and_waited svc 1000 pre s rs s1 /\
    processCard svc (headerOf last) (promoOf last) (templateOf last) s1
    = (Return r, s') /\
    processBatch svc (pre ++ [record last]) s = (Return (rs ++ [r]), s') /\
    trace s' = trace s ++ evs /\
    List.length (filter is_delay evs)
    = (List.length (pre ++ [record last]) - 1)%nat.
Proof.
  intros Hpre Hlast. split; [reflexivity|].
  destruct (processBatch_completes svc pre last s Hpre Hlast)
    as (rs & s1 & r & s' & Hchain & Hcard & Hrun).
  destruct (rendered_and_waited_trace svc _ _ _ _ _ Hchain)
    as (_ & evs1 & Ht1 & Hn1).
  destruct (processCard_never_waits svc (headerOf last) (promoOf last)
              (templateOf last) s1) as (evs2 & Ht2 & Hd2).
  rewrite Hcard in Ht2. cbn [snd] in Ht2.
  exists rs, s1, r, s', (evs1 ++ evs2).
  repeat (split; [assumption|]).
  split; [rewrite Ht2, Ht1, app_assoc; reflexivity|].
  rewrite filter_app, !length_app, Hn1.
  assert (Hnone : filter is_delay evs2 = []).
  { clear Ht2. induction Hd2 as [|e c He _ IH]; simpl; [reflexivity|].
    rewrite He. exact IH. }
  rewrite Hnone. simpl. lia.
Qed.

(** A batch of two cards waits once. *)
Lemma processBatch_waits_between_records_witness :
  List.length
    (filter is_delay
       (trace (snd (processBatch (Demo.services 1000 true) Demo.two_cards
                      Demo.start)))) = 1%nat.
Proof.
  destruct (processBatch_waits_between_records (Demo.services 1000 true)
              [ record (Demo.card "Summer Sale" "50% off all items!") ]
              (Demo.card "New Arrivals" "Latest collection") Demo.start)
    as (_ & rs & s1 & r & s' & evs & _ & _ & Hrun & Ht & Hn).
  - repeat constructor; eexists; (split; [reflexivity|]); eexists; reflexivity.
  - eexists. reflexivity.
  - change Demo.two_cards
      with ([ record (Demo.card "Summer Sale" "50% off all items!") ]
            ++ [ record (Demo.card "New Arrivals" "Latest collection") ]).
    rewrite Hrun. cbn [snd]. rewrite Ht. exact Hn.
Defined.
